(** * makesitex: a shallow embedding of [makesitex.py]

    The static site generator is a batch pipeline: header parsing
    ([read_header]), content reading ([read_content]), page rendering
    ([render_page]), collections ([make_pages]), index and feed aggregation
    ([make_index]) and the orchestrator ([make_site]).

    Modelling conventions.
    - A Python [str] is a Rocq [string]: a character is a code point below
      256.  On that range [str.isspace] holds for 9-13, 28-32, 133 and 160
      and the regular expression class [\d] is [0-9].
    - A Python [dict] with string keys is a [gmap string _]; [d.update(e)]
      is the left-biased union [e ∪ d].
    - A Python [int] is a [Z] (or a [nat] where the code only counts up).
    - Exceptions and [sys.exit] are the constructors of [outcome].
    - The template engine, the Markdown converter, the JSON codec, the
      date library and the file system are what the program runs on: they
      are the fields of the class [Env]. *)

From Stdlib Require Import Ascii String ZArith Lia Sorting.Sorted Sorting.Permutation.
From stdpp Require Import base option list gmap strings fin_maps pretty.

Local Open Scope Z_scope.
Local Open Scope nat_scope.

(* ===================================================================== *)
(** ** Python strings *)
(* ===================================================================== *)

Module Str.

Definition nl : ascii := "010"%char.
Definition colon : ascii := ":"%char.

(** [c.isspace()] on the code points below 256. *)
Definition isspace (c : ascii) : bool :=
  let n := nat_of_ascii c in
  ((9 <=? n) && (n <=? 13)) || ((28 <=? n) && (n <=? 32))
  || (n =? 133) || (n =? 160).

(** The class [\d] on the code points below 256. *)
Definition isdigit (c : ascii) : bool :=
  let n := nat_of_ascii c in (48 <=? n) && (n <=? 57).

Definition is_empty (s : string) : bool :=
  match s with EmptyString => true | String _ _ => false end.

Fixpoint lstrip (s : string) : string :=
  match s with
  | EmptyString => EmptyString
  | String a s' => if isspace a then lstrip s' else s
  end.

Fixpoint rstrip (s : string) : string :=
  match s with
  | EmptyString => EmptyString
  | String a s' =>
      let r := rstrip s' in
      if isspace a && is_empty r then EmptyString else String a r
  end.

(** [s.strip()] *)
Definition strip (s : string) : string := rstrip (lstrip s).

(** [s.split(sep)] for a one-character separator: never the empty list. *)
Fixpoint split (sep : ascii) (s : string) : list string :=
  match s with
  | EmptyString => [EmptyString]
  | String a s' =>
      if Ascii.eqb a sep then EmptyString :: split sep s'
      else match split sep s' with
           | l :: ls => String a l :: ls
           | [] => [String a EmptyString]
           end
  end.

(** [sep.join(parts)] *)
Fixpoint join (sep : string) (parts : list string) : string :=
  match parts with
  | [] => EmptyString
  | [p] => p
  | p :: ps => p +:+ sep +:+ join sep ps
  end.

(** [s[n:]] for [n >= 0]: the empty string when [n] is past the end. *)
Fixpoint drop (n : nat) (s : string) : string :=
  match n, s with
  | O, _ => s
  | S _, EmptyString => EmptyString
  | S n', String _ s' => drop n' s'
  end.

(** [c in s] *)
Fixpoint mem (c : ascii) (s : string) : bool :=
  match s with
  | EmptyString => false
  | String a s' => Ascii.eqb a c || mem c s'
  end.

(** The text before the first [c] and the text after it; [None] when [c]
    does not occur. *)
Fixpoint cut (c : ascii) (s : string) : option (string * string) :=
  match s with
  | EmptyString => None
  | String a s' =>
      if Ascii.eqb a c then Some (EmptyString, s')
      else match cut c s' with
           | Some (l, r) => Some (String a l, r)
           | None => None
           end
  end.

(** The longest prefix without [c], and what follows it. *)
Fixpoint span_not (c : ascii) (s : string) : string * string :=
  match s with
  | EmptyString => (EmptyString, EmptyString)
  | String a s' =>
      if Ascii.eqb a c then (EmptyString, s)
      else let '(l, r) := span_not c s' in (String a l, r)
  end.

End Str.

(* ===================================================================== *)
(** ** Outcomes of a call *)
(* ===================================================================== *)

(** The exceptions the program can meet.  All of them derive from Python's
    [Exception]; [sys.exit] raises [SystemExit], which does not, and is the
    separate constructor [Exit] of [outcome]. *)
Inductive exn : Type :=
  | IndexError
  | KeyError (key : string)
  | TypeError
  | AttributeError
  | ValueError
  | TemplateNotFound (name : string)
  | TemplateSyntaxError (message : string)
  | JSONDecodeError
  | OSError (message : string).

Inductive outcome (A : Type) : Type :=
  | Ok (a : A)
  | Raise (e : exn)
  | Exit (code : Z).
Arguments Ok {A} a.
Arguments Raise {A} e.
Arguments Exit {A} code.

(* ===================================================================== *)
(** ** Header parser *)
(* ===================================================================== *)

Definition sentinel : string := "---".

(** [line.strip() == "---"] *)
Definition is_sentinel (line : string) : bool :=
  String.eqb (Str.strip line) sentinel.

(** [re.match] of the header-line pattern on [line]: one or more
    characters other than a colon (group 1), a colon, any characters (group
    2), end of text.  Group 1 is the text before the first colon and must
    not be empty; the dot does not match a line feed, and the end anchor
    holds at the end of the text or before a final line feed. *)
Definition header_match (line : string) : option (string * string) :=
  match Str.cut Str.colon line with
  | None => None
  | Some (g1, after) =>
      if Str.is_empty g1 then None
      else
        let '(g2, tail) := Str.span_not Str.nl after in
        match tail with
        | EmptyString => Some (g1, g2)
        | String _ EmptyString => Some (g1, g2)
        | _ => None
        end
  end.

(** One turn of the [while] loop body on the dictionary [values]. *)
Definition header_store (line : string) (values : gmap string string)
  : gmap string string :=
  match header_match line with
  | Some (g1, g2) => <[Str.strip g1 := Str.strip g2]> values
  | None => values
  end.

(** The [while lines[i].strip() != "---"] loop; [rest] is [lines[i:]].
    Reading [lines[i]] past the end of the list raises [IndexError]. *)
Fixpoint read_header_loop (rest : list string) (values : gmap string string)
    (end_ : nat) : outcome (gmap string string * nat) :=
  match rest with
  | [] => Raise IndexError
  | line :: rest' =>
      if is_sentinel line then Ok (values, end_ + (String.length line + 1))
      else read_header_loop rest' (header_store line values)
                            (end_ + (String.length line + 1))
  end.

Definition read_header (text : string) : outcome (gmap string string * nat) :=
  let values : gmap string string := ∅ in
  let end_ := 0 in
  let lines := Str.split Str.nl text in
  match lines with
  | [] => Raise IndexError
  | line0 :: rest =>
      if is_sentinel line0
      then read_header_loop rest values (end_ + (String.length line0 + 1))
      else Ok (values, end_)
  end.


(* ===================================================================== *)
(** ** Truncation *)
(* ===================================================================== *)

Module Text.

Definition dquote : ascii := ascii_of_nat 34.
Definition squote : ascii := "'"%char.
Definition space : ascii := " "%char.
Definition lt : ascii := "<"%char.
Definition gt : ascii := ">"%char.

(** [s.replace(a, b)] for one-character [a] and [b]. *)
Fixpoint replace (a b : ascii) (s : string) : string :=
  match s with
  | EmptyString => EmptyString
  | String c s' => String (if Ascii.eqb c a then b else c) (replace a b s')
  end.

(** [re.sub] of the tag pattern by one space: a tag runs from a [<] to
    the nearest following [>], line feeds included; a [<] with no [>]
    after it is kept.  [in_tag] holds while the scan is inside a match. *)
Fixpoint sub_tags (in_tag : bool) (s : string) : string :=
  match s with
  | EmptyString => EmptyString
  | String c s' =>
      if in_tag then sub_tags (negb (Ascii.eqb c gt)) s'
      else if Ascii.eqb c lt && Str.mem gt s'
           then String space (sub_tags true s')
           else String c (sub_tags false s')
  end.

(** Whether [s] starts with a character that is not white space. *)
Definition starts_word (s : string) : bool :=
  match s with
  | EmptyString => false
  | String c _ => negb (Str.isspace c)
  end.

(** [s.split()]: the maximal runs of characters that are not white
    space. *)
Fixpoint words (s : string) : list string :=
  match s with
  | EmptyString => []
  | String c s' =>
      if Str.isspace c then words s'
      else if starts_word s'
           then match words s' with
                | w :: ws => String c w :: ws
                | [] => [String c EmptyString]
                end
           else String c EmptyString :: words s'
  end.

(** [l[:n]] for a Python [int] [n]: a negative [n] counts from the
    end. *)
Definition slice_to {A} (n : Z) (l : list A) : list A :=
  if (0 <=? n)%Z then take (Z.to_nat n) l
  else take (Z.to_nat (Z.of_nat (length l) + n)) l.

End Text.

(** [truncate(text, words=25)]; [None] is a call that leaves [words] out. *)
Definition truncate (text : string) (words : option Z) : string :=
  let words := default 25%Z words in
  let clean :=
    Text.replace Str.nl Text.space (Text.replace Text.dquote Text.squote text) in
  Str.join " " (Text.slice_to words (Text.words (Text.sub_tags false clean))).

(* ===================================================================== *)
(** ** Date and slug of a file name *)
(* ===================================================================== *)

Module Path.

Definition slash : ascii := "/"%char.
Definition dot : ascii := "."%char.
Definition dash : ascii := "-"%char.

(** [os.path.basename(p)] (POSIX): the text after the last slash. *)
Fixpoint basename (p : string) : string :=
  match p with
  | EmptyString => EmptyString
  | String c p' =>
      if Str.mem slash p' then basename p'
      else if Ascii.eqb c slash then p' else p
  end.

(** The text up to and including the last slash. *)
Fixpoint head_of (p : string) : string :=
  match p with
  | EmptyString => EmptyString
  | String c p' =>
      if Str.mem slash p' then String c (head_of p')
      else if Ascii.eqb c slash then String c EmptyString else EmptyString
  end.

Fixpoint all_slashes (p : string) : bool :=
  match p with
  | EmptyString => true
  | String c p' => Ascii.eqb c slash && all_slashes p'
  end.

(** [p.rstrip("/")] *)
Fixpoint rstrip_slashes (p : string) : string :=
  match p with
  | EmptyString => EmptyString
  | String c p' =>
      let r := rstrip_slashes p' in
      if Ascii.eqb c slash && Str.is_empty r then EmptyString else String c r
  end.

(** [os.path.dirname(p)] (POSIX). *)
Definition dirname (p : string) : string :=
  let head := head_of p in
  if negb (Str.is_empty head) && negb (all_slashes head)
  then rstrip_slashes head else head.

(** [s.endswith(suffix)] *)
Definition endswith (s suffix : string) : bool :=
  let n := String.length s in
  let k := String.length suffix in
  (k <=? n) && String.eqb (Str.drop (n - k) s) suffix.

(** The date part of the pattern: four digits, dash, two digits, dash,
    two digits. *)
Definition date_shaped (d : string) : bool :=
  match d with
  | String y1 (String y2 (String y3 (String y4 (String d1
    (String m1 (String m2 (String d2
    (String a1 (String a2 EmptyString))))))))) =>
      Str.isdigit y1 && Str.isdigit y2 && Str.isdigit y3 && Str.isdigit y4
      && Ascii.eqb d1 dash && Str.isdigit m1 && Str.isdigit m2
      && Ascii.eqb d2 dash && Str.isdigit a1 && Str.isdigit a2
  | _ => false
  end.

(** The optional group of the pattern: a date and a dash.  Returns the
    date and what follows the dash. *)
Definition date_prefix (s : string) : option (string * string) :=
  match s with
  | String y1 (String y2 (String y3 (String y4 (String d1
    (String m1 (String m2 (String d2
    (String a1 (String a2 (String d3 rest)))))))))) =>
      let date :=
        String y1 (String y2 (String y3 (String y4 (String d1
        (String m1 (String m2 (String d2
        (String a1 (String a2 EmptyString))))))))) in
      if date_shaped date && Ascii.eqb d3 dash
      then Some (date, rest) else None
  | _ => None
  end.

(** One or more characters other than a line feed, then the end anchor
    (the end of the text, or a final line feed). *)
Definition rest_of_line (s : string) : option string :=
  let '(g, tail) := Str.span_not Str.nl s in
  if Str.is_empty g then None
  else match tail with
       | EmptyString => Some g
       | String _ EmptyString => Some g
       | _ => None
       end.

(** [re.search] of the date-and-slug pattern: an optional date prefix
    (group 1, [None] when the prefix is not taken) and the slug
    (group 2).  The optional prefix is tried first and given up when
    nothing is left for the slug. *)
Definition date_slug_match (s : string) : option (option string * string) :=
  let without_date :=
    match rest_of_line s with
    | Some g2 => Some (None, g2)
    | None => None
    end in
  match date_prefix s with
  | Some (g1, rest) =>
      match rest_of_line rest with
      | Some g2 => Some (Some g1, g2)
      | None => without_date
      end
  | None => without_date
  end.

(** [os.path.basename(filename).split(".")]. *)
Definition name_parts (filename : string) : list string :=
  Str.split dot (basename filename).

End Path.

(* ===================================================================== *)
(** ** Values and parameter mappings *)
(* ===================================================================== *)

(** The values a parameter mapping holds: what the JSON configuration and
    the headers bring in.  A nested JSON object keeps its insertion order
    (the order [items()] enumerates), so it is an association list. *)
#[local] Set Warnings "-register-all".
Inductive value : Type :=
  | VNone
  | VBool (b : bool)
  | VInt (z : Z)
  | VStr (s : string)
  | VList (l : list value)
  | VDict (d : list (string * value)).

(** Python's truth value. *)
Definition truthy (v : value) : bool :=
  match v with
  | VNone => false
  | VBool b => b
  | VInt z => negb (z =? 0)%Z
  | VStr s => negb (Str.is_empty s)
  | VList l => match l with [] => false | _ => true end
  | VDict d => match d with [] => false | _ => true end
  end.

(** [a or b] *)
Definition py_or (a b : value) : value := if truthy a then a else b.

(** [d.get(key)], [None] by default. *)
Definition dict_get (d : gmap string value) (key : string) : value :=
  default VNone (d !! key).

(** [meta.get(key, dflt)] on a nested JSON object. *)
Fixpoint assoc_get (d : list (string * value)) (key : string) (dflt : value)
  : value :=
  match d with
  | [] => dflt
  | (k, v) :: d' => if String.eqb k key then v else assoc_get d' key dflt
  end.

Module Lower.

(** [c.lower()] on the code points below 256: the letters A-Z and the
    accented capitals 192-214 and 216-222 move up by 32. *)
Definition lower_char (c : ascii) : ascii :=
  let n := nat_of_ascii c in
  if ((65 <=? n) && (n <=? 90))
     || ((192 <=? n) && (n <=? 214)) || ((216 <=? n) && (n <=? 222))
  then ascii_of_nat (n + 32) else c.

Fixpoint lower (s : string) : string :=
  match s with
  | EmptyString => EmptyString
  | String c s' => String (lower_char c) (lower s')
  end.

(** The literals of [to_bool]; the fifth is the letter s followed by
    the code points 195 and 173. *)
Definition yes_words : list string :=
  [ "true"; "yes"; "ok"; "si";
    String "s" (String (ascii_of_nat 195) (String (ascii_of_nat 173) EmptyString));
    "bai"; "oui"; "da"; "1" ].

End Lower.

Definition to_bool (v : value) : bool :=
  match v with
  | VBool b => b
  | VInt z => negb (z =? 0)%Z
  | VStr s => bool_decide (Lower.lower s ∈ Lower.yes_words)
  | _ => false
  end.

(** [sorted(items, key=..., reverse=True)] on precomputed string keys.
    Python's sort is stable, also with [reverse=True]: elements with equal
    keys keep their original order.  An element goes in front of the first
    element whose key is not greater than its own. *)
Fixpoint insert_desc {A} (x : string * A) (l : list (string * A))
  : list (string * A) :=
  match l with
  | [] => [x]
  | y :: l' =>
      if String.leb (fst y) (fst x) then x :: l
      else y :: insert_desc x l'
  end.

Definition sorted_reverse {A} (l : list (string * A)) : list (string * A) :=
  foldr insert_desc [] l.

(** [outcome] as a monad: an exception or an exit ends the computation. *)
#[global] Instance outcome_ret : MRet outcome := λ A a, Ok a.
#[global] Instance outcome_bind : MBind outcome := λ A B f m,
  match m with
  | Ok a => f a
  | Raise e => Raise e
  | Exit c => Exit c
  end.

(** The mapping [read_content] builds from the file name: the stem is the
    first element of the name split at the dots; on a match of the
    date-and-slug pattern, [date] is group 1, or the epoch date when the
    group is absent or empty, and [slug] is group 2.  Without a match
    nothing is set. *)
Definition filename_params (filename : string) : outcome (gmap string value) :=
  match Path.name_parts filename with
  | [] => Raise IndexError
  | date_slug :: _ =>
      match Path.date_slug_match date_slug with
      | Some (g1, g2) =>
          let date :=
            match g1 with
            | Some d => if Str.is_empty d then "1970-01-01" else d
            | None => "1970-01-01"
            end in
          Ok {[ "date" := VStr date; "slug" := VStr g2 ]}
      | None => Ok ∅
      end
  end.

(** [x["date"]], the sort key of [make_pages].  The items come from
    [read_content], where the date went through [strptime] and so is a
    [str]. *)
Definition date_key (x : gmap string value) : outcome string :=
  match x !! "date" with
  | Some (VStr s) => Ok s
  | Some _ => Raise TypeError
  | None => Raise (KeyError "date")
  end.

Fixpoint with_date_keys (items : list (gmap string value))
  : outcome (list (string * gmap string value)) :=
  match items with
  | [] => Ok []
  | x :: items' =>
      k ← date_key x;
      rest ← with_date_keys items';
      Ok ((k, x) :: rest)
  end.

(** [list(sorted(items, key=lambda x: x["date"], reverse=True))] *)
Definition sorted_by_date (items : list (gmap string value))
  : outcome (list (gmap string value)) :=
  keyed ← with_date_keys items;
  Ok (snd <$> sorted_reverse keyed).

(** The summary of one item of [make_index]: the [summary] field, or the
    [description] field, or the truncated body, joined by Python's [or]. *)
Definition item_summary (page_dict : gmap string value) : outcome value :=
  let summary := dict_get page_dict "summary" in
  if truthy summary then Ok summary
  else
    let description := dict_get page_dict "description" in
    if truthy description then Ok description
    else
      match page_dict !! "content" with
      | None => Raise (KeyError "content")
      | Some (VStr body) => Ok (VStr (truncate body None))
      | Some _ => Raise AttributeError
      end.

(** The parameters [make_index] passes to the item layout for one page. *)
Definition item_params (site_params page_dict : gmap string value)
  : outcome (gmap string value) :=
  let item_params := page_dict ∪ site_params in
  summary ← item_summary page_dict;
  Ok (<["summary" := summary]> item_params).

Definition markdown_suffixes : list string :=
  [".md"; ".mkd"; ".mkdn"; ".mdown"; ".markdown"].

(* ===================================================================== *)
(** ** The pipeline *)
(* ===================================================================== *)

Inductive level : Type := Info | Warn | Error | Critical.

(** The libraries and the operating system the program runs on.
    - jinja2: compiled templates; [Template(text)] ([compile]), which
      returns the template or fails with the message of a
      [TemplateSyntaxError]; what the engine makes of a template and its
      parameters ([template_render]): the text, or the exception raised
      while rendering; and [get_template(name)] of the environment that
      loads from the directory [layout] ([None]: the template is not
      found).
    - [markdown.markdown] with the extension list of [render_page];
      [None] when the module cannot be imported.
    - [datetime.strptime(date_str, pat)] and [d.strftime(format)], where
      [None] stands for [ValueError]; the year of [datetime.now()].
    - The file system: reading and writing a file and creating a
      directory either succeed or fail with a message.
    - [json.loads] ([None]: the text is not a JSON object), [json.dumps],
      [str.capitalize], and [str()] of a value that is not a [str]. *)
Class Env (Template datetime fs : Type) : Type := {
  compile : string → Template + string;
  template_render : Template → gmap string value → string + exn;
  get_template : string → string → option Template;
  markdown : option (string → string);
  strptime : string → string → option datetime;
  strftime : datetime → string → option string;
  current_year : Z;
  os_read : fs → string → string + string;
  os_write : fs → string → string → fs + string;
  os_makedirs : fs → string → bool → fs + string;
  os_isfile : fs → string → bool;
  braceexpand : string → list string;
  glob : fs → string → list string;
  json_loads : string → option (gmap string value);
  json_dumps : gmap string value → string;
  capitalize : string → string;
  repr : value → string
}.

Section Pipeline.
Context {Template datetime fs : Type} `{!Env Template datetime fs}.

(** A value inside an f-string. *)
Definition fmt (v : value) : string :=
  match v with VStr s => s | _ => repr v end.

(** *** State and control *)

(** [heap] holds the mappings that are mutated through a reference,
    [disk] the file system, [console] what was logged, and [rendered]
    every call of the template engine that returned, with the parameters
    it got. *)
Record world : Type := World {
  heap : gmap nat (gmap string value);
  disk : fs;
  console : list (level * string);
  rendered : list (Template * gmap string value)
}.

Definition M (A : Type) : Type := world → outcome A * world.

#[global] Instance M_ret : MRet M := λ A a w, (Ok a, w).
#[global] Instance M_bind : MBind M := λ A B f m w,
  match m w with
  | (Ok a, w') => f a w'
  | (Raise e, w') => (Raise e, w')
  | (Exit c, w') => (Exit c, w')
  end.

Definition raise {A} (e : exn) : M A := λ w, (Raise e, w).
Definition sys_exit {A} (code : Z) : M A := λ w, (Exit code, w).

(** [try: body  except Exception as ex: handler(ex)]; [SystemExit] is not
    an [Exception] and passes through. *)
Definition try_except {A} (body : M A) (handler : exn → M A) : M A :=
  λ w, match body w with
       | (Raise e, w') => handler e w'
       | r => r
       end.

Definition lift {A} (o : outcome A) : M A := λ w, (o, w).

Definition get_disk : M fs := λ w, (Ok (disk w), w).
Definition set_disk (d : fs) : M unit :=
  λ w, (Ok tt, World (heap w) d (console w) (rendered w)).

(** References to mappings. *)
Definition alloc (d : gmap string value) : M nat :=
  λ w, let l := fresh (dom (heap w)) in
       (Ok l, World (<[l := d]> (heap w)) (disk w) (console w) (rendered w)).
Definition deref (l : nat) : M (gmap string value) :=
  λ w, (Ok (default ∅ (heap w !! l)), w).
Definition setitem (l : nat) (key : string) (v : value) : M unit :=
  λ w, (Ok tt, World (<[l := <[key := v]> (default ∅ (heap w !! l))]> (heap w))
                     (disk w) (console w) (rendered w)).

(** [d[key]] *)
Definition getitem (d : gmap string value) (key : string) : M value :=
  match d !! key with
  | Some v => mret v
  | None => raise (KeyError key)
  end.

(** *** Logging *)

Definition log (lvl : level) (msg : string) : M unit :=
  λ w, (Ok tt, World (heap w) (disk w) (console w ++ [(lvl, msg)]) (rendered w)).

Definition log_info (msg : string) : M unit := log Info ("[i] " +:+ msg).
Definition log_warn (msg : string) : M unit := log Warn ("[w] " +:+ msg).
Definition log_error (msg : string) : M unit := log Error ("[!] " +:+ msg).
Definition log_critical {A} (msg : string) : M A :=
  log Critical msg ;; sys_exit 1%Z.

(** The world after a warning. *)
Definition warned (w : world) (msg : string) : world :=
  World (heap w) (disk w) (console w ++ [(Warn, "[w] " +:+ msg)]) (rendered w).

(** [str(ex)] *)
Definition exn_str (e : exn) : string :=
  match e with
  | IndexError => "list index out of range"
  | KeyError k => "'" +:+ k +:+ "'"
  | TypeError => "TypeError"
  | AttributeError => "AttributeError"
  | ValueError => "ValueError"
  | TemplateNotFound n => n
  | TemplateSyntaxError msg => msg
  | JSONDecodeError => "JSONDecodeError"
  | OSError msg => msg
  end.

(** *** Files *)

Definition fread (filename : string) : M string :=
  d ← get_disk;
  match os_read d filename with
  | inl text => mret text
  | inr ex => log_critical ("Error reading from " +:+ filename +:+ ": " +:+ ex)
  end.

Definition fwrite (filename text : string) : M unit :=
  let basedir := Path.dirname filename in
  d ← get_disk;
  match os_makedirs d basedir true with
  | inr ex => raise (OSError ex)
  | inl d1 =>
      set_disk d1 ;;
      (if os_isfile d1 filename
       then log_warn ("Overwriting existing file " +:+ filename)
       else mret tt) ;;
      match os_write d1 filename text with
      | inl d2 => set_disk d2
      | inr ex => log_critical ("Error writing to " +:+ filename +:+ ": " +:+ ex)
      end
  end.

(** [expand_files(pattern, max_results)] *)
Definition expand_files (pattern : string) (max_results : Z) : M (list string) :=
  d ← get_disk;
  let result :=
    foldl (λ result p, result ++ filter (λ f, os_isfile d f = true) (glob d p))
          [] (braceexpand pattern) in
  mret (if (max_results =? 0)%Z then result else Text.slice_to max_results result).

(** *** Dates *)

Definition PATTERNS : list string := ["%Y-%m-%d"; "%Y%m%d"].

(** The [for pat in PATTERNS] loop: the first pattern that parses the
    date and formats it returns; [ValueError] from either call moves on
    to the next pattern.  A format that is not a [str] makes [strftime]
    raise [TypeError], which is not caught here. *)
Fixpoint format_time_loop (pats : list string) (date_str : string)
    (format : value) : outcome (option string) :=
  match pats with
  | [] => Ok None
  | pat :: pats' =>
      match strptime date_str pat with
      | Some d =>
          match format with
          | VStr f =>
              match strftime d f with
              | Some s => Ok (Some s)
              | None => format_time_loop pats' date_str format
              end
          | _ => Raise TypeError
          end
      | None => format_time_loop pats' date_str format
      end
  end.

Definition format_time (date_str : string) (format : value) : M string :=
  r ← lift (format_time_loop PATTERNS date_str format);
  match r with
  | Some s => mret s
  | None => log_warn ("Can't parse date " +:+ date_str) ;; mret EmptyString
  end.

(** *** Content reader *)

(** [format_time(content["date"], format)]: [strptime] raises
    [TypeError] on a date that is not a [str]. *)
Definition call_format_time (date format : value) : M string :=
  match date with
  | VStr date_str => format_time date_str format
  | _ => raise TypeError
  end.

Definition read_content (filename : string) (site_params : gmap string value)
  : M (option (gmap string value)) :=
  try_except
    (text ← fread filename;
     let content := site_params in
     from_name ← lift (filename_params filename);
     let content := from_name ∪ content in
     '(header, end_) ← lift (read_header text);
     let content := (VStr <$> header) ∪ content in
     let text := Str.drop end_ text in
     date ← getitem content "date";
     short_date ← call_format_time date (VStr "%Y-%m-%d");
     date ← getitem content "date";
     date_human_format ← getitem content "date_human_format";
     human_date ← call_format_time date date_human_format;
     date ← getitem content "date";
     rfc_2822_date ← call_format_time date (VStr "%a, %d %b %Y %H:%M:%S +0000");
     let content :=
       {[ "content" := VStr text;
          "short_date" := VStr short_date;
          "human_date" := VStr human_date;
          "rfc_2822_date" := VStr rfc_2822_date ]} ∪ content in
     mret (Some content))
    (λ ex, log_critical ("Unable to read contents from " +:+ filename
                         +:+ ": " +:+ exn_str ex)).

(** *** Template renderer *)

(** [Template(tpl)] when [tpl] is a [str]. *)
Definition as_template (tpl : Template + string) : M Template :=
  match tpl with
  | inl t => mret t
  | inr text =>
      match compile text with
      | inl t => mret t
      | inr msg => raise (TemplateSyntaxError msg)
      end
  end.

(** [tpl.render] on the unpacked mapping: the parameters are passed as
    keywords to a method whose first parameter is [self], so a key named
    [self] is a
    [TypeError] before the engine runs; an exception of the engine goes
    up to the caller.  A render that returns is added to the render
    log. *)
Definition render_template (tpl : Template + string)
    (params : gmap string value) : M string :=
  tpl ← as_template tpl;
  if bool_decide (is_Some (params !! "self")) then raise TypeError
  else
    match template_render tpl params with
    | inl out =>
        λ w, (Ok out,
              World (heap w) (disk w) (console w) (rendered w ++ [(tpl, params)]))
    | inr e => raise e
    end.

(** *** Page pipeline *)

Definition render_page (path : string) (site_params : gmap string value)
  : M (option (gmap string value)) :=
  files ← expand_files path 1;
  match head files with
  | None => log_info ("No files match pattern " +:+ path) ;; mret None
  | Some filename =>
      if Str.is_empty filename
      then log_info ("No files match pattern " +:+ path) ;; mret None
      else
        page_params ← read_content filename site_params;
        match page_params with
        | None => mret None
        | Some page_params =>
            if bool_decide (page_params = ∅) then mret None
            else
              content ← getitem page_params "content";
              rendered_content ←
                match content with
                | VStr text => render_template (inr text) page_params
                | _ => raise TypeError
                end;
              let page_params := <["content" := VStr rendered_content]> page_params in
              if existsb (Path.endswith filename) markdown_suffixes
              then
                match markdown with
                | Some md =>
                    mret (Some (<["content" := VStr (md rendered_content)]> page_params))
                | None =>
                    log_critical ("Cannot render Markdown in " +:+ path
                                  +:+ ": No module named 'markdown'")
                end
              else mret (Some page_params)
        end
  end.

(** *** Collection pipeline *)

(** The second half of the loop body of [make_pages]: the layout of the
    page is chosen and rendered, the destination path is rendered, and
    the output is written. *)
Definition write_page (src_path dest_path_pattern : string)
    (default_layout : Template) (jinja_env : string)
    (output_dict : gmap string value) : M unit :=
  let custom_template := dict_get output_dict "template" in
  layout ←
    (if truthy custom_template
     then match custom_template with
          | VStr name =>
              match get_template jinja_env name with
              | Some t => mret t
              | None => raise (TemplateNotFound name)
              end
          | _ => raise TypeError
          end
     else mret default_layout);
  output ← render_template (inl layout) output_dict;
  dest_path ← render_template (inr dest_path_pattern) output_dict;
  log_info ("Rendering " +:+ src_path +:+ " > " +:+ dest_path +:+ " ...") ;;
  fwrite dest_path output.

(** The [for src_path in expand_files(pattern)] loop; [items] is the
    list built so far. *)
Fixpoint make_pages_loop (files : list string) (dest_path_pattern : string)
    (default_layout : Template) (site_params : gmap string value)
    (jinja_env : string) (items : list (gmap string value))
  : M (list (gmap string value)) :=
  match files with
  | [] => mret items
  | src_path :: files' =>
      output_dict ← render_page src_path site_params;
      match output_dict with
      | None =>
          make_pages_loop files' dest_path_pattern default_layout
                          site_params jinja_env items
      | Some output_dict =>
          if bool_decide (output_dict = ∅)
          then make_pages_loop files' dest_path_pattern default_layout
                               site_params jinja_env items
          else
            let items := items ++ [output_dict] in
            write_page src_path dest_path_pattern default_layout jinja_env
                       output_dict ;;
            make_pages_loop files' dest_path_pattern default_layout
                            site_params jinja_env items
      end
  end.

Definition make_pages (pattern dest_path_pattern : string)
    (default_layout : Template) (site_params : gmap string value)
    (jinja_env : string) : M (list (gmap string value)) :=
  files ← expand_files pattern 0;
  items ← make_pages_loop files dest_path_pattern default_layout
                          site_params jinja_env [];
  lift (sorted_by_date items).

(** *** Index and feed pipeline *)

(** The [for page_dict in pages] loop.  [site_params] is a reference: the
    caller's mapping itself. *)
Fixpoint make_index_loop (pages : list (gmap string value))
    (item_layout : Template) (site_params : nat) (items : list string)
  : M (list string) :=
  match pages with
  | [] => mret items
  | page_dict :: pages' =>
      sp ← deref site_params;
      params ← lift (item_params sp page_dict);
      item ← render_template (inl item_layout) params;
      make_index_loop pages' item_layout site_params (items ++ [item])
  end.

Definition make_index (front_content : option (gmap string value))
    (pages : list (gmap string value)) (dest_path_pattern : string)
    (list_layout item_layout : Template) (site_params : nat) : M unit :=
  items ← make_index_loop pages item_layout site_params [];
  match front_content with
  | Some fc =>
      if bool_decide (fc = ∅) then mret tt
      else setitem site_params "front_content"
                   (default (VStr EmptyString) (fc !! "content"))
  | None => mret tt
  end ;;
  setitem site_params "content" (VStr (Str.join EmptyString items)) ;;
  sp ← deref site_params;
  output ← render_template (inl list_layout) sp;
  dest_path ← render_template (inr dest_path_pattern) sp;
  log_info ("Rendering " +:+ pretty (length items) +:+ " items ...") ;;
  fwrite dest_path output.

(** *** Orchestrator *)


(** The six layouts [make_site] loads. *)
Record layouts : Type := Layouts {
  page_layout : Template;
  post_layout : Template;
  list_layout : Template;
  item_layout : Template;
  feed_xml : Template;
  item_xml : Template
}.

(** [dict(dir=..., title=..., current_content_dir=meta, **site_params)]:
    a keyword given twice is a [TypeError]. *)
Definition new_dir_params (output_subdir title meta : value)
    (site_params : gmap string value) : M nat :=
  if bool_decide (is_Some (site_params !! "dir"))
     || bool_decide (is_Some (site_params !! "title"))
     || bool_decide (is_Some (site_params !! "current_content_dir"))
  then raise TypeError
  else alloc (<["dir" := output_subdir]>
              (<["title" := title]>
               (<["current_content_dir" := meta]> site_params))).

(** The body of the [for d, meta in content_dirs] loop of [make_site]. *)
Definition make_site_dir (all : bool) (layout content output : string)
    (ls : layouts) (site_params : gmap string value)
    (d : string) (meta : value) : M unit :=
  fields ← match meta with
           | VDict fields => mret fields
           | _ => raise AttributeError
           end;
  let output_subdir := assoc_get fields "slug" (VStr d) in
  let title := assoc_get fields "title" (VStr (capitalize d)) in
  log_info ("Rendering content dir " +:+ fmt title +:+ " => "
            +:+ fmt output_subdir +:+ " ...") ;;
  let generate_index := to_bool (assoc_get fields "generate_index" VNone) in
  let generate_rss := to_bool (assoc_get fields "generate_rss" VNone) in
  dir_params ← new_dir_params output_subdir title meta site_params;
  let exclusion_prefix := if all then EmptyString else "[!_]" in
  dp ← deref dir_params;
  content_pages ←
    make_pages (content +:+ "/" +:+ d +:+ "/" +:+ exclusion_prefix +:+ "*.{md,html}")
               (output +:+ "/" +:+ fmt output_subdir +:+ "/{{ slug }}/index.html")
               (post_layout ls) dp layout;
  (if generate_index
   then
     log_info "Generating index ..." ;;
     front_content ← render_page (content +:+ "/" +:+ d +:+ "/_index.{md,html}")
                                 site_params;
     match front_content with
     | Some fc =>
         if bool_decide (fc = ∅) then mret tt
         else log_info ("Found front content for " +:+ fmt title)
     | None => mret tt
     end ;;
     make_index front_content content_pages
                (output +:+ "/" +:+ fmt output_subdir +:+ "/index.html")
                (list_layout ls) (item_layout ls) dir_params
   else
     make_pages (content +:+ "/" +:+ d +:+ "/_index.{md,html}")
                (output +:+ "/" +:+ fmt output_subdir +:+ "/index.html")
                (page_layout ls) site_params layout ;;
     mret tt) ;;
  (if generate_rss
   then
     log_info "Generating RSS ..." ;;
     make_index None content_pages
                (output +:+ "/" +:+ fmt output_subdir +:+ "/rss.xml")
                (feed_xml ls) (item_xml ls) dir_params
   else mret tt).

Fixpoint make_site_dirs (all : bool) (layout content output : string)
    (ls : layouts) (site_params : gmap string value)
    (content_dirs : list (string * value)) : M unit :=
  match content_dirs with
  | [] => mret tt
  | (d, meta) :: content_dirs' =>
      make_site_dir all layout content output ls site_params d meta ;;
      make_site_dirs all layout content output ls site_params content_dirs'
  end.



End Pipeline.

(* ===================================================================== *)
(** ** Effects of a call *)
(* ===================================================================== *)

Section Effects.
Context {Template datetime fs : Type} `{!Env Template datetime fs}.

(** The call has at most written to the console: references, disk and
    render log are as they were. *)
Definition console_only (w w' : @world Template fs) : Prop :=
  heap w' = heap w ∧ disk w' = disk w ∧ rendered w' = rendered w.

(** A computation that, from any world, at most writes to the console,
    exits with code 1 if it exits, and returns a value that satisfies [Q]
    if it returns. *)
Definition contained {A} (Q : A → Prop) (m : @M Template fs A) : Prop :=
  ∀ w, ∃ o w',
    m w = (o, w') ∧ console_only w w' ∧
    (∀ c, o = Exit c → c = 1%Z) ∧
    (∀ a, o = Ok a → Q a).


(** The engine renders the template [t] with [params] and returns [out]:
    no parameter is named [self], and the engine does not raise. *)
Definition renders (t : Template) (params : gmap string value) (out : string)
  : Prop :=
  params !! "self" = None ∧ template_render t params = inl out.

(** The template a call of [render_template] works with: the template it
    is given, or the one its text compiles to. *)
Definition template_of (tpl : Template + string) (t : Template) : Prop :=
  match tpl with
  | inl t0 => t0 = t
  | inr text => compile text = inl t
  end.

(** The items of an index: for each page, in order, the parameters
    [make_index] computes from the page and the mapping [site_params], and
    the text the item layout [il] renders to with them. *)
Definition item_renders (il : Template) (site_params : gmap string value)
    (pages : list (gmap string value))
    (rs : list (gmap string value * string)) : Prop :=
  Forall2 (λ page r, item_params site_params page = Ok r.1 ∧ renders il r.1 r.2)
          pages rs.

(** The successfully rendered items of some files, each with its file, in
    the order of the files.  The files are gone through one after the
    other, each in the world the one before has left.  A file for which
    [render_page] returns nothing, or an empty mapping, gives no item.  A
    file for which [render_page] returns a page gives that page, once its
    output is written. *)
Inductive collected (dest_path_pattern : string) (default_layout : Template)
    (site_params : gmap string value) (jinja_env : string)
  : list string → @world Template fs → list (string * gmap string value)
    → @world Template fs → Prop :=
  | collected_nil w :
      collected dest_path_pattern default_layout site_params jinja_env
                [] w [] w
  | collected_skip src files w r w1 pages w' :
      render_page src site_params w = (Ok r, w1) →
      r = None ∨ r = Some ∅ →
      collected dest_path_pattern default_layout site_params jinja_env
                files w1 pages w' →
      collected dest_path_pattern default_layout site_params jinja_env
                (src :: files) w pages w'
  | collected_page src files w x w1 w2 pages w' :
      render_page src site_params w = (Ok (Some x), w1) →
      x ≠ ∅ →
      write_page src dest_path_pattern default_layout jinja_env x w1
        = (Ok tt, w2) →
      collected dest_path_pattern default_layout site_params jinja_env
                files w2 pages w' →
      collected dest_path_pattern default_layout site_params jinja_env
                (src :: files) w ((src, x) :: pages) w'.

End Effects.

(* ===================================================================== *)
(** ** A small environment to run the pipeline in *)
(* ===================================================================== *)

Module Demo.

(** A template is its text; rendering appends the slug of the
    parameters. *)
Definition render (t : string) (params : gmap string value) : string :=
  t +:+ match params !! "slug" with Some (VStr s) => s | _ => EmptyString end.

(** File names only: a pattern with a bracket matches the names that
    start with the text before the bracket and go on with a character
    other than an underscore; a pattern with a brace matches the names
    that start with the text before the brace; any other pattern matches
    itself. *)
Definition matches (pattern name : string) : bool :=
  match Str.cut "["%char pattern with
  | Some (pre, _) =>
      String.prefix pre name
      && match Str.drop (String.length pre) name with
         | String c _ => negb (Ascii.eqb c "_"%char)
         | EmptyString => false
         end
  | None =>
      match Str.cut "{"%char pattern with
      | Some (pre, _) => String.prefix pre name
      | None => String.eqb pattern name
      end
  end.

(** The disk is a list of files, each a name and a text. *)
Fixpoint lookup_file (d : list (string * string)) (name : string)
  : option string :=
  match d with
  | [] => None
  | (n, text) :: d' => if String.eqb n name then Some text else lookup_file d' name
  end.

Fixpoint write_file (d : list (string * string)) (name text : string)
  : list (string * string) :=
  match d with
  | [] => [(name, text)]
  | (n, t) :: d' =>
      if String.eqb n name then (n, text) :: d' else (n, t) :: write_file d' name text
  end.

(** A date is its text: the pattern with dashes takes the shape
    YYYY-MM-DD, the pattern without takes eight digits. *)
Definition parse_date (date_str pat : string) : option string :=
  if String.eqb pat "%Y-%m-%d"
  then (if Path.date_shaped date_str then Some date_str else None)
  else if String.eqb pat "%Y%m%d"
  then (if (String.length date_str =? 8)
           && forallb Str.isdigit (list_ascii_of_string date_str)
        then Some date_str else None)
  else None.

#[global] Instance env : Env string string (list (string * string)) := {|
  compile := λ text, inl text;
  template_render := λ t params, inl (render t params);
  get_template := λ _ name, Some name;
  markdown := Some (λ text, text);
  strptime := parse_date;
  strftime := λ d _, Some d;
  current_year := 2023%Z;
  os_read := λ d name,
    match lookup_file d name with
    | Some text => inl text
    | None => inr "No such file"
    end;
  os_write := λ d name text, inl (write_file d name text);
  os_makedirs := λ d _ _, inl d;
  os_isfile := λ d name,
    match lookup_file d name with Some _ => true | None => false end;
  braceexpand := λ pattern, [pattern];
  glob := λ d pattern, filter (λ name, matches pattern name = true) d.*1;
  json_loads := λ _, None;
  json_dumps := λ _, EmptyString;
  capitalize := λ s, s;
  repr := λ _, EmptyString
|}.

Definition first_post : string :=
  Str.join (String Str.nl EmptyString) ["---"; "title: First"; "slug: one"; "---"; "Hello"].

Definition disk0 : list (string * string) :=
  [ ("content/blog/2021-03-04-second.html", "Second");
    ("content/blog/2021-03-04-third.html", "Third");
    ("content/blog/2020-01-02-first.html", first_post);
    ("content/blog/_index.html", "Front");
    ("content/about.html", "About");
    (".md", "Hidden") ].

Definition world0 : @world string (list (string * string)) :=
  World ∅ disk0 [] [].

Definition params0 : gmap string value :=
  {[ "author" := VStr "Admin"; "date_human_format" := VStr "%d %b, %Y" ]}.

Definition layouts0 : @layouts string :=
  Layouts "page.html" "post.html" "list.html" "item.html" "feed.xml" "item.xml".

(** A directory with an index and a feed. *)
Definition blog : value :=
  VDict [("generate_index", VBool true); ("generate_rss", VStr "yes")].

(** A page, and a world in which the reference 0 holds the parameters of
    a directory. *)
Definition page0 : gmap string value :=
  {[ "content" := VStr "Body"; "slug" := VStr "note" ]}.

Definition world_ref : @world string (list (string * string)) :=
  World {[ 0 := params0 ]} disk0 [] [].

End Demo.

(* ===================================================================== *)
(** ** More sample worlds *)
(* ===================================================================== *)

Module More.

(** A page whose header gives a date that is no date. *)
Definition undated : string :=
  Str.join (String Str.nl EmptyString) ["---"; "date: someday"; "---"; "Text"].

Definition disk1 : list (string * string) :=
  [ ("notes/when.html", undated); ("notes/plain.md", "Plain *text*") ].

Definition world1 : @world string (list (string * string)) :=
  World ∅ disk1 [] [].

(** A page whose header names a field [self]. *)
Definition selfish : string :=
  Str.join (String Str.nl EmptyString) ["---"; "self: me"; "---"; "Text"].

Definition world2 : @world string (list (string * string)) :=
  World ∅ [ ("notes/self.html", selfish) ] [] [].


End More.

(* ===================================================================== *)
(** ** Sample inputs *)
(* ===================================================================== *)

Module Sample.

Definition lines (ls : list string) : string :=
  Str.join (String Str.nl EmptyString) ls.

(** A header with a repeated key, a line without a colon and an indented
    closing line. *)
Definition post : string :=
  lines ["---"; "title: Hi"; "note"; "title: Ho "; " ---"; "body"].

(** A header with an empty summary. *)
Definition empty_summary : string :=
  lines ["---"; "summary:"; "description: About"; "---"; "Body"].

(** A header that is never closed. *)
Definition unclosed : string := lines ["---"; "a: b"; "text"].

(** Two header blocks, one after the other. *)
Definition twice : string :=
  lines ["---"; "a: b"; "---"; "---"; "c: d"; "---"; "body"].

End Sample.

(* ===================================================================== *)
(** ** What the specification says, in its own words *)
(* ===================================================================== *)

(** A line reads [key: value]: some text without a colon, not empty, then
    a colon, then the remaining text; key and value are the two texts,
    trimmed. *)
Definition is_entry (line key val : string) : Prop :=
  ∃ before after,
    line = before +:+ String Str.colon after ∧
    Str.mem Str.colon before = false ∧
    before ≠ EmptyString ∧
    key = Str.strip before ∧ val = Str.strip after.

(** [key] gets [val] from the lines [body]: some line reads [key: val] and
    no later line gives a value to [key]. *)
Definition last_entry (body : list string) (key val : string) : Prop :=
  ∃ earlier line later,
    body = earlier ++ line :: later ∧
    is_entry line key val ∧
    ∀ l v, l ∈ later → ¬ is_entry l key v.

(** A token: not empty and free of white space. *)
Definition is_token (t : string) : Prop :=
  t ≠ EmptyString ∧ ∀ c, Str.mem c t = true → Str.isspace c = false.

(** A text holds a tag when a [<] is followed, anywhere later, by a [>]. *)
Definition has_tag (s : string) : Prop :=
  ∃ a b c, s = a +:+ String Text.lt (b +:+ String Text.gt c).

(** No [<] with a [>] after it. *)
Fixpoint tag_free (s : string) : bool :=
  match s with
  | EmptyString => true
  | String c s' =>
      (if Ascii.eqb c Text.lt then negb (Str.mem Text.gt s') else true)
      && tag_free s'
  end.

(** The mapping [read_content] has after its two first updates: the
    header on top of the pair from the file name, on top of the base
    parameters. *)
Definition merged (site_params from_name : gmap string value)
    (header : gmap string string) : gmap string value :=
  (VStr <$> header) ∪ (from_name ∪ site_params).

(** The mapping [read_content] returns: the body and the three dates on
    top of [content]. *)
Definition with_dates (content : gmap string value)
    (text short_date human_date rfc_2822_date : string) : gmap string value :=
  {[ "content" := VStr text;
     "short_date" := VStr short_date;
     "human_date" := VStr human_date;
     "rfc_2822_date" := VStr rfc_2822_date ]} ∪ content.

(** The stem of a file name, as [read_content] takes it: the text of the
    base name before its first dot. *)
Definition stem (filename : string) : string :=
  default EmptyString (head (Path.name_parts filename)).

(** The date of an item, the empty string when it has none. *)
Definition date_of (x : gmap string value) : string :=
  match x !! "date" with Some (VStr s) => s | _ => EmptyString end.

(** An item with a date that is a [str]. *)
Definition has_date (x : gmap string value) : Prop :=
  ∃ ds, x !! "date" = Some (VStr ds).

(** [result] is [items] sorted by decreasing date, the items of one date
    in the order they have in [items]. *)
Definition sorted_stably (result items : list (gmap string value)) : Prop :=
  result ≡ₚ items ∧
  Sorted (λ x y, String.le (date_of y) (date_of x)) result ∧
  ∀ d, filter (λ x, date_of x = d) result = filter (λ x, date_of x = d) items.

(** The mapping [make_index] leaves behind its reference and renders the
    list layout with: the front content, when one is given, and the
    joined items on top of what the mapping held. *)
Definition index_params (front_content : option (gmap string value))
    (site_params : gmap string value) (items : list string)
  : gmap string value :=
  <["content" := VStr (Str.join EmptyString items)]>
    (match front_content with
     | Some fc =>
         if bool_decide (fc = ∅) then site_params
         else <["front_content" := default (VStr EmptyString) (fc !! "content")]>
                site_params
     | None => site_params
     end).

(** The tokens of a text, joined by single spaces. *)
Definition spaced (s : string) : string := Str.join " " (Text.words s).

(** [x] may stand before [y] in a list sorted by decreasing key. *)
Definition before {A} (x y : string * A) : Prop := String.le y.1 x.1.

(** The keys [read_content] computes last. *)
Definition computed_keys : list string :=
  ["content"; "short_date"; "human_date"; "rfc_2822_date"].

(** The entry a line stores, if any. *)
Definition entry_of (line : string) : option (string * string) :=
  match header_match line with
  | Some (g1, g2) => Some (Str.strip g1, Str.strip g2)
  | None => None
  end.

(** The total length of some lines, each with its line feed. *)
Definition lines_length (ls : list string) : nat :=
  foldr (λ l n, String.length l + 1 + n) 0 ls.

(** The mapping after the loop has gone over [body]. *)
Definition stored (body : list string) (values : gmap string string)
  : gmap string string :=
  foldl (λ m l, header_store l m) values body.

(* ===================================================================== *)
(** ** Strings: lemmas *)
(* ===================================================================== *)

Module StrFacts.
Import Str.

Lemma sapp_cons a s t : String a s +:+ t = String a (s +:+ t).
Proof. reflexivity. Qed.

Lemma sapp_nil_l s : EmptyString +:+ s = s.
Proof. reflexivity. Qed.

Lemma sapp_nil_r s : s +:+ EmptyString = s.
Proof. induction s as [|a s IH]; [done|]. by rewrite sapp_cons, IH. Qed.

Lemma sapp_assoc s t u : (s +:+ t) +:+ u = s +:+ t +:+ u.
Proof. induction s as [|a s IH]; [done|]. by rewrite !sapp_cons, IH. Qed.

Lemma length_sapp s t : String.length (s +:+ t) = String.length s + String.length t.
Proof. induction s as [|a s IH]; [done|]. rewrite sapp_cons. simpl. by rewrite IH. Qed.

Lemma drop_app_length s t : drop (String.length s) (s +:+ t) = t.
Proof. induction s as [|a s IH]; [done|]. rewrite sapp_cons. simpl. done. Qed.

Lemma drop_app_plus s t n : drop (String.length s + n) (s +:+ t) = drop n t.
Proof. induction s as [|a s IH]; [done|]. rewrite sapp_cons. simpl. done. Qed.

Lemma drop_all s n : String.length s ≤ n → drop n s = EmptyString.
Proof.
  revert n. induction s as [|a s IH]; intros [|n] Hn; simpl in *; try done; try lia.
  apply IH. lia.
Qed.

Lemma is_empty_true s : is_empty s = true ↔ s = EmptyString.
Proof. destruct s; simpl; split; congruence. Qed.

Lemma is_empty_false s : is_empty s = false ↔ s ≠ EmptyString.
Proof. destruct s; simpl; split; congruence. Qed.

Lemma mem_app c s t : mem c (s +:+ t) = mem c s || mem c t.
Proof.
  induction s as [|a s IH]; [done|]. rewrite sapp_cons. simpl.
  rewrite IH. by rewrite orb_assoc.
Qed.

(** [split] never returns the empty list. *)
Lemma split_nonempty sep s : split sep s ≠ [].
Proof.
  destruct s as [|a s]; simpl; [done|].
  destruct (Ascii.eqb a sep); [done|]. by destruct (split sep s).
Qed.

(** The parts of a split do not hold the separator. *)
Lemma split_no_sep sep s : Forall (λ l, mem sep l = false) (split sep s).
Proof.
  induction s as [|a s IH]; simpl.
  - by repeat constructor.
  - destruct (Ascii.eqb a sep) eqn:Ha.
    + by constructor.
    + destruct (split sep s) as [|l ls]; [repeat constructor; simpl; by rewrite Ha|].
      inversion IH; subst. constructor; [simpl; by rewrite Ha|done].
Qed.

Lemma join_cons sep p q ps :
  join sep (p :: q :: ps) = p +:+ sep +:+ join sep (q :: ps).
Proof. reflexivity. Qed.

(** Joining the parts of a split gives the text back. *)
Lemma join_split sep s : join (String sep EmptyString) (split sep s) = s.
Proof.
  induction s as [|a s IH]; [done|]. simpl.
  destruct (Ascii.eqb a sep) eqn:Ha.
  - apply Ascii.eqb_eq in Ha as ->.
    pose proof (split_nonempty sep s) as Hne.
    destruct (split sep s) as [|l ls]; [done|].
    rewrite join_cons, IH. done.
  - pose proof (split_nonempty sep s) as Hne.
    destruct (split sep s) as [|l ls]; [done|].
    destruct ls as [|l' ls].
    + simpl in *. by rewrite IH.
    + rewrite join_cons in *. rewrite sapp_cons. by rewrite IH.
Qed.

Lemma split_app_sep sep l t :
  mem sep l = false →
  split sep (l +:+ String sep t) = l :: split sep t.
Proof.
  intros Hl. induction l as [|a l IH].
  - rewrite sapp_nil_l. simpl. by rewrite Ascii.eqb_refl.
  - simpl in Hl. apply orb_false_iff in Hl as [Ha Hl].
    rewrite sapp_cons. simpl. rewrite Ha, (IH Hl). done.
Qed.

Lemma split_no_sep_id sep l : mem sep l = false → split sep l = [l].
Proof.
  induction l as [|a l IH]; [done|]. simpl. intros [Ha Hl]%orb_false_iff.
  by rewrite Ha, (IH Hl).
Qed.

(** Splitting a join of separator-free parts gives the parts back. *)
Lemma split_join sep ls :
  ls ≠ [] → Forall (λ l, mem sep l = false) ls →
  split sep (join (String sep EmptyString) ls) = ls.
Proof.
  induction ls as [|l ls IH]; [done|]. intros _ Hall.
  inversion Hall as [|? ? Hl Hls]; subst.
  destruct ls as [|l' ls].
  - simpl. by apply split_no_sep_id.
  - rewrite join_cons, sapp_cons, sapp_nil_l.
    rewrite split_app_sep by done. f_equal. by apply IH.
Qed.

(** The join of a list cut in two. *)
Lemma join_app sep xs y ys :
  join sep (xs ++ y :: ys) =
  match ys with
  | [] => join sep (xs ++ [y])
  | _ => join sep (xs ++ [y]) +:+ sep +:+ join sep ys
  end.
Proof.
  induction xs as [|x xs IH].
  - simpl. by destruct ys.
  - destruct ys as [|y' ys]; [done|].
    change ((x :: xs) ++ y :: y' :: ys) with (x :: (xs ++ y :: y' :: ys)).
    change ((x :: xs) ++ [y]) with (x :: (xs ++ [y])).
    destruct (xs ++ y :: y' :: ys) as [|z zs] eqn:Hz; [by destruct xs|].
    destruct (xs ++ [y]) as [|z' zs'] eqn:Hz'; [by destruct xs|].
    rewrite !join_cons. rewrite IH. rewrite !sapp_assoc. done.
Qed.

End StrFacts.

(* ===================================================================== *)
(** ** Header parser: lemmas *)
(* ===================================================================== *)

Module HeaderFacts.
Import Str StrFacts.

Lemma cut_Some c s l r :
  cut c s = Some (l, r) ↔ s = l +:+ String c r ∧ mem c l = false.
Proof.
  revert l r. induction s as [|a s IH]; intros l r; simpl.
  - split; [done|]. intros [H _]. destruct l; discriminate H.
  - destruct (Ascii.eqb a c) eqn:Ha.
    + apply Ascii.eqb_eq in Ha as ->. split.
      * intros [= <- <-]. done.
      * intros [H Hl]. destruct l as [|b l].
        -- rewrite sapp_nil_l in H. by injection H as ->.
        -- rewrite sapp_cons in H. injection H as <- _.
           simpl in Hl. by rewrite Ascii.eqb_refl in Hl.
    + destruct (cut c s) as [[l' r']|] eqn:Hcut.
      * split.
        -- intros [= <- <-]. destruct (IH l' r') as [[-> Hl] _]; [done|].
           split; [done|]. simpl. by rewrite Ha.
        -- intros [H Hl]. destruct l as [|b l].
           ++ rewrite sapp_nil_l in H. injection H as -> _.
              by rewrite Ascii.eqb_refl in Ha.
           ++ rewrite sapp_cons in H. injection H as <- ->.
              simpl in Hl. rewrite Ha in Hl. simpl in Hl.
              destruct (IH l r) as [_ Hc].
              specialize (Hc (conj eq_refl Hl)). by injection Hc as -> ->.
      * split; [done|]. intros [H Hl]. destruct l as [|b l].
        -- rewrite sapp_nil_l in H. injection H as -> _.
           by rewrite Ascii.eqb_refl in Ha.
        -- rewrite sapp_cons in H. injection H as <- ->.
           simpl in Hl. rewrite Ha in Hl. simpl in Hl.
           destruct (IH l r) as [_ Hc]. by specialize (Hc (conj eq_refl Hl)).
Qed.

Lemma cut_None c s : cut c s = None ↔ mem c s = false.
Proof.
  induction s as [|a s IH]; simpl; [done|].
  destruct (Ascii.eqb a c); simpl; [done|].
  destruct (cut c s) as [[l r]|]; [|tauto].
  split; [done|]. intros H. apply IH in H. done.
Qed.

Lemma span_not_absent c s : mem c s = false → span_not c s = (s, EmptyString).
Proof.
  induction s as [|a s IH]; simpl; [done|].
  intros [Ha Hs]%orb_false_iff. by rewrite Ha, (IH Hs).
Qed.

(** On a line without a line feed the pattern splits at the first
    colon, and nothing more. *)
Lemma header_match_line line :
  mem nl line = false →
  header_match line =
  match cut colon line with
  | Some (g1, g2) => if is_empty g1 then None else Some (g1, g2)
  | None => None
  end.
Proof.
  intros Hnl. unfold header_match.
  destruct (cut colon line) as [[g1 g2]|] eqn:Hcut; [|done].
  destruct (is_empty g1); [done|].
  apply cut_Some in Hcut as [-> _].
  rewrite mem_app in Hnl. apply orb_false_iff in Hnl as [_ Hnl].
  simpl in Hnl. by rewrite (span_not_absent _ _ Hnl).
Qed.

Lemma header_store_entry line values :
  header_store line values =
  match entry_of line with
  | Some (k, v) => <[k := v]> values
  | None => values
  end.
Proof.
  unfold header_store, entry_of. by destruct (header_match line) as [[? ?]|].
Qed.

Lemma is_entry_entry_of line k v :
  mem nl line = false →
  is_entry line k v ↔ entry_of line = Some (k, v).
Proof.
  intros Hnl. unfold entry_of. rewrite (header_match_line _ Hnl). split.
  - intros (before & after & Hline & Hmem & Hne & -> & ->).
    assert (cut colon line = Some (before, after)) as ->
      by (by apply cut_Some).
    apply is_empty_false in Hne. by rewrite Hne.
  - destruct (cut colon line) as [[g1 g2]|] eqn:Hcut; [|done].
    destruct (is_empty g1) eqn:Hg1; [done|].
    intros [= <- <-]. apply cut_Some in Hcut as [Hline Hmem].
    exists g1, g2. by rewrite is_empty_false in Hg1.
Qed.

(** A line without a colon stores nothing. *)
Lemma entry_of_no_colon line : mem colon line = false → entry_of line = None.
Proof.
  intros H. unfold entry_of, header_match.
  by apply cut_None in H as ->.
Qed.

Lemma lines_length_app xs ys :
  lines_length (xs ++ ys) = lines_length xs + lines_length ys.
Proof. induction xs as [|x xs IH]; simpl; [done|]. rewrite IH. lia. Qed.

Lemma length_join_lines ls :
  ls ≠ [] →
  String.length (join (String nl EmptyString) ls) + 1 = lines_length ls.
Proof.
  induction ls as [|l ls IH]; [done|]. intros _.
  destruct ls as [|l' ls]; [simpl; lia|].
  rewrite join_cons, !length_sapp.
  change (lines_length (l :: l' :: ls))
    with (String.length l + 1 + lines_length (l' :: ls)).
  rewrite <- IH by done. simpl. lia.
Qed.

Lemma read_header_loop_closed body closing after values e :
  Forall (λ l, is_sentinel l = false) body →
  is_sentinel closing = true →
  read_header_loop (body ++ closing :: after) values e =
  Ok (stored body values, e + lines_length (body ++ [closing])).
Proof.
  intros Hbody Hc. revert values e.
  induction Hbody as [|l body Hl Hbody IH]; intros values e; simpl.
  - rewrite Hc. do 2 f_equal. lia.
  - rewrite Hl, IH. do 2 f_equal. lia.
Qed.

Lemma read_header_loop_open rest values e :
  Forall (λ l, is_sentinel l = false) rest →
  read_header_loop rest values e = Raise IndexError.
Proof.
  intros H. revert values e.
  induction H as [|l rest Hl _ IH]; intros values e; simpl; [done|].
  by rewrite Hl, IH.
Qed.

Lemma first_sentinel lines :
  Exists (λ l, is_sentinel l = true) lines →
  ∃ body closing after,
    lines = body ++ closing :: after ∧
    Forall (λ l, is_sentinel l = false) body ∧
    is_sentinel closing = true.
Proof.
  induction lines as [|l lines IH]; intros H; [by inversion H|].
  destruct (is_sentinel l) eqn:Hl.
  - exists [], l, lines. by repeat split.
  - inversion H as [? ? Hl'|? ? H']; subst; [congruence|].
    destruct (IH H') as (body & c & after & -> & Hb & Hc).
    exists (l :: body), c, after. repeat split; [|done]. by constructor.
Qed.

Lemma stored_snoc body l values :
  stored (body ++ [l]) values = header_store l (stored body values).
Proof. unfold stored. by rewrite foldl_app. Qed.

(** What the loop has stored is the last entry of each key. *)
Lemma stored_last_entry body :
  Forall (λ l, mem nl l = false) body →
  ∀ k v, stored body ∅ !! k = Some v ↔ last_entry body k v.
Proof.
  induction body as [|l body IH] using rev_ind; intros Hnl k v.
  - unfold stored. simpl. rewrite lookup_empty. split; [done|].
    intros (e & ? & ? & H & _). by destruct e.
  - apply Forall_app in Hnl as [Hbody Hl].
    inversion Hl as [|? ? Hl' _]; subst.
    rewrite stored_snoc, header_store_entry.
    destruct (entry_of l) as [[k' v']|] eqn:He.
    + destruct (decide (k' = k)) as [->|Hk].
      * rewrite lookup_insert_eq. split.
        -- intros [= ->]. exists body, l, []. split; [done|]. split.
           ++ by apply is_entry_entry_of.
           ++ intros ? ? Hin. by apply elem_of_nil in Hin.
        -- intros (earlier & line & later & Heq & Hline & Hlater).
           destruct later as [|x later _] using rev_ind.
           ++ apply app_inj_tail in Heq as [-> ->].
              apply is_entry_entry_of in Hline; [|done]. congruence.
           ++ exfalso. rewrite app_comm_cons, app_assoc in Heq.
              apply app_inj_tail in Heq as [_ <-].
              apply (Hlater l v').
              ** apply elem_of_app. right. by apply list_elem_of_singleton.
              ** by apply is_entry_entry_of.
      * rewrite lookup_insert_ne by done. rewrite (IH Hbody). split.
        -- intros (earlier & line & later & -> & Hline & Hlater).
           exists earlier, line, (later ++ [l]). split.
           { by rewrite <- app_assoc. }
           split; [done|]. intros x w [Hin|Hin]%elem_of_app.
           ++ by apply Hlater.
           ++ apply list_elem_of_singleton in Hin as ->.
              intros Hx. apply is_entry_entry_of in Hx; [|done]. congruence.
        -- intros (earlier & line & later & Heq & Hline & Hlater).
           destruct later as [|x later _] using rev_ind.
           ++ apply app_inj_tail in Heq as [-> ->].
              apply is_entry_entry_of in Hline; [|done]. congruence.
           ++ rewrite app_comm_cons, app_assoc in Heq.
              apply app_inj_tail in Heq as [-> ->].
              exists earlier, line, later. split; [done|]. split; [done|].
              intros y w Hin. apply Hlater. apply elem_of_app. by left.
    + rewrite (IH Hbody). split.
      * intros (earlier & line & later & -> & Hline & Hlater).
        exists earlier, line, (later ++ [l]). split.
        { by rewrite <- app_assoc. }
        split; [done|]. intros x w [Hin|Hin]%elem_of_app.
        -- by apply Hlater.
        -- apply list_elem_of_singleton in Hin as ->.
           intros Hx. apply is_entry_entry_of in Hx; [|done]. congruence.
      * intros (earlier & line & later & Heq & Hline & Hlater).
        destruct later as [|x later _] using rev_ind.
        -- apply app_inj_tail in Heq as [-> ->].
           apply is_entry_entry_of in Hline; [|done]. congruence.
        -- rewrite app_comm_cons, app_assoc in Heq.
           apply app_inj_tail in Heq as [-> ->].
           exists earlier, line, later. split; [done|]. split; [done|].
           intros y w Hin. apply Hlater. apply elem_of_app. by left.
Qed.

(** The text after the closing line. *)
Lemma drop_closed_header text line0 body closing after :
  split nl text = line0 :: body ++ closing :: after →
  drop (lines_length (line0 :: body ++ [closing])) text
  = join (String nl EmptyString) after.
Proof.
  intros Hsplit.
  rewrite <- (join_split nl text) at 1. rewrite Hsplit.
  change (line0 :: body ++ closing :: after)
    with ((line0 :: body) ++ closing :: after).
  change (line0 :: body ++ [closing]) with ((line0 :: body) ++ [closing]).
  rewrite join_app.
  rewrite <- length_join_lines by (by destruct body).
  destruct after as [|a after].
  - apply drop_all. lia.
  - rewrite drop_app_plus. done.
Qed.

End HeaderFacts.

(* ===================================================================== *)
(** ** Header parser: theorems *)
(* ===================================================================== *)

Section HeaderTheorems.
Import Str StrFacts HeaderFacts.

Let newline : string := String nl EmptyString.

Lemma is_sentinel_true l : is_sentinel l = true ↔ strip l = sentinel.
Proof. apply String.eqb_eq. Qed.

Lemma is_sentinel_false l : is_sentinel l = false ↔ strip l ≠ sentinel.
Proof. apply String.eqb_neq. Qed.

Lemma read_header_loop_end rest values e values' e' :
  read_header_loop rest values e = Ok (values', e') → e < e'.
Proof.
  revert values e. induction rest as [|l rest IH]; intros values e; simpl; [done|].
  destruct (is_sentinel l).
  - intros [= _ <-]. lia.
  - intros H%IH. lia.
Qed.

(** C1. A text whose first line trims to the sentinel and which has a
    later line trimming to the sentinel is parsed up to the first such
    line [closing]: every key is mapped to the value of the last line of
    the block that reads [key: value]; a line without a colon leaves the
    mapping as it is; the offset is the length of the lines up to
    [closing], each with its line feed, so that the text from the offset
    on is made of the lines after [closing].  A text whose first line
    does not trim to the sentinel gives the empty mapping and offset 0. *)
Theorem read_header_spec (text line0 : string) (lines : list string) :
  split nl text = line0 :: lines →
  (strip line0 = sentinel →
   Exists (λ l, strip l = sentinel) lines →
   ∃ body closing after values end_,
     lines = body ++ closing :: after ∧
     Forall (λ l, strip l ≠ sentinel) body ∧
     strip closing = sentinel ∧
     read_header text = Ok (values, end_) ∧
     (∀ k v, values !! k = Some v ↔ last_entry body k v) ∧
     (∀ l m, mem colon l = false → header_store l m = m) ∧
     end_ = String.length (join newline (line0 :: body ++ [closing])) + 1 ∧
     drop end_ text = join newline after)
  ∧ (strip line0 ≠ sentinel → read_header text = Ok (∅, 0)).
Proof.
  intros Hsplit. split.
  - intros H0 Hex.
    assert (Exists (λ l, is_sentinel l = true) lines) as Hex'.
    { eapply Exists_impl; [exact Hex|]. intros l. by rewrite is_sentinel_true. }
    destruct (first_sentinel _ Hex') as (body & closing & after & -> & Hb & Hc).
    exists body, closing, after, (stored body ∅),
      (lines_length (line0 :: body ++ [closing])).
    pose proof (split_no_sep nl text) as Hnl. rewrite Hsplit in Hnl.
    apply Forall_cons in Hnl as [_ Hnl]. apply Forall_app in Hnl as [Hnl _].
    split; [done|]. split.
    { eapply Forall_impl; [exact Hb|]. intros l. by rewrite is_sentinel_false. }
    split; [by apply is_sentinel_true|]. split.
    { unfold read_header. rewrite Hsplit.
      apply is_sentinel_true in H0. rewrite H0.
      rewrite read_header_loop_closed by done. do 2 f_equal. }
    split; [by apply stored_last_entry|]. split.
    { intros l m Hl. rewrite header_store_entry.
      by rewrite entry_of_no_colon. }
    split.
    { change (line0 :: body ++ [closing]) with ((line0 :: body) ++ [closing]).
      symmetry. apply length_join_lines. by destruct body. }
    by apply drop_closed_header.
  - intros H0. unfold read_header. rewrite Hsplit.
    apply is_sentinel_false in H0. by rewrite H0.
Qed.

(** C8. A text whose first line trims to the sentinel and none of whose
    later lines does makes the loop read past the last line:
    [read_header] ends with [IndexError]. *)
Theorem read_header_unclosed (text line0 : string) (lines : list string) :
  split nl text = line0 :: lines →
  strip line0 = sentinel →
  Forall (λ l, strip l ≠ sentinel) lines →
  read_header text = Raise IndexError.
Proof.
  intros Hsplit H0 Hall. unfold read_header. rewrite Hsplit.
  apply is_sentinel_true in H0. rewrite H0.
  apply read_header_loop_open.
  eapply Forall_impl; [exact Hall|]. intros l. by rewrite is_sentinel_false.
Qed.

(** C9, as amended. After a closed header block, parsing the text from
    the returned offset again gives the empty mapping and offset 0
    exactly when the line that follows the closing line, if there is
    one, does not trim to the sentinel. *)
Theorem read_header_reparse (text line0 closing : string)
    (body after : list string) :
  split nl text = line0 :: body ++ closing :: after →
  strip line0 = sentinel →
  Forall (λ l, strip l ≠ sentinel) body →
  strip closing = sentinel →
  ∃ values end_,
    read_header text = Ok (values, end_) ∧
    (read_header (drop end_ text) = Ok (∅, 0) ↔
     match after with
     | [] => True
     | next :: _ => strip next ≠ sentinel
     end).
Proof.
  intros Hsplit H0 Hb Hc.
  exists (stored body ∅), (lines_length (line0 :: body ++ [closing])).
  apply is_sentinel_true in H0, Hc.
  assert (Forall (λ l, is_sentinel l = false) body) as Hb'.
  { eapply Forall_impl; [exact Hb|]. intros l. by rewrite is_sentinel_false. }
  split.
  { unfold read_header. rewrite Hsplit, H0.
    rewrite read_header_loop_closed by done. do 2 f_equal. }
  rewrite (drop_closed_header _ _ _ _ _ Hsplit).
  destruct after as [|next after]; [done|].
  pose proof (split_no_sep nl text) as Hnl. rewrite Hsplit in Hnl.
  apply Forall_cons in Hnl as [_ Hnl]. apply Forall_app in Hnl as [_ Hnl].
  apply Forall_cons in Hnl as [_ Hnl].
  unfold read_header. rewrite split_join by done.
  rewrite <- is_sentinel_false.
  destruct (is_sentinel next) eqn:Hn; [|done].
  split; [|done]. intros H. apply read_header_loop_end in H. lia.
Qed.

Lemma read_header_spec_witness :
  (∃ body closing after values end_,
     ["title: Hi"; "note"; "title: Ho "; " ---"; "body"] = body ++ closing :: after ∧
     Forall (λ l, strip l ≠ sentinel) body ∧
     strip closing = sentinel ∧
     read_header Sample.post = Ok (values, end_) ∧
     (∀ k v, values !! k = Some v ↔ last_entry body k v) ∧
     (∀ l m, mem colon l = false → header_store l m = m) ∧
     end_ = String.length (join newline ("---" :: body ++ [closing])) + 1 ∧
     drop end_ Sample.post = join newline after)
  ∧ read_header "no header here" = Ok (∅, 0).
Proof.
  split.
  - apply (proj1 (read_header_spec Sample.post "---"
                    ["title: Hi"; "note"; "title: Ho "; " ---"; "body"] eq_refl)).
    + reflexivity.
    + do 3 apply Exists_cons_tl. apply Exists_cons_hd. reflexivity.
  - apply (proj2 (read_header_spec "no header here" "no header here" [] eq_refl)).
    vm_compute. discriminate.
Defined.

Lemma read_header_unclosed_witness :
  read_header Sample.unclosed = Raise IndexError.
Proof.
  apply (read_header_unclosed Sample.unclosed "---" ["a: b"; "text"]).
  - reflexivity.
  - reflexivity.
  - repeat constructor; vm_compute; discriminate.
Defined.

(** C9, as stated, fails on a text with two header blocks in a row: the
    text after the first block starts with a sentinel line, and parsing it
    finds the second block. *)
Lemma read_header_reparse_counterexample :
  ∃ values end_,
    read_header Sample.twice = Ok (values, end_) ∧
    read_header (drop end_ Sample.twice) ≠ Ok (∅, 0).
Proof.
  exists {[ "a" := "b" ]}, 13. split.
  - vm_compute. reflexivity.
  - vm_compute. intros [= _ H].
Qed.

Lemma read_header_reparse_witness :
  ∃ values end_,
    read_header Sample.post = Ok (values, end_) ∧
    (read_header (drop end_ Sample.post) = Ok (∅, 0) ↔ strip "body" ≠ sentinel).
Proof.
  apply (read_header_reparse Sample.post "---" " ---"
           ["title: Hi"; "note"; "title: Ho "] ["body"]).
  - reflexivity.
  - reflexivity.
  - repeat constructor; vm_compute; discriminate.
  - reflexivity.
Defined.

End HeaderTheorems.

(* ===================================================================== *)
(** ** Truncation: lemmas and theorem *)
(* ===================================================================== *)

Module TextFacts.
Import Str StrFacts Text.
#[local] Arguments Ascii.eqb : simpl never.

Lemma mem_replace_other c a b s :
  c ≠ b → mem c s = false → mem c (replace a b s) = false.
Proof.
  intros Hcb. induction s as [|x s IH]; simpl; [done|].
  intros [Hx Hs]%orb_false_iff. rewrite (IH Hs), orb_false_r.
  destruct (Ascii.eqb x a); [|done].
  apply Ascii.eqb_neq. congruence.
Qed.

Lemma mem_replace_gone a b s : a ≠ b → mem a (replace a b s) = false.
Proof.
  intros Hab. induction s as [|x s IH]; simpl; [done|].
  rewrite IH, orb_false_r.
  destruct (Ascii.eqb x a) eqn:Hx; [|done].
  apply Ascii.eqb_neq. congruence.
Qed.

Lemma mem_sub_tags c b s :
  c ≠ space → mem c s = false → mem c (sub_tags b s) = false.
Proof.
  intros Hc. revert b. induction s as [|x s IH]; intros b; simpl; [done|].
  intros [Hx Hs]%orb_false_iff. destruct b.
  - by apply IH.
  - destruct (Ascii.eqb x lt && mem gt s); simpl.
    + rewrite (IH _ Hs), orb_false_r. apply Ascii.eqb_neq. congruence.
    + by rewrite Hx, (IH _ Hs).
Qed.

(** After the substitution no [<] is followed by a [>]. *)
Lemma tag_free_sub_tags b s : tag_free (sub_tags b s) = true.
Proof.
  revert b. induction s as [|x s IH]; intros b; simpl; [done|].
  destruct b; [by apply IH|].
  destruct (Ascii.eqb x lt) eqn:Hx; simpl.
  - destruct (mem gt s) eqn:Hgt; simpl.
    + by apply IH.
    + rewrite Hx, IH, andb_true_r.
      rewrite mem_sub_tags; [done| |done]. by vm_compute.
  - by rewrite Hx, IH.
Qed.

Lemma tag_free_no_tag s : tag_free s = true → ¬ has_tag s.
Proof.
  intros Hs (a & b & c & ->). induction a as [|x a IH].
  - rewrite sapp_nil_l in Hs. simpl in Hs.
    rewrite mem_app in Hs. simpl in Hs.
    rewrite ?Ascii.eqb_refl, orb_true_r in Hs. done.
  - rewrite sapp_cons in Hs. simpl in Hs.
    apply andb_true_iff in Hs as [_ Hs]. by apply IH.
Qed.

Lemma tag_free_app_l s t : tag_free (s +:+ t) = true → tag_free s = true.
Proof.
  induction s as [|x s IH]; [done|]. rewrite sapp_cons. simpl.
  intros [Hx Hs]%andb_true_iff. rewrite (IH Hs), andb_true_r.
  destruct (Ascii.eqb x lt); [|done].
  rewrite mem_app in Hx. by destruct (mem gt s).
Qed.

Lemma mem_app_l c s t : mem c (s +:+ t) = false → mem c s = false.
Proof. rewrite mem_app. by intros [? ?]%orb_false_iff. Qed.

(** The join of the first tokens starts the join of all of them. *)
Lemma join_take_prefix sep n (ws : list string) :
  ∃ rest, join sep ws = join sep (take n ws) +:+ rest.
Proof.
  revert n. induction ws as [|w ws IH]; intros n.
  - exists EmptyString. by destruct n.
  - destruct n as [|n].
    + by exists (join sep (w :: ws)).
    + destruct (IH n) as [rest Hrest]. simpl take.
      destruct ws as [|w' ws].
      * exists EmptyString. destruct n; simpl; by rewrite sapp_nil_r.
      * destruct n as [|n].
        -- exists (sep +:+ join sep (w' :: ws)). by rewrite join_cons.
        -- exists rest. simpl take in *. rewrite !join_cons.
           rewrite Hrest. by rewrite !sapp_assoc.
Qed.

Lemma words_tokens s : Forall is_token (words s).
Proof.
  induction s as [|x s IH]; simpl; [constructor|].
  destruct (isspace x) eqn:Hx; [done|].
  assert (is_token (String x EmptyString)) as Hone.
  { split; [done|]. intros c. simpl. rewrite orb_false_r.
    intros ->%Ascii.eqb_eq. done. }
  destruct (starts_word s).
  - destruct (words s) as [|w ws]; [by constructor|].
    apply Forall_cons in IH as [[Hw1 Hw2] Hws]. constructor; [|done].
    split; [done|]. intros c. simpl.
    intros [->%Ascii.eqb_eq|Hc]%orb_true_iff; [done|by apply Hw2].
  - by constructor.
Qed.

Lemma spaced_cons x s :
  spaced (String x s) =
  if isspace x then spaced s
  else if starts_word s
       then String x (spaced s)
       else match words s with
            | [] => String x EmptyString
            | _ => String x (String space (spaced s))
            end.
Proof.
  unfold spaced. simpl. destruct (isspace x); [done|].
  destruct (starts_word s) eqn:Hs.
  - destruct (words s) as [|w ws] eqn:Hw.
    + destruct s as [|y s]; [done|]. simpl in Hs, Hw.
      destruct (isspace y); [done|]. simpl in Hw.
      destruct (starts_word s); [by destruct (words s)|done].
    + destruct ws; [done|]. by rewrite !join_cons.
  - by destruct (words s).
Qed.

Lemma mem_spaced c s : c ≠ space → mem c s = false → mem c (spaced s) = false.
Proof.
  intros Hc. induction s as [|x s IH]; [done|].
  simpl. intros [Hx Hs]%orb_false_iff. rewrite spaced_cons.
  assert (Ascii.eqb space c = false) as Hsp by (apply Ascii.eqb_neq; congruence).
  destruct (isspace x); [by apply IH|].
  destruct (starts_word s); [simpl; by rewrite Hx, IH|].
  destruct (words s); simpl; [by rewrite Hx|].
  by rewrite Hx, Hsp, IH.
Qed.

Lemma tag_free_spaced s : tag_free s = true → tag_free (spaced s) = true.
Proof.
  induction s as [|x s IH]; [done|]. simpl.
  intros [Hx Hs]%andb_true_iff. rewrite spaced_cons.
  destruct (isspace x); [by apply IH|].
  assert (gt ≠ space) as Hgs by (by vm_compute).
  assert ((if Ascii.eqb x lt then negb (mem gt (spaced s)) else true) = true) as Hx'.
  { destruct (Ascii.eqb x lt); [|done].
    apply negb_true_iff in Hx. by rewrite mem_spaced. }
  destruct (starts_word s); [simpl; by rewrite Hx', IH|].
  destruct (words s); simpl; [by destruct (Ascii.eqb x lt)|].
  rewrite IH by done. rewrite andb_true_r.
  destruct (Ascii.eqb x lt); [|done]. simpl.
  apply negb_true_iff in Hx'. by rewrite Hx'.
Qed.

Lemma token_no_space t : is_token t → mem space t = false.
Proof.
  intros [_ H]. destruct (mem space t) eqn:Hm; [|done].
  apply H in Hm. by vm_compute in Hm.
Qed.

End TextFacts.

Section TruncateTheorems.
Import Str StrFacts Text TextFacts.

(** C5. For a word limit [n >= 0], [truncate] returns the first [n]
    tokens of the text (all of them when there are fewer), joined by
    single spaces, where the tokens are those of the text with its double
    quotes turned into single quotes and its tags taken out; the result
    holds no double quote and no tag, and splitting it at the spaces
    gives the tokens back.  Left out, the word limit is 25. *)
Theorem truncate_spec (text : string) (n : Z) :
  (0 ≤ n)%Z →
  let plain :=
    sub_tags false (replace nl space (replace dquote squote text)) in
  (∃ tokens,
     truncate text (Some n) = join " " tokens ∧
     tokens = take (Z.to_nat n) (words plain) ∧
     length tokens = Nat.min (Z.to_nat n) (length (words plain)) ∧
     Forall is_token tokens ∧
     (tokens ≠ [] → split space (truncate text (Some n)) = tokens)) ∧
  mem dquote (truncate text (Some n)) = false ∧
  ¬ has_tag plain ∧
  ¬ has_tag (truncate text (Some n)) ∧
  truncate text None = truncate text (Some 25%Z).
Proof.
  intros Hn plain.
  assert (truncate text (Some n) = join " " (take (Z.to_nat n) (words plain))) as Ht.
  { unfold truncate, slice_to. simpl default.
    destruct (0 <=? n)%Z eqn:Hle; [done|]. apply Z.leb_gt in Hle. lia. }
  assert (Forall is_token (take (Z.to_nat n) (words plain))) as Htok.
  { apply Forall_take, words_tokens. }
  destruct (join_take_prefix " " (Z.to_nat n) (words plain)) as [rest Hrest].
  fold (spaced plain) in Hrest.
  split; [|split; [|split; [|split]]].
  - exists (take (Z.to_nat n) (words plain)).
    split; [done|]. split; [done|]. split; [apply length_take|].
    split; [done|]. intros Hne. rewrite Ht.
    apply (split_join space); [done|].
    eapply Forall_impl; [exact Htok|]. apply token_no_space.
  - rewrite Ht. apply (mem_app_l _ _ rest). rewrite <- Hrest.
    apply mem_spaced; [by vm_compute|].
    apply mem_sub_tags; [by vm_compute|].
    apply mem_replace_other; [by vm_compute|].
    apply mem_replace_gone. by vm_compute.
  - apply tag_free_no_tag, tag_free_sub_tags.
  - rewrite Ht. apply tag_free_no_tag.
    apply (tag_free_app_l _ rest). rewrite <- Hrest.
    apply tag_free_spaced, tag_free_sub_tags.
  - reflexivity.
Qed.

Lemma truncate_spec_witness :
  truncate "<p>one <b>two</b> three four</p>" (Some 3%Z) = "one two three" ∧
  truncate "a b" (Some 3%Z) = "a b".
Proof.
  split.
  - destruct (truncate_spec "<p>one <b>two</b> three four</p>" 3)
      as [(tokens & -> & -> & _) _]; [lia|]. reflexivity.
  - destruct (truncate_spec "a b" 3) as [(tokens & -> & -> & _) _]; [lia|].
    reflexivity.
Defined.

End TruncateTheorems.

(* ===================================================================== *)
(** ** The stable sort: lemmas *)
(* ===================================================================== *)

Module SortFacts.

Section Keyed.
Context {A : Type}.
Implicit Types (x y : string * A) (l : list (string * A)).

Lemma leb_false_le (s t : string) : String.leb s t = false → String.le t s.
Proof.
  intros H. destruct (total String.le t s) as [Hts|Hst]; [done|].
  unfold String.le in Hst. rewrite H in Hst. done.
Qed.

Lemma insert_desc_perm x l : Permutation (insert_desc x l) (x :: l).
Proof.
  induction l as [|y l IH]; simpl; [done|].
  destruct (String.leb y.1 x.1); [done|].
  rewrite IH. apply perm_swap.
Qed.

Lemma sorted_reverse_perm l : Permutation (sorted_reverse l) l.
Proof.
  induction l as [|x l IH]; simpl; [done|].
  unfold sorted_reverse in *. simpl. rewrite insert_desc_perm. by constructor.
Qed.

Lemma insert_desc_hd x y l :
  before y x → HdRel before y l → HdRel before y (insert_desc x l).
Proof.
  intros Hyx Hl. destruct l as [|z l]; simpl; [by constructor|].
  destruct (String.leb z.1 x.1); constructor; [done|]. by inversion Hl.
Qed.

Lemma insert_desc_sorted x l :
  Sorted before l → Sorted before (insert_desc x l).
Proof.
  induction l as [|y l IH]; simpl; intros Hs.
  - repeat constructor.
  - destruct (String.leb y.1 x.1) eqn:Hle.
    + constructor; [done|]. constructor. unfold before, String.le.
      by rewrite Hle.
    + inversion Hs as [|? ? Hs' Hhd]; subst. constructor; [by apply IH|].
      apply insert_desc_hd; [|done]. by apply leb_false_le.
Qed.

Lemma sorted_reverse_sorted l : Sorted before (sorted_reverse l).
Proof.
  induction l as [|x l IH]; [constructor|].
  unfold sorted_reverse in *. simpl. by apply insert_desc_sorted.
Qed.

(** Inserting keeps the order of the elements of each key: the new
    element goes in front of those with its own key. *)
Lemma insert_desc_filter x l d :
  filter (λ p, p.1 = d) (insert_desc x l) = filter (λ p, p.1 = d) (x :: l).
Proof.
  induction l as [|y l IH]; simpl; [done|].
  destruct (String.leb y.1 x.1) eqn:Hle; [done|].
  assert (y.1 ≠ x.1) as Hne.
  { intros Heq. rewrite Heq in Hle.
    pose proof (reflexivity (R := String.le) x.1) as Hr.
    unfold String.le in Hr. by rewrite Hle in Hr. }
  rewrite !filter_cons, IH, !filter_cons.
  destruct (decide (y.1 = d)) as [Hy|Hy], (decide (x.1 = d)) as [Hx|Hx];
    try done. congruence.
Qed.

Lemma sorted_reverse_stable l d :
  filter (λ p, p.1 = d) (sorted_reverse l) = filter (λ p, p.1 = d) l.
Proof.
  induction l as [|x l IH]; [done|].
  unfold sorted_reverse in *. simpl. rewrite insert_desc_filter.
  rewrite !filter_cons. by rewrite IH.
Qed.

End Keyed.

End SortFacts.

(* ===================================================================== *)
(** ** Running the pipeline: lemmas *)
(* ===================================================================== *)

Section RunFacts.
Context {Template datetime fs : Type} `{!Env Template datetime fs}.
#[local] Abbreviation world := (@world Template fs).
#[local] Abbreviation M := (@M Template fs).

Lemma run_bind {A B} (m : M A) (f : A → M B) (w : world) :
  (m ≫= f) w =
  match m w with
  | (Ok a, w') => f a w'
  | (Raise e, w') => (Raise e, w')
  | (Exit c, w') => (Exit c, w')
  end.
Proof. reflexivity. Qed.

Lemma run_bind_ok {A B} (m : M A) (f : A → M B) w a w' :
  m w = (Ok a, w') → (m ≫= f) w = f a w'.
Proof. intros Hm. by rewrite run_bind, Hm. Qed.

(** A call that returns has gone through each of its two halves. *)
Lemma run_bind_inv {A B} (m : M A) (f : A → M B) w b w' :
  (m ≫= f) w = (Ok b, w') →
  ∃ a w1, m w = (Ok a, w1) ∧ f a w1 = (Ok b, w').
Proof.
  rewrite run_bind. destruct (m w) as [[a|e|c] w1]; [|done..].
  intros Hf. by exists a, w1.
Qed.

Lemma run_ret {A} (a : A) (w : world) : (mret a : M A) w = (Ok a, w).
Proof. reflexivity. Qed.

Lemma run_lift {A} (o : outcome A) (w : world) : lift o w = (o, w).
Proof. reflexivity. Qed.

Lemma log_critical_exits {A} msg (w : world) :
  ∃ w', log_critical (A := A) msg w = (Exit 1%Z, w').
Proof. by eexists. Qed.

(** The handlers of the program end in [log_critical]: a call that
    returns did so in the body. *)
Lemma try_except_critical_inv {A} (body : M A) (msg : exn → string) w a w' :
  try_except body (λ ex, log_critical (msg ex)) w = (Ok a, w') →
  body w = (Ok a, w').
Proof.
  unfold try_except. destruct (body w) as [[a'|e|c] w1]; [done| |done].
  destruct (log_critical_exits (A := A) (msg e) w1) as [w2 ->]. done.
Qed.

Lemma getitem_ok (d : gmap string value) key v (w : world) :
  d !! key = Some v → getitem d key w = (Ok v, w).
Proof. intros Hd. unfold getitem. by rewrite Hd. Qed.

Lemma getitem_inv (d : gmap string value) key v (w w' : world) :
  getitem d key w = (Ok v, w') → d !! key = Some v ∧ w' = w.
Proof.
  unfold getitem. destruct (d !! key); [|done]. by intros [= -> ->].
Qed.

Lemma format_time_run date_str format w :
  format_time date_str format w =
  match format_time_loop PATTERNS date_str format with
  | Ok (Some s) => (Ok s, w)
  | Ok None => (Ok EmptyString, warned w ("Can't parse date " +:+ date_str))
  | Raise e => (Raise e, w)
  | Exit c => (Exit c, w)
  end.
Proof.
  unfold format_time. rewrite run_bind, run_lift.
  by destruct (format_time_loop PATTERNS date_str format) as [[s|]|e|c].
Qed.

(** [format_time] on a format that is a [str] always returns, and touches
    nothing but the console. *)
Lemma format_time_str date_str f w :
  ∃ out w', format_time date_str (VStr f) w = (Ok out, w') ∧
            heap w' = heap w ∧ disk w' = disk w ∧ rendered w' = rendered w.
Proof.
  rewrite format_time_run.
  assert (∃ r, format_time_loop PATTERNS date_str (VStr f) = Ok r) as [r ->].
  { induction PATTERNS as [|pat pats IH]; simpl; [by eexists|].
    destruct (strptime date_str pat); [|done].
    destruct (strftime _ f); [by eexists|done]. }
  destruct r; by eexists _, _.
Qed.

End RunFacts.

Section FormatTimeTheorem.
Context {Template datetime fs : Type} `{!Env Template datetime fs}.
#[local] Abbreviation world := (@world Template fs).
#[local] Abbreviation M := (@M Template fs).

(** C7. The two input patterns are YYYY-MM-DD, written [%Y-%m-%d], and
    YYYYMMDD, written [%Y%m%d]; a date matches a pattern when [strptime]
    accepts it under that pattern.  A date that matches the first
    pattern comes back reformatted, and so does a date that matches the
    second and not the first; nothing is logged.  A date that matches
    neither comes back as the empty string, with one warning, whatever
    the format.  A call that returns a text and logs nothing has parsed
    the date under one of the two patterns.  In every case the call
    returns and touches nothing but the console: the build goes on. *)
Theorem format_time_spec (date_str f : string) (format : value) (w : world) :
  (∀ d out,
     strptime date_str "%Y-%m-%d" = Some d → strftime d f = Some out →
     format_time date_str (VStr f) w = (Ok out, w))
  ∧
  (∀ d out,
     strptime date_str "%Y-%m-%d" = None →
     strptime date_str "%Y%m%d" = Some d → strftime d f = Some out →
     format_time date_str (VStr f) w = (Ok out, w))
  ∧
  (strptime date_str "%Y-%m-%d" = None →
   strptime date_str "%Y%m%d" = None →
   format_time date_str format w =
   (Ok EmptyString, warned w ("Can't parse date " +:+ date_str)))
  ∧
  (∃ out w',
     format_time date_str (VStr f) w = (Ok out, w') ∧
     ((w' = w ∧
       ∃ d, (strptime date_str "%Y-%m-%d" = Some d
             ∨ strptime date_str "%Y%m%d" = Some d) ∧
            strftime d f = Some out)
      ∨ (w' = warned w ("Can't parse date " +:+ date_str)
         ∧ out = EmptyString))).
Proof.
  rewrite !format_time_run. unfold PATTERNS. simpl.
  split; [|split; [|split]].
  - intros d out Hd Hout. by rewrite Hd, Hout.
  - intros d out Hnone Hd Hout. by rewrite Hnone, Hd, Hout.
  - intros H1 H2. by rewrite H1, H2.
  - destruct (strptime date_str "%Y-%m-%d") as [d1|] eqn:H1.
    + destruct (strftime d1 f) as [out|] eqn:Hout1.
      { exists out, w. split; [done|]. left. split; [done|].
        exists d1. split; [by left|done]. }
      destruct (strptime date_str "%Y%m%d") as [d2|] eqn:H2.
      * destruct (strftime d2 f) as [out|] eqn:Hout2.
        { exists out, w. split; [done|]. left. split; [done|].
          exists d2. split; [by right|done]. }
        eexists _, _. split; [done|]. by right.
      * eexists _, _. split; [done|]. by right.
    + destruct (strptime date_str "%Y%m%d") as [d2|] eqn:H2.
      * destruct (strftime d2 f) as [out|] eqn:Hout2.
        { exists out, w. split; [done|]. left. split; [done|].
          exists d2. split; [by right|done]. }
        eexists _, _. split; [done|]. by right.
      * eexists _, _. split; [done|]. by right.
Qed.

End FormatTimeTheorem.

Lemma format_time_spec_witness :
  format_time "2020-01-02" (VStr "%d %b, %Y") Demo.world0
    = (Ok "2020-01-02", Demo.world0)
  ∧ format_time "20200102" (VStr "%d %b, %Y") Demo.world0
    = (Ok "20200102", Demo.world0)
  ∧ format_time "tomorrow" VNone Demo.world0
    = (Ok EmptyString, warned Demo.world0 "Can't parse date tomorrow").
Proof.
  split; [|split].
  - apply (proj1 (format_time_spec "2020-01-02" "%d %b, %Y" VNone Demo.world0)
             "2020-01-02" "2020-01-02"); reflexivity.
  - apply (proj1 (proj2 (format_time_spec "20200102" "%d %b, %Y" VNone
                           Demo.world0))
             "20200102" "20200102"); reflexivity.
  - apply (proj1 (proj2 (proj2 (format_time_spec "tomorrow" EmptyString VNone
                                  Demo.world0)))); reflexivity.
Defined.

Section ReadContentFacts.
Context {Template datetime fs : Type} `{!Env Template datetime fs}.
#[local] Abbreviation world := (@world Template fs).
#[local] Abbreviation M := (@M Template fs).

Lemma fread_ok filename text w :
  os_read (disk w) filename = inl text → fread filename w = (Ok text, w).
Proof. intros Hr. unfold fread. rewrite run_bind. simpl. by rewrite Hr. Qed.

Lemma fread_inv filename text w w' :
  fread filename w = (Ok text, w') →
  os_read (disk w) filename = inl text ∧ w' = w.
Proof.
  unfold fread. rewrite run_bind. simpl.
  destruct (os_read (disk w) filename) as [t|ex]; [by intros [= -> ->]|done].
Qed.

Lemma call_format_time_inv date format out w w' :
  call_format_time date format w = (Ok out, w') →
  ∃ ds, date = VStr ds ∧
        heap w' = heap w ∧ disk w' = disk w ∧ rendered w' = rendered w.
Proof.
  destruct date as [| | |ds| |]; try done. simpl. rewrite format_time_run.
  intros Hf. exists ds. split; [done|].
  destruct (format_time_loop PATTERNS ds format) as [[s|]|e|c];
    by simplify_eq.
Qed.

(** When the file can be read, its header is closed, and the merged
    mapping has a [date] and a [date_human_format] that are [str],
    [read_content] returns the merged mapping with the body and the three
    dates on top. *)
Lemma read_content_returns filename site_params w text from_name header e ds hf :
  os_read (disk w) filename = inl text →
  filename_params filename = Ok from_name →
  read_header text = Ok (header, e) →
  merged site_params from_name header !! "date" = Some (VStr ds) →
  merged site_params from_name header !! "date_human_format" = Some (VStr hf) →
  ∃ short human rfc w',
    read_content filename site_params w =
    (Ok (Some (with_dates (merged site_params from_name header)
                          (Str.drop e text) short human rfc)), w') ∧
    heap w' = heap w ∧ disk w' = disk w ∧ rendered w' = rendered w.
Proof.
  intros Hread Hname Hheader Hdate Hhf.
  destruct (format_time_str ds "%Y-%m-%d" w)
    as (short & w1 & H1 & Hh1 & Hd1 & Hr1).
  destruct (format_time_str ds hf w1) as (human & w2 & H2 & Hh2 & Hd2 & Hr2).
  destruct (format_time_str ds "%a, %d %b %Y %H:%M:%S +0000" w2)
    as (rfc & w3 & H3 & Hh3 & Hd3 & Hr3).
  exists short, human, rfc, w3. split; [|by rewrite Hh3, Hh2, Hd3, Hd2, Hr3, Hr2].
  unfold read_content, try_except.
  erewrite run_bind_ok; [|by apply fread_ok].
  erewrite run_bind_ok; [|by rewrite run_lift, Hname].
  erewrite run_bind_ok; [|by rewrite run_lift, Hheader].
  cbv beta iota. fold (merged site_params from_name header).
  erewrite run_bind_ok; [|by apply getitem_ok].
  erewrite run_bind_ok; [|exact H1].
  erewrite run_bind_ok; [|by apply getitem_ok].
  erewrite run_bind_ok; [|by apply getitem_ok].
  erewrite run_bind_ok; [|exact H2].
  erewrite run_bind_ok; [|by apply getitem_ok].
  erewrite run_bind_ok; [|exact H3].
  reflexivity.
Qed.

(** A call of [read_content] that returns went this way. *)
Lemma read_content_inv filename site_params w r w' :
  read_content filename site_params w = (Ok r, w') →
  ∃ text from_name header e ds short human rfc,
    os_read (disk w) filename = inl text ∧
    filename_params filename = Ok from_name ∧
    read_header text = Ok (header, e) ∧
    merged site_params from_name header !! "date" = Some (VStr ds) ∧
    r = Some (with_dates (merged site_params from_name header)
                         (Str.drop e text) short human rfc) ∧
    heap w' = heap w ∧ disk w' = disk w ∧ rendered w' = rendered w.
Proof.
  unfold read_content. intros Hrun%try_except_critical_inv.
  apply run_bind_inv in Hrun as (text & wa & [Hread Hwa]%fread_inv & Hrun).
  apply run_bind_inv in Hrun as (from_name & wb & Hname & Hrun).
  rewrite run_lift in Hname. injection Hname as Hname Hwb.
  apply run_bind_inv in Hrun as ([header e] & wc & Hheader & Hrun).
  rewrite run_lift in Hheader. injection Hheader as Hheader Hwc.
  cbv beta iota in Hrun. fold (merged site_params from_name header) in Hrun.
  apply run_bind_inv in Hrun as (date & wd & [Hdate Hwd]%getitem_inv & Hrun).
  apply run_bind_inv in Hrun as (short & w1 & Hf1 & Hrun).
  apply call_format_time_inv in Hf1 as (ds & -> & Hh1 & Hd1 & Hr1).
  apply run_bind_inv in Hrun as (date2 & we & [_ Hwe]%getitem_inv & Hrun).
  apply run_bind_inv in Hrun as (hf & wf & [_ Hwf]%getitem_inv & Hrun).
  apply run_bind_inv in Hrun as (human & w2 & Hf2 & Hrun).
  apply call_format_time_inv in Hf2 as (? & _ & Hh2 & Hd2 & Hr2).
  apply run_bind_inv in Hrun as (date3 & wg & [_ Hwg]%getitem_inv & Hrun).
  apply run_bind_inv in Hrun as (rfc & w3 & Hf3 & Hrun).
  apply call_format_time_inv in Hf3 as (? & _ & Hh3 & Hd3 & Hr3).
  rewrite run_ret in Hrun. injection Hrun as Hr Hw'.
  exists text, from_name, header, e, ds, short, human, rfc.
  subst. repeat split; try done; congruence.
Qed.

End ReadContentFacts.

(* ===================================================================== *)
(** ** Date and slug of a file name: lemmas *)
(* ===================================================================== *)

Module PathFacts.
Import Str StrFacts HeaderFacts Path.

Lemma date_prefix_intro d r :
  date_shaped d = true → date_prefix (d +:+ String dash r) = Some (d, r).
Proof.
  intros Hd.
  do 10 (destruct d as [|? d]; [discriminate Hd|]).
  destruct d; [|discriminate Hd].
  unfold date_prefix. rewrite !sapp_cons, sapp_nil_l.
  cbv beta iota zeta. rewrite Hd. by rewrite Ascii.eqb_refl.
Qed.

Lemma date_prefix_inv s d r :
  date_prefix s = Some (d, r) →
  s = d +:+ String dash r ∧ date_shaped d = true.
Proof.
  unfold date_prefix.
  do 11 (destruct s as [|? s]; [discriminate|]).
  cbv beta iota zeta.
  match goal with |- context [date_shaped ?x] => destruct (date_shaped x) eqn:Hd end;
    [|discriminate].
  match goal with |- context [Ascii.eqb ?x dash] => destruct (Ascii.eqb x dash) eqn:Hx end;
    [|discriminate].
  apply Ascii.eqb_eq in Hx as ->. simpl andb. intros [= <- <-]. done.
Qed.

Lemma date_shaped_length d : date_shaped d = true → String.length d = 10.
Proof.
  intros Hd. do 10 (destruct d as [|? d]; [discriminate Hd|]).
  by destruct d.
Qed.

Lemma date_shaped_nonempty d : date_shaped d = true → d ≠ EmptyString.
Proof. by destruct d. Qed.

Lemma rest_of_line_plain s :
  s ≠ EmptyString → mem nl s = false → rest_of_line s = Some s.
Proof.
  intros Hs Hnl. unfold rest_of_line. rewrite (span_not_absent _ _ Hnl).
  apply is_empty_false in Hs. by rewrite Hs.
Qed.

Lemma rest_of_line_empty : rest_of_line EmptyString = None.
Proof. reflexivity. Qed.

(** A stem that starts with a date and a dash and goes on. *)
Lemma date_slug_match_dated d slug :
  date_shaped d = true → slug ≠ EmptyString →
  mem nl (d +:+ String dash slug) = false →
  date_slug_match (d +:+ String dash slug) = Some (Some d, slug).
Proof.
  intros Hd Hslug Hnl. unfold date_slug_match.
  rewrite (date_prefix_intro _ _ Hd).
  rewrite mem_app in Hnl. apply orb_false_iff in Hnl as [_ Hnl].
  simpl in Hnl. by rewrite rest_of_line_plain.
Qed.

(** A stem that does not. *)
Lemma date_slug_match_plain s :
  s ≠ EmptyString → mem nl s = false →
  (∀ d slug, s = d +:+ String dash slug → date_shaped d = true →
             slug = EmptyString) →
  date_slug_match s = Some (None, s).
Proof.
  intros Hs Hnl Hno. unfold date_slug_match.
  rewrite (rest_of_line_plain _ Hs Hnl).
  destruct (date_prefix s) as [[d r]|] eqn:Hp; [|done].
  apply date_prefix_inv in Hp as [Heq Hd].
  rewrite (Hno d r Heq Hd). by rewrite rest_of_line_empty.
Qed.

Lemma name_parts_stem filename :
  ∃ rest, name_parts filename = stem filename :: rest.
Proof.
  unfold stem. pose proof (split_nonempty dot (basename filename)) as Hne.
  unfold name_parts. destruct (split dot (basename filename)) as [|x rest]; [done|].
  by exists rest.
Qed.

Lemma filename_params_stem filename :
  filename_params filename =
  match date_slug_match (stem filename) with
  | Some (g1, g2) =>
      Ok {[ "date" := VStr (match g1 with
                            | Some d => if is_empty d then "1970-01-01" else d
                            | None => "1970-01-01"
                            end);
            "slug" := VStr g2 ]}
  | None => Ok ∅
  end.
Proof.
  unfold filename_params. destruct (name_parts_stem filename) as [rest ->]. done.
Qed.

Lemma filename_params_dated filename d slug :
  stem filename = d +:+ String dash slug →
  date_shaped d = true → slug ≠ EmptyString →
  mem nl (stem filename) = false →
  filename_params filename = Ok {[ "date" := VStr d; "slug" := VStr slug ]}.
Proof.
  intros Hstem Hd Hslug Hnl. rewrite filename_params_stem, Hstem.
  rewrite Hstem in Hnl. rewrite date_slug_match_dated by done.
  pose proof (date_shaped_nonempty _ Hd) as Hne.
  apply is_empty_false in Hne. by rewrite Hne.
Qed.

Lemma filename_params_plain filename :
  stem filename ≠ EmptyString →
  mem nl (stem filename) = false →
  (∀ d slug, stem filename = d +:+ String dash slug → date_shaped d = true →
             slug = EmptyString) →
  filename_params filename =
  Ok {[ "date" := VStr "1970-01-01"; "slug" := VStr (stem filename) ]}.
Proof.
  intros Hs Hnl Hno. rewrite filename_params_stem.
  by rewrite date_slug_match_plain.
Qed.

Lemma filename_params_empty filename :
  stem filename = EmptyString → filename_params filename = Ok ∅.
Proof. intros Hs. rewrite filename_params_stem, Hs. done. Qed.

(** The file name gives a [date] and a [slug], both [str], or nothing. *)
Lemma filename_params_shape filename :
  ∃ from_name, filename_params filename = Ok from_name ∧
    (from_name = ∅ ∨
     ∃ d s, from_name = {[ "date" := VStr d; "slug" := VStr s ]}).
Proof.
  rewrite filename_params_stem.
  destruct (date_slug_match (stem filename)) as [[g1 g2]|].
  - eexists. split; [done|]. right. by eexists _, _.
  - eexists. split; [done|]. by left.
Qed.

End PathFacts.

(* ===================================================================== *)
(** ** Content reader: theorems *)
(* ===================================================================== *)

Section ReadContentTheorems.
Context {Template datetime fs : Type} `{!Env Template datetime fs}.
#[local] Abbreviation world := (@world Template fs).
#[local] Abbreviation M := (@M Template fs).
Import Str StrFacts Path PathFacts.

Lemma date_not_computed : "date" ∉ computed_keys.
Proof.
  unfold computed_keys. rewrite !not_elem_of_cons.
  repeat split; try done. apply not_elem_of_nil.
Qed.

Lemma slug_not_computed : "slug" ∉ computed_keys.
Proof.
  unfold computed_keys. rewrite !not_elem_of_cons.
  repeat split; try done. apply not_elem_of_nil.
Qed.

Lemma with_dates_lookup content text short human rfc k :
  k ∉ computed_keys →
  with_dates content text short human rfc !! k = content !! k.
Proof.
  intros Hk. unfold with_dates. apply lookup_union_r.
  unfold computed_keys in Hk. rewrite !not_elem_of_cons in Hk.
  destruct Hk as (? & ? & ? & ? & _).
  rewrite !lookup_insert_ne by done. by apply lookup_singleton_ne.
Qed.

Lemma merged_lookup_header site_params from_name header k v :
  header !! k = Some v →
  merged site_params from_name header !! k = Some (VStr v).
Proof.
  intros Hk. unfold merged. apply lookup_union_Some_l.
  by rewrite lookup_fmap, Hk.
Qed.

Lemma merged_lookup_name site_params from_name header k :
  header !! k = None →
  is_Some (from_name !! k) →
  merged site_params from_name header !! k = from_name !! k.
Proof.
  intros Hk [v Hv]. unfold merged. rewrite lookup_union_r.
  - rewrite Hv. by apply lookup_union_Some_l.
  - by rewrite lookup_fmap, Hk.
Qed.

Lemma merged_lookup_base site_params from_name header k :
  from_name !! k = None →
  merged site_params from_name header !! k
  = ((VStr <$> header) ∪ site_params) !! k.
Proof.
  intros Hk. unfold merged. rewrite !lookup_union, Hk.
  by destruct ((VStr <$> header) !! k), (site_params !! k).
Qed.

Lemma pair_lookup_date d s :
  ({[ "date" := VStr d; "slug" := VStr s ]} : gmap string value) !! "date"
  = Some (VStr d).
Proof. by rewrite lookup_insert_eq. Qed.

Lemma pair_lookup_slug d s :
  ({[ "date" := VStr d; "slug" := VStr s ]} : gmap string value) !! "slug"
  = Some (VStr s).
Proof. rewrite lookup_insert_ne by done. by rewrite lookup_singleton_eq. Qed.

Lemma pair_lookup_other d s k :
  k ≠ "date" → k ≠ "slug" →
  ({[ "date" := VStr d; "slug" := VStr s ]} : gmap string value) !! k = None.
Proof.
  intros ? ?. rewrite lookup_insert_ne by done. by apply lookup_singleton_ne.
Qed.

(** With a pair from the file name, and a header without [date] and
    [slug], the item carries the pair. *)
Lemma read_content_pair filename site_params w text header e hf d s :
  os_read (disk w) filename = inl text →
  read_header text = Ok (header, e) →
  ((VStr <$> header) ∪ site_params) !! "date_human_format" = Some (VStr hf) →
  header !! "date" = None →
  header !! "slug" = None →
  filename_params filename = Ok {[ "date" := VStr d; "slug" := VStr s ]} →
  ∃ item w',
    read_content filename site_params w = (Ok (Some item), w') ∧
    item !! "date" = Some (VStr d) ∧ item !! "slug" = Some (VStr s).
Proof.
  intros Hread Hheader Hhf Hdate Hslug Hname.
  destruct (read_content_returns filename site_params w text _ header e d hf
              Hread Hname Hheader) as (short & human & rfc & w' & Hrun & _).
  - rewrite merged_lookup_name; [apply pair_lookup_date|done|].
    rewrite pair_lookup_date. by eexists.
  - rewrite merged_lookup_base; [done|]. by apply pair_lookup_other.
  - eexists _, w'. split; [exact Hrun|].
    rewrite (with_dates_lookup _ _ _ _ _ "date") by apply date_not_computed.
    rewrite (with_dates_lookup _ _ _ _ _ "slug") by apply slug_not_computed.
    split.
    + rewrite merged_lookup_name; [apply pair_lookup_date|done|].
      rewrite pair_lookup_date. by eexists.
    + rewrite merged_lookup_name; [apply pair_lookup_slug|done|].
      rewrite pair_lookup_slug. by eexists.
Qed.

(** C2, as amended. The stem of a file name is the text of its base name
    before the first dot, here free of line feeds, and the header is one
    that sets neither [date] nor [slug].  When the stem is a date of the
    shape YYYY-MM-DD, a dash, and a slug that is not empty, the item has
    that date and that slug.  When the stem is not empty and is not of
    that form, the item has the date 1970-01-01 and the stem as its slug.
    When the stem is empty the file name gives neither. *)
Theorem read_content_date_slug (filename : string)
    (site_params : gmap string value) (w : world)
    (text : string) (header : gmap string string) (e : nat) (hf : string) :
  os_read (disk w) filename = inl text →
  read_header text = Ok (header, e) →
  ((VStr <$> header) ∪ site_params) !! "date_human_format" = Some (VStr hf) →
  header !! "date" = None →
  header !! "slug" = None →
  mem nl (stem filename) = false →
  (∀ d slug,
     stem filename = d +:+ String dash slug →
     date_shaped d = true → slug ≠ EmptyString →
     filename_params filename = Ok {[ "date" := VStr d; "slug" := VStr slug ]} ∧
     ∃ item w',
       read_content filename site_params w = (Ok (Some item), w') ∧
       item !! "date" = Some (VStr d) ∧ item !! "slug" = Some (VStr slug))
  ∧
  (stem filename ≠ EmptyString →
   (∀ d slug, stem filename = d +:+ String dash slug →
              date_shaped d = true → slug = EmptyString) →
   filename_params filename =
     Ok {[ "date" := VStr "1970-01-01"; "slug" := VStr (stem filename) ]} ∧
   ∃ item w',
     read_content filename site_params w = (Ok (Some item), w') ∧
     item !! "date" = Some (VStr "1970-01-01") ∧
     item !! "slug" = Some (VStr (stem filename)))
  ∧
  (stem filename = EmptyString → filename_params filename = Ok ∅).
Proof.
  intros Hread Hheader Hhf Hdate Hslug Hnl. split; [|split].
  - intros d slug Hstem Hd Hne.
    pose proof (filename_params_dated _ _ _ Hstem Hd Hne Hnl) as Hname.
    split; [done|]. by eapply read_content_pair.
  - intros Hne Hno.
    pose proof (filename_params_plain _ Hne Hnl Hno) as Hname.
    split; [done|]. by eapply read_content_pair.
  - apply filename_params_empty.
Qed.

(** The merge of [read_content], key by key: the header goes before the
    pair from the file name, which goes before the base parameters. *)
Lemma merged_lookup site_params from_name (header : gmap string string) k :
  merged site_params from_name header !! k =
  match header !! k with
  | Some v => Some (VStr v)
  | None =>
      match from_name !! k with
      | Some x => Some x
      | None => site_params !! k
      end
  end.
Proof.
  unfold merged. rewrite !lookup_union, lookup_fmap.
  by destruct (header !! k), (from_name !! k), (site_params !! k).
Qed.

(** C4. The item [read_content] returns is the merge of three mappings:
    under every key other than the four that are computed last, it holds
    the value of the header when the header defines the key, failing
    that the value of the pair from the file name when the pair defines
    it, failing both what the base parameters hold.  So for a key that
    both the file name and the header define, [date] or [slug], the item
    carries the value of the header. *)
Theorem read_content_header_wins (filename : string)
    (site_params from_name : gmap string value) (w : world)
    (text : string) (header : gmap string string) (e : nat) (hf k v : string) :
  os_read (disk w) filename = inl text →
  filename_params filename = Ok from_name →
  read_header text = Ok (header, e) →
  ((VStr <$> header) ∪ site_params) !! "date_human_format" = Some (VStr hf) →
  is_Some (from_name !! k) →
  header !! k = Some v →
  ∃ item w',
    read_content filename site_params w = (Ok (Some item), w') ∧
    (k = "date" ∨ k = "slug") ∧
    item !! k = Some (VStr v) ∧
    (∀ k', k' ∉ computed_keys →
           item !! k' =
           match header !! k' with
           | Some v' => Some (VStr v')
           | None =>
               match from_name !! k' with
               | Some x => Some x
               | None => site_params !! k'
               end
           end).
Proof.
  intros Hread Hname Hheader Hhf Hk Hv.
  destruct (filename_params_shape filename) as (fn & Hfn & Hshape).
  rewrite Hname in Hfn. injection Hfn as <-.
  destruct Hshape as [->|(d & s & ->)].
  { rewrite lookup_empty in Hk. by destruct Hk. }
  assert (k = "date" ∨ k = "slug") as Hkey.
  { destruct (decide (k = "date")); [by left|].
    destruct (decide (k = "slug")); [by right|].
    rewrite pair_lookup_other in Hk by done. by destruct Hk. }
  assert (∃ ds, merged site_params {[ "date" := VStr d; "slug" := VStr s ]} header
                  !! "date" = Some (VStr ds)) as [ds Hds].
  { destruct (header !! "date") as [hd|] eqn:Hhd.
    - exists hd. by apply merged_lookup_header.
    - exists d. rewrite merged_lookup_name; [apply pair_lookup_date|done|].
      rewrite pair_lookup_date. by eexists. }
  destruct (read_content_returns filename site_params w text _ header e ds hf
              Hread Hname Hheader Hds) as (short & human & rfc & w' & Hrun & _).
  { rewrite merged_lookup_base; [done|]. by apply pair_lookup_other. }
  eexists _, w'. split; [exact Hrun|]. split; [exact Hkey|]. split.
  - rewrite with_dates_lookup.
    + by apply merged_lookup_header.
    + destruct Hkey as [-> | ->];
        [apply date_not_computed|apply slug_not_computed].
  - intros k' Hnot. rewrite with_dates_lookup by done. apply merged_lookup.
Qed.

End ReadContentTheorems.

Lemma read_content_date_slug_witness :
  (∃ item w',
     read_content "content/blog/2021-03-04-second.html" Demo.params0 Demo.world0
       = (Ok (Some item), w') ∧
     item !! "date" = Some (VStr "2021-03-04") ∧
     item !! "slug" = Some (VStr "second"))
  ∧
  (∃ item w',
     read_content "content/about.html" Demo.params0 Demo.world0
       = (Ok (Some item), w') ∧
     item !! "date" = Some (VStr "1970-01-01") ∧
     item !! "slug" = Some (VStr "about")).
Proof.
  split.
  - destruct (read_content_date_slug "content/blog/2021-03-04-second.html"
                Demo.params0 Demo.world0 "Second" ∅ 0 "%d %b, %Y")
      as (Hdated & _ & _); try reflexivity.
    apply (Hdated "2021-03-04" "second"); [reflexivity|reflexivity|discriminate].
  - destruct (read_content_date_slug "content/about.html"
                Demo.params0 Demo.world0 "About" ∅ 0 "%d %b, %Y")
      as (_ & Hplain & _); try reflexivity.
    apply Hplain; [discriminate|].
    intros d slug Heq Hd. apply (f_equal String.length) in Heq.
    rewrite StrFacts.length_sapp, (PathFacts.date_shaped_length _ Hd) in Heq.
    vm_compute in Heq. lia.
Defined.

(** C2, as stated, fails on a file name whose stem is empty: the pattern
    asks for a slug of one character at least, so neither [date] nor
    [slug] is set, and with no [date] from elsewhere the call ends the
    build. *)
Lemma read_content_date_slug_counterexample :
  stem ".md" = EmptyString ∧
  filename_params ".md" = Ok ∅ ∧
  (read_content ".md" Demo.params0 Demo.world0).1 = Exit 1%Z.
Proof. repeat split; vm_compute; reflexivity. Qed.

Lemma read_content_header_wins_witness :
  ∃ item w',
    read_content "content/blog/2020-01-02-first.html" Demo.params0 Demo.world0
      = (Ok (Some item), w') ∧
    item !! "slug" = Some (VStr "one") ∧
    item !! "title" = Some (VStr "First") ∧
    item !! "date" = Some (VStr "2020-01-02") ∧
    item !! "author" = Some (VStr "Admin").
Proof.
  destruct (read_content_header_wins "content/blog/2020-01-02-first.html"
              Demo.params0
              {[ "date" := VStr "2020-01-02"; "slug" := VStr "first" ]}
              Demo.world0 Demo.first_post
              {[ "title" := "First"; "slug" := "one" ]} 31 "%d %b, %Y"
              "slug" "one")
    as (item & w' & Hrun & _ & Hslug & Hmerge); try reflexivity;
    [exists (VStr "first"); reflexivity|].
  exists item, w'. split; [exact Hrun|]. split; [exact Hslug|].
  assert (∀ k : string, k ∉ computed_keys ↔
            k ≠ "content" ∧ k ≠ "short_date" ∧ k ≠ "human_date"
            ∧ k ≠ "rfc_2822_date") as Hkeys.
  { intros k. unfold computed_keys. rewrite !not_elem_of_cons.
    pose proof (not_elem_of_nil k). tauto. }
  split; [|split].
  - rewrite (Hmerge "title"); [reflexivity|]. apply Hkeys. by repeat split.
  - rewrite (Hmerge "date"); [reflexivity|]. apply Hkeys. by repeat split.
  - rewrite (Hmerge "author"); [reflexivity|]. apply Hkeys. by repeat split.
Defined.

(* ===================================================================== *)
(** ** Pages and collections: lemmas *)
(* ===================================================================== *)

Section PagesFacts.
Context {Template datetime fs : Type} `{!Env Template datetime fs}.
#[local] Abbreviation world := (@world Template fs).
#[local] Abbreviation M := (@M Template fs).

Lemma log_run lvl msg (w : world) :
  log lvl msg w =
  (Ok tt, World (heap w) (disk w) (console w ++ [(lvl, msg)]) (rendered w)).
Proof. reflexivity. Qed.

Lemma log_info_inv msg (w : world) u w' :
  log_info msg w = (Ok u, w') →
  heap w' = heap w ∧ disk w' = disk w ∧ rendered w' = rendered w.
Proof. unfold log_info. rewrite log_run. by intros [= _ <-]. Qed.

Lemma log_warn_inv msg (w : world) u w' :
  log_warn msg w = (Ok u, w') →
  heap w' = heap w ∧ disk w' = disk w ∧ rendered w' = rendered w.
Proof. unfold log_warn. rewrite log_run. by intros [= _ <-]. Qed.

Lemma log_critical_inv {A} msg (w : world) (a : A) w' :
  log_critical msg w = (Ok a, w') → False.
Proof. destruct (log_critical_exits (A := A) msg w) as [w1 ->]. done. Qed.

Lemma expand_files_inv pattern n w files w' :
  expand_files pattern n w = (Ok files, w') → w' = w.
Proof. unfold expand_files. rewrite run_bind. simpl. by intros [= _ <-]. Qed.

Lemma as_template_run tpl t (w : world) :
  template_of tpl t → as_template tpl w = (Ok t, w).
Proof.
  destruct tpl as [t0|text]; simpl.
  - by intros ->.
  - by intros ->.
Qed.

(** A render that returns. *)
Lemma render_template_run tpl t params out (w : world) :
  template_of tpl t → renders t params out →
  render_template tpl params w =
  (Ok out,
   World (heap w) (disk w) (console w) (rendered w ++ [(t, params)])).
Proof.
  intros Ht [Hself Hout]. unfold render_template.
  erewrite run_bind_ok; [|by apply as_template_run].
  rewrite bool_decide_eq_false_2.
  - by rewrite Hout.
  - rewrite Hself. by intros [? ?].
Qed.

(** A call of [render_template] that returns has rendered. *)
Lemma render_template_returns tpl params (w : world) out w' :
  render_template tpl params w = (Ok out, w') →
  ∃ t, template_of tpl t ∧ renders t params out ∧
       w' = World (heap w) (disk w) (console w) (rendered w ++ [(t, params)]).
Proof.
  unfold render_template. intros Hrun.
  apply run_bind_inv in Hrun as (t & wa & Ht & Hrun).
  assert (template_of tpl t ∧ wa = w) as [Htpl ->].
  { destruct tpl as [t0|text]; simpl in *.
    - by injection Ht as -> ->.
    - destruct (compile text) as [t1|msg]; [|done]. by injection Ht as -> ->. }
  case_bool_decide as Hself; [done|].
  destruct (template_render t params) as [o|e] eqn:Hout; [|done].
  injection Hrun as <- <-. exists t. split; [done|]. split; [|done].
  split; [|done]. destruct (params !! "self") eqn:Hs; [|done].
  destruct Hself. by eexists.
Qed.

(** Whatever becomes of a render, it leaves the references, the disk and
    the console alone. *)
Lemma render_template_frame tpl params (w : world) o w' :
  render_template tpl params w = (o, w') →
  heap w' = heap w ∧ disk w' = disk w ∧ console w' = console w.
Proof.
  unfold render_template. rewrite run_bind.
  destruct tpl as [t0|text]; simpl.
  - case_bool_decide; [by intros [= _ <-]|].
    destruct (template_render t0 params); by intros [= _ <-].
  - destruct (compile text) as [t1|msg]; simpl; [|by intros [= _ <-]].
    case_bool_decide; [by intros [= _ <-]|].
    destruct (template_render t1 params); by intros [= _ <-].
Qed.

Lemma render_template_inv tpl params (w : world) out w' :
  render_template tpl params w = (Ok out, w') →
  heap w' = heap w ∧ disk w' = disk w.
Proof. intros Hrun. apply render_template_frame in Hrun. tauto. Qed.

Lemma set_disk_inv d (w : world) u w' :
  set_disk d w = (Ok u, w') → heap w' = heap w ∧ rendered w' = rendered w.
Proof. unfold set_disk. by intros [= _ <-]. Qed.

(** Writing a file leaves the references and the render log alone. *)
Lemma fwrite_inv filename text w u w' :
  fwrite filename text w = (Ok u, w') →
  heap w' = heap w ∧ rendered w' = rendered w.
Proof.
  unfold fwrite. intros Hrun.
  apply run_bind_inv in Hrun as (d & wa & Hd & Hrun).
  injection Hd as <- <-.
  destruct (os_makedirs (disk w) (Path.dirname filename) true) as [d1|ex]; [|done].
  apply run_bind_inv in Hrun as (u1 & wb & [Hh1 Hr1]%set_disk_inv & Hrun).
  apply run_bind_inv in Hrun as (u2 & wc & Hwarn & Hrun).
  assert (heap wc = heap wb ∧ rendered wc = rendered wb) as [Hh2 Hr2].
  { destruct (os_isfile d1 filename).
    - apply log_warn_inv in Hwarn. tauto.
    - by injection Hwarn as _ <-. }
  destruct (os_write d1 filename text) as [d2|ex].
  - apply set_disk_inv in Hrun as [Hh3 Hr3]. split; congruence.
  - by apply log_critical_inv in Hrun.
Qed.

Lemma lookup_content_other (x : gmap string value) v k :
  k ≠ "content" → <["content" := v]> x !! k = x !! k.
Proof. intros Hk. by rewrite lookup_insert_ne. Qed.

(** A page that [render_page] returns kept the references as they were
    and has a date that is a [str]. *)
Lemma render_page_inv path site_params w r w' :
  render_page path site_params w = (Ok r, w') →
  heap w' = heap w ∧ ∀ item, r = Some item → has_date item.
Proof.
  unfold render_page. intros Hrun.
  apply run_bind_inv in Hrun as (files & wa & ->%expand_files_inv & Hrun).
  destruct (head files) as [filename|].
  2:{ apply run_bind_inv in Hrun as (u & wb & [Hh _]%log_info_inv & Hrun).
      injection Hrun as <- <-. by split. }
  destruct (Str.is_empty filename).
  { apply run_bind_inv in Hrun as (u & wb & [Hh _]%log_info_inv & Hrun).
    injection Hrun as <- <-. by split. }
  apply run_bind_inv in Hrun as (pp & wb & Hread & Hrun).
  apply read_content_inv in Hread
    as (text & fn & header & e & ds & short & human & rfc
        & _ & _ & _ & Hdate & -> & Hh & _ & _).
  cbv beta iota in Hrun. case_bool_decide as Hempty.
  { injection Hrun as <- <-. by split. }
  apply run_bind_inv in Hrun as (content & wc & [_ ->]%getitem_inv & Hrun).
  apply run_bind_inv in Hrun as (rc & wd & Hrender & Hrun).
  assert (heap wd = heap w) as Hhd.
  { destruct content; try done.
    apply render_template_inv in Hrender as [Hh' _]. congruence. }
  assert (∃ ds', with_dates (merged site_params fn header) (Str.drop e text)
                   short human rfc !! "date" = Some (VStr ds')) as [ds' Hds'].
  { exists ds. rewrite with_dates_lookup; [done|apply date_not_computed]. }
  cbv zeta in Hrun.
  destruct (existsb (Path.endswith filename) markdown_suffixes).
  - destruct markdown as [md|].
    + injection Hrun as <- <-. split; [done|]. intros item [= <-].
      exists ds'. by rewrite !lookup_content_other.
    + by apply log_critical_inv in Hrun.
  - injection Hrun as <- <-. split; [done|]. intros item [= <-].
    exists ds'. by rewrite lookup_content_other.
Qed.

(** Rendering and writing a page leaves the references alone. *)
Lemma write_page_inv src dest default_layout jinja_env od (w : world) u w' :
  write_page src dest default_layout jinja_env od w = (Ok u, w') →
  heap w' = heap w.
Proof.
  unfold write_page. intros Hrun. cbv zeta in Hrun.
  apply run_bind_inv in Hrun as (layout & wb & Hlayout & Hrun).
  assert (wb = w) as ->.
  { destruct (truthy (dict_get od "template")); [|by injection Hlayout as _ <-].
    destruct (dict_get od "template"); try done.
    destruct (get_template jinja_env s); [|done]. by injection Hlayout as _ <-. }
  apply run_bind_inv in Hrun as (output & wc & [Hhc _]%render_template_inv & Hrun).
  apply run_bind_inv in Hrun as (dest_path & wd & [Hhd _]%render_template_inv & Hrun).
  apply run_bind_inv in Hrun as (u1 & we & [Hhe _]%log_info_inv & Hrun).
  apply fwrite_inv in Hrun as [Hhf _]. congruence.
Qed.

(** A run of the loop that returns kept the references as they were, and
    every item it added is a page that [render_page] returned for one of
    the files. *)
Lemma make_pages_loop_inv (P : gmap string value → Prop)
    files dest default_layout site_params jinja_env items w r w' :
  (∀ src x w1 w2, src ∈ files →
     render_page src site_params w1 = (Ok (Some x), w2) → P x) →
  make_pages_loop files dest default_layout site_params jinja_env items w
    = (Ok r, w') →
  heap w' = heap w ∧ (Forall P items → Forall P r).
Proof.
  revert items w. induction files as [|src_path files IH]; intros items w HP; simpl.
  - rewrite run_ret. by intros [= <- <-].
  - intros Hrun.
    assert (∀ src x w1 w2, src ∈ files →
              render_page src site_params w1 = (Ok (Some x), w2) → P x) as HP'.
    { intros src x w1 w2 Hin. apply HP. by apply list_elem_of_further. }
    apply run_bind_inv in Hrun as (od & wa & Hpage & Hrun).
    pose proof (render_page_inv _ _ _ _ _ Hpage) as [Hha _].
    destruct od as [od|].
    2:{ apply IH in Hrun as [Hh Hall]; [|done]. split; [congruence|done]. }
    case_bool_decide as Hempty.
    { apply IH in Hrun as [Hh Hall]; [|done]. split; [congruence|done]. }
    apply run_bind_inv in Hrun as (u & wf & Hhf%write_page_inv & Hrun).
    apply IH in Hrun as [Hh Hall]; [|done]. split; [congruence|].
    intros Hitems. apply Hall. apply Forall_app. split; [done|].
    constructor; [|constructor]. eapply HP; [|exact Hpage]. by apply list_elem_of_here.
Qed.

(** A run of the loop that returns has gone through the files in order:
    what it adds to its list are the collected pages. *)
Lemma make_pages_loop_collected files dest default_layout site_params
    jinja_env items (w : world) r w' :
  make_pages_loop files dest default_layout site_params jinja_env items w
    = (Ok r, w') →
  ∃ pages,
    collected dest default_layout site_params jinja_env files w pages w' ∧
    r = items ++ pages.*2.
Proof.
  revert items w. induction files as [|src_path files IH]; intros items w; simpl.
  - rewrite run_ret. intros [= <- <-]. exists []. split; [constructor|].
    by rewrite app_nil_r.
  - intros Hrun.
    apply run_bind_inv in Hrun as (od & wa & Hpage & Hrun).
    destruct od as [od|].
    2:{ apply IH in Hrun as (pages & Hc & ->). exists pages. split; [|done].
        eapply collected_skip; [exact Hpage|by left|exact Hc]. }
    case_bool_decide as Hempty.
    { apply IH in Hrun as (pages & Hc & ->). exists pages. split; [|done].
      eapply collected_skip; [exact Hpage|right; by rewrite Hempty|exact Hc]. }
    apply run_bind_inv in Hrun as ([] & wf & Hwrite & Hrun).
    apply IH in Hrun as (pages & Hc & ->).
    exists ((src_path, od) :: pages). split.
    + eapply collected_page; [exact Hpage|exact Hempty|exact Hwrite|exact Hc].
    + rewrite fmap_cons. simpl. by rewrite <- app_assoc.
Qed.

(** The other way round: when the files can be gone through, the loop
    returns the collected pages after what its list held. *)
Lemma collected_loop files dest default_layout site_params jinja_env
    (w : world) pages w' :
  collected dest default_layout site_params jinja_env files w pages w' →
  ∀ items,
    make_pages_loop files dest default_layout site_params jinja_env items w
    = (Ok (items ++ pages.*2), w').
Proof.
  induction 1 as [w|src files w r w1 pages w' Hpage Hr _ IH
                  |src files w x w1 w2 pages w' Hpage Hx Hwrite _ IH];
    intros items; simpl.
  - by rewrite app_nil_r.
  - erewrite run_bind_ok; [|exact Hpage].
    destruct Hr as [-> | ->]; [apply IH|]. cbv beta iota.
    rewrite bool_decide_eq_true_2 by done. apply IH.
  - erewrite run_bind_ok; [|exact Hpage]. cbv beta iota.
    rewrite bool_decide_eq_false_2 by done.
    erewrite run_bind_ok; [|exact Hwrite].
    rewrite IH. by rewrite <- app_assoc.
Qed.

(** The collected pages have a date, and their files are among the files
    gone through, in the same order. *)
Lemma collected_dated files dest default_layout site_params jinja_env
    (w : world) pages w' :
  collected dest default_layout site_params jinja_env files w pages w' →
  Forall has_date pages.*2 ∧ sublist pages.*1 files.
Proof.
  induction 1 as [w|src files w r w1 pages w' Hpage Hr _ [IH1 IH2]
                  |src files w x w1 w2 pages w' Hpage Hx Hwrite _ [IH1 IH2]].
  - split; [constructor|constructor].
  - split; [done|]. by apply sublist_cons.
  - rewrite !fmap_cons. simpl. split.
    + constructor; [|done]. by apply (render_page_inv _ _ _ _ _ Hpage).
    + by apply sublist_skip.
Qed.

Lemma sublist_same_length {A} (l k : list A) :
  sublist l k → length l = length k → l = k.
Proof.
  induction 1 as [|x l k _ IH|x l k Hsub _]; simpl; intros Hlen; [done| |].
  - f_equal. apply IH. lia.
  - apply sublist_length in Hsub. lia.
Qed.

(** The sort keys of items that have a date. *)
Lemma with_date_keys_dated items :
  Forall has_date items →
  ∃ keyed, with_date_keys items = Ok keyed ∧ keyed.*2 = items ∧
           Forall (λ p, date_of p.2 = p.1) keyed.
Proof.
  induction 1 as [|x items [ds Hx] _ (keyed & Hk & Hsnd & Hall)]; simpl.
  - by exists [].
  - exists ((ds, x) :: keyed). unfold date_key. rewrite Hx, Hk.
    split; [done|]. split; [by rewrite fmap_cons, Hsnd|].
    constructor; [|done]. unfold date_of. simpl. by rewrite Hx.
Qed.

Lemma filter_date_keyed (l : list (string * gmap string value)) d :
  Forall (λ p, date_of p.2 = p.1) l →
  filter (λ x, date_of x = d) l.*2 = (filter (λ p, p.1 = d) l).*2.
Proof.
  induction 1 as [|p l Hp _ IH]; [done|].
  rewrite fmap_cons, !filter_cons, Hp.
  destruct (decide (p.1 = d)); by rewrite IH.
Qed.

Lemma sorted_date_keyed (l : list (string * gmap string value)) :
  Forall (λ p, date_of p.2 = p.1) l →
  Sorted before l →
  Sorted (λ x y, String.le (date_of y) (date_of x)) l.*2.
Proof.
  intros Hall Hs. induction Hs as [|p l Hs IH Hhd]; [constructor|].
  apply Forall_cons in Hall as [Hp Hall]. rewrite fmap_cons.
  constructor; [by apply IH|].
  destruct Hhd as [|q l Hpq]; [constructor|].
  apply Forall_cons in Hall as [Hq _]. rewrite fmap_cons. constructor.
  unfold before in Hpq. by rewrite Hp, Hq.
Qed.

(** The sorted list of items that have a date. *)
Lemma sorted_by_date_dated items :
  Forall has_date items →
  ∃ result,
    sorted_by_date items = Ok result ∧
    result ≡ₚ items ∧
    Sorted (λ x y, String.le (date_of y) (date_of x)) result ∧
    ∀ d, filter (λ x, date_of x = d) result = filter (λ x, date_of x = d) items.
Proof.
  intros Hdated.
  destruct (with_date_keys_dated _ Hdated) as (keyed & Hk & Hsnd & Hall).
  exists (sorted_reverse keyed).*2. unfold sorted_by_date. rewrite Hk.
  assert (Forall (λ p, date_of p.2 = p.1) (sorted_reverse keyed)) as Hall'.
  { rewrite Forall_forall in Hall |- *. intros p Hp. apply Hall.
    by rewrite <- (SortFacts.sorted_reverse_perm keyed). }
  split; [done|]. split; [|split].
  - rewrite <- Hsnd. apply fmap_Permutation, SortFacts.sorted_reverse_perm.
  - apply sorted_date_keyed; [done|]. apply SortFacts.sorted_reverse_sorted.
  - intros d. rewrite filter_date_keyed by done.
    rewrite SortFacts.sorted_reverse_stable.
    rewrite <- filter_date_keyed by done. by rewrite Hsnd.
Qed.

End PagesFacts.

Section MakePagesTheorem.
Context {Template datetime fs : Type} `{!Env Template datetime fs}.
#[local] Abbreviation world := (@world Template fs).
#[local] Abbreviation M := (@M Template fs).

(** C3. [make_pages] goes through the files of the pattern in the order
    of the glob expansion.  The list it returns holds the page of every
    file for which [render_page] returned one, and nothing else; it is
    sorted by decreasing date; and pages of one date stand in the order
    of their files.  Conversely, whenever the files can be gone through
    in this way, [make_pages] returns. *)
Theorem make_pages_sorted (pattern dest_path_pattern : string)
    (default_layout : Template) (site_params : gmap string value)
    (jinja_env : string) (w : world) :
  ∃ files,
    expand_files pattern 0 w = (Ok files, w) ∧
    (∀ result w',
       make_pages pattern dest_path_pattern default_layout site_params
                  jinja_env w = (Ok result, w') →
       ∃ pages,
         collected dest_path_pattern default_layout site_params jinja_env
                   files w pages w' ∧
         sublist pages.*1 files ∧
         Forall has_date result ∧
         sorted_stably result pages.*2)
    ∧
    (∀ pages w',
       collected dest_path_pattern default_layout site_params jinja_env
                 files w pages w' →
       ∃ result,
         make_pages pattern dest_path_pattern default_layout site_params
                    jinja_env w = (Ok result, w') ∧
         sorted_stably result pages.*2).
Proof.
  destruct (expand_files pattern 0 w) as [o wa] eqn:Hfiles.
  assert (∃ files, o = Ok files ∧ wa = w) as (files & -> & ->).
  { unfold expand_files in Hfiles. rewrite run_bind in Hfiles. simpl in Hfiles.
    injection Hfiles as <- <-. by eexists. }
  exists files. split; [done|]. split.
  - intros result w' Hrun. unfold make_pages in Hrun.
    rewrite run_bind, Hfiles in Hrun.
    apply run_bind_inv in Hrun as (items & wb & Hloop & Hsort).
    rewrite run_lift in Hsort. injection Hsort as Hsort <-.
    apply make_pages_loop_collected in Hloop as (pages & Hc & ->).
    rewrite app_nil_l in Hsort.
    destruct (collected_dated _ _ _ _ _ _ _ _ Hc) as [Hdated Hsub].
    destruct (sorted_by_date_dated _ Hdated) as (result' & Hsort' & Hperm & Hs & Hst).
    rewrite Hsort in Hsort'. injection Hsort' as <-.
    exists pages. split; [done|]. split; [done|]. split; [|done].
    rewrite Forall_forall in Hdated |- *. intros x Hx. apply Hdated.
    by rewrite <- Hperm.
  - intros pages w' Hc.
    destruct (collected_dated _ _ _ _ _ _ _ _ Hc) as [Hdated _].
    destruct (sorted_by_date_dated _ Hdated) as (result & Hsort & Hperm & Hs & Hst).
    exists result. split; [|done].
    unfold make_pages. erewrite run_bind_ok; [|exact Hfiles].
    erewrite run_bind_ok; [|by apply collected_loop].
    by rewrite app_nil_l, run_lift, Hsort.
Qed.

End MakePagesTheorem.

Lemma make_pages_sorted_witness :
  ∃ result w',
    make_pages "content/blog/[!_]*.{md,html}" "out/{{ slug }}/index.html"
               "post.html" Demo.params0 "layout" Demo.world0 = (Ok result, w') ∧
    (λ x : gmap string value, (date_of x, x !! "slug")) <$> result
    = [ ("2021-03-04", Some (VStr "second"));
        ("2021-03-04", Some (VStr "third"));
        ("2020-01-02", Some (VStr "one")) ] ∧
    ∃ pages,
      pages.*1 = [ "content/blog/2021-03-04-second.html";
                   "content/blog/2021-03-04-third.html";
                   "content/blog/2020-01-02-first.html" ] ∧
      sorted_stably result pages.*2.
Proof.
  destruct (make_pages_sorted "content/blog/[!_]*.{md,html}"
              "out/{{ slug }}/index.html" "post.html" Demo.params0 "layout"
              Demo.world0) as (files & Hfiles & Hback & _).
  assert ((expand_files "content/blog/[!_]*.{md,html}" 0 Demo.world0).1
          = Ok ["content/blog/2021-03-04-second.html";
                "content/blog/2021-03-04-third.html";
                "content/blog/2020-01-02-first.html"]) as Hf
    by (vm_compute; reflexivity).
  rewrite Hfiles in Hf. injection Hf as ->.
  assert (match (make_pages "content/blog/[!_]*.{md,html}"
                   "out/{{ slug }}/index.html" "post.html" Demo.params0
                   "layout" Demo.world0).1 with
          | Ok result =>
              (λ x : gmap string value, (date_of x, x !! "slug")) <$> result
          | _ => []
          end
          = [ ("2021-03-04", Some (VStr "second"));
              ("2021-03-04", Some (VStr "third"));
              ("2020-01-02", Some (VStr "one")) ]) as Hobs
    by (vm_compute; reflexivity).
  destruct (make_pages "content/blog/[!_]*.{md,html}"
              "out/{{ slug }}/index.html" "post.html" Demo.params0
              "layout" Demo.world0) as [[result|e|c] w'] eqn:Hrun;
    [|discriminate Hobs..].
  cbv beta iota delta [fst] in Hobs.
  destruct (Hback result w' eq_refl) as (pages & _ & Hsub & _ & Hsorted).
  exists result, w'. split; [reflexivity|]. split; [exact Hobs|].
  exists pages. split; [|exact Hsorted].
  destruct Hsorted as (Hperm & _).
  apply (f_equal length) in Hobs. rewrite length_fmap, Hperm, length_fmap in Hobs.
  rewrite <- (length_fmap fst) in Hobs.
  apply sublist_same_length; [exact Hsub|exact Hobs].
Defined.

(* ===================================================================== *)
(** ** Index and feed: lemmas *)
(* ===================================================================== *)

Section IndexFacts.
Context {Template datetime fs : Type} `{!Env Template datetime fs}.
#[local] Abbreviation world := (@world Template fs).
#[local] Abbreviation M := (@M Template fs).

(** Whatever becomes of the write, the references and the render log
    stay as they were. *)
Lemma fwrite_frame filename text (w : world) :
  ∃ o w', fwrite filename text w = (o, w') ∧
          heap w' = heap w ∧ rendered w' = rendered w.
Proof.
  unfold fwrite. rewrite run_bind. simpl.
  destruct (os_makedirs (disk w) (Path.dirname filename) true) as [d1|ex];
    [|by eexists _, _].
  rewrite !run_bind. simpl.
  destruct (os_isfile d1 filename); simpl;
    destruct (os_write d1 filename text); by eexists _, _.
Qed.

Lemma make_index_loop_run pages il ref items (w : world) rs :
  item_renders il (default ∅ (heap w !! ref)) pages rs →
  make_index_loop pages il ref items w =
  (Ok (items ++ rs.*2),
   World (heap w) (disk w) (console w)
         (rendered w ++ (pair il <$> rs.*1))).
Proof.
  unfold item_renders. intros Hall. revert items w rs Hall.
  induction pages as [|page pages IH]; intros items w rs Hall.
  - apply Forall2_nil_inv_l in Hall as ->. simpl.
    rewrite run_ret, !app_nil_r. by destruct w.
  - apply Forall2_cons_inv_l in Hall as (r & rs' & [Hp Hr] & Hall & ->).
    simpl make_index_loop.
    erewrite run_bind_ok; [|reflexivity].
    erewrite run_bind_ok; [|by rewrite run_lift, Hp].
    erewrite run_bind_ok; [|by apply (render_template_run _ il)].
    rewrite (IH _ _ rs') by exact Hall. simpl.
    by rewrite <- !app_assoc.
Qed.

Lemma make_index_loop_inv pages il ref items (w : world) r w' :
  make_index_loop pages il ref items w = (Ok r, w') →
  ∃ rs,
    item_renders il (default ∅ (heap w !! ref)) pages rs ∧
    r = items ++ rs.*2 ∧
    w' = World (heap w) (disk w) (console w)
               (rendered w ++ (pair il <$> rs.*1)).
Proof.
  intros Hrun.
  assert (∃ rs, item_renders il (default ∅ (heap w !! ref)) pages rs) as [rs Hrs].
  { revert items w Hrun. induction pages as [|page pages IH]; intros items w Hrun.
    - exists []. constructor.
    - simpl in Hrun.
      apply run_bind_inv in Hrun as (sp & wa & Hsp & Hrun).
      injection Hsp as <- <-.
      apply run_bind_inv in Hrun as (p & wb & Hp & Hrun).
      rewrite run_lift in Hp. injection Hp as Hp <-.
      apply run_bind_inv in Hrun as (item & wc & Hitem & Hrun).
      apply render_template_returns in Hitem as (t & Ht & Hitem & ->).
      simpl in Ht. subst t.
      apply IH in Hrun as (rs & Hrs). exists ((p, item) :: rs).
      by constructor. }
  exists rs. split; [done|].
  rewrite (make_index_loop_run _ _ _ _ _ _ Hrs) in Hrun.
  by injection Hrun as <- <-.
Qed.

(** The end of [make_index]: the list layout and the destination path
    are rendered and the output is written.  Whatever becomes of it, the
    references stay as they are; when it returns, both renders are in the
    render log. *)
Lemma index_tail_run dest ll (P : gmap string value) (n : nat) (w : world) :
  ∃ o w',
    (output ← render_template (inl ll) P;
     dest_path ← render_template (inr dest) P;
     log_info ("Rendering " +:+ pretty n +:+ " items ...") ;;
     fwrite dest_path output) w = (o, w') ∧
    heap w' = heap w ∧
    (o = Ok tt →
     ∃ td, compile dest = inl td ∧
           rendered w' = rendered w ++ [(ll, P); (td, P)]).
Proof.
  rewrite run_bind.
  destruct (render_template (inl ll) P w) as [[output|e|c] w1] eqn:H1.
  2,3: apply render_template_frame in H1 as (Hh & _);
       eexists _, w1; split; [reflexivity|]; by split.
  apply render_template_returns in H1 as (t & Ht & _ & ->).
  simpl in Ht. subst t. rewrite run_bind.
  match goal with |- context [render_template (inr dest) P ?wx] =>
    destruct (render_template (inr dest) P wx) as [[dest_path|e|c] w2] eqn:H2 end.
  2,3: apply render_template_frame in H2 as (Hh & _);
       eexists _, w2; split; [reflexivity|]; by split.
  apply render_template_returns in H2 as (td & Htd & _ & ->).
  simpl in Htd. erewrite run_bind_ok; [|apply log_run].
  match goal with |- context [fwrite ?f ?t ?wx] =>
    destruct (fwrite_frame f t wx) as (o & w' & Hw & Hh & Hr) end.
  exists o, w'. split; [exact Hw|]. split; [by rewrite Hh|].
  intros _. exists td. split; [done|]. rewrite Hr. simpl.
  by rewrite <- app_assoc.
Qed.

(** What [make_index] does to its reference and to the render log, once
    its items are rendered, whatever becomes of the rest. *)
Lemma make_index_run fc pages dest ll il ref (w : world) rs :
  item_renders il (default ∅ (heap w !! ref)) pages rs →
  let P := index_params fc (default ∅ (heap w !! ref)) rs.*2 in
  ∃ o w',
    make_index fc pages dest ll il ref w = (o, w') ∧
    heap w' = <[ref := P]> (heap w) ∧
    (o = Ok tt →
     ∃ td, compile dest = inl td ∧
           rendered w' = rendered w ++ (pair il <$> rs.*1)
                         ++ [(ll, P); (td, P)]).
Proof.
  intros Hall P. unfold make_index.
  erewrite run_bind_ok; [|by apply make_index_loop_run].
  rewrite app_nil_l.
  set (w1 := World (heap w) (disk w) (console w)
                   (rendered w ++ (pair il <$> rs.*1))).
  set (items := rs.*2) in *.
  assert (∃ w2 : world,
    (match fc with
     | Some f =>
         if bool_decide (f = ∅) then mret tt
         else setitem ref "front_content"
                (default (VStr EmptyString) (f !! "content"))
     | None => mret tt
     end) w1 = (Ok tt, w2) ∧
    <["content" := VStr (Str.join EmptyString items)]>
      (default ∅ (heap w2 !! ref)) = P ∧
    <[ref := P]> (heap w2) = <[ref := P]> (heap w) ∧
    rendered w2 = rendered w1) as (w2 & Hfront & HP & Hheap & Hrend).
  { unfold P, index_params. destruct fc as [f|].
    - case_bool_decide.
      + exists w1. by rewrite run_ret.
      + eexists. split; [reflexivity|]. simpl.
        rewrite lookup_insert_eq. simpl. split; [done|]. split; [|done].
        by rewrite insert_insert_eq.
    - exists w1. by rewrite run_ret. }
  erewrite run_bind_ok; [|exact Hfront].
  erewrite run_bind_ok; [|reflexivity].
  erewrite run_bind_ok; [|reflexivity].
  match goal with |- context [(render_template (inl ll) ?sp ≫= _) ?wx] =>
    destruct (index_tail_run dest ll sp (length items) wx)
      as (o & w' & Hw & Hh & Hr) end.
  exists o, w'. split; [exact Hw|]. simpl in Hh. rewrite HP in Hh.
  split; [by rewrite Hh, Hheap|].
  intros Ho. destruct (Hr Ho) as (td & Htd & Hrd). exists td. split; [done|].
  simpl in Hrd. rewrite lookup_insert_eq in Hrd. simpl in Hrd. rewrite HP in Hrd.
  rewrite Hrd, Hrend. unfold w1. simpl. by rewrite <- !app_assoc.
Qed.

Lemma make_index_inv fc pages dest ll il ref (w : world) u w' :
  make_index fc pages dest ll il ref w = (Ok u, w') →
  ∃ rs td,
    item_renders il (default ∅ (heap w !! ref)) pages rs ∧
    compile dest = inl td ∧
    let P := index_params fc (default ∅ (heap w !! ref)) rs.*2 in
    heap w' = <[ref := P]> (heap w) ∧
    rendered w' = rendered w ++ (pair il <$> rs.*1) ++ [(ll, P); (td, P)].
Proof.
  intros Hrun.
  assert (∃ rs, item_renders il (default ∅ (heap w !! ref)) pages rs)
    as [rs Hrs].
  { unfold make_index in Hrun.
    apply run_bind_inv in Hrun as (items & wa & Hloop & _).
    apply make_index_loop_inv in Hloop as (rs & Hrs & _). by exists rs. }
  destruct (make_index_run fc pages dest ll il ref w rs Hrs)
    as (o & w2 & Hrun' & Hh & Hr).
  rewrite Hrun in Hrun'. injection Hrun' as <- <-.
  destruct u. destruct (Hr eq_refl) as (td & Htd & Hrd).
  exists rs, td. by repeat split.
Qed.

End IndexFacts.

(* ===================================================================== *)
(** ** Index and feed: theorems *)
(* ===================================================================== *)

Section IndexTheorems.
Context {Template datetime fs : Type} `{!Env Template datetime fs}.
#[local] Abbreviation world := (@world Template fs).
#[local] Abbreviation M := (@M Template fs).

Lemma item_params_summary site_params page_dict summary :
  item_summary page_dict = Ok summary →
  ∃ p, item_params site_params page_dict = Ok p ∧
       p !! "summary" = Some summary.
Proof.
  intros Hs. unfold item_params. rewrite Hs. eexists. split; [done|].
  by rewrite lookup_insert_eq.
Qed.

(** C6, as amended. The [summary] parameter of an item is its [summary]
    field when that field is there and true in Python's sense (for a
    text: not empty); failing that, its [description] field when that one
    is there and true; failing both, the truncation of its body to 25
    words.  These are the parameters [make_index] renders the item layout
    with: a run of its loop that returns has rendered the item layout
    once per page, in the order of the pages, each time with the
    parameters of that page; and the loop returns whenever the
    parameters of every page can be computed and every render returns. *)
Theorem make_index_summary (site_params page_dict : gmap string value) :
  let summary := dict_get page_dict "summary" in
  let description := dict_get page_dict "description" in
  (truthy summary = true →
   ∃ p, item_params site_params page_dict = Ok p ∧
        p !! "summary" = Some summary)
  ∧
  (truthy summary = false → truthy description = true →
   ∃ p, item_params site_params page_dict = Ok p ∧
        p !! "summary" = Some description)
  ∧
  (truthy summary = false → truthy description = false →
   ∀ body, page_dict !! "content" = Some (VStr body) →
   ∃ p, item_params site_params page_dict = Ok p ∧
        p !! "summary" = Some (VStr (truncate body (Some 25%Z))))
  ∧
  (∀ pages il ref items (w : world),
     (∀ r w',
        make_index_loop pages il ref items w = (Ok r, w') →
        ∃ rs,
          item_renders il (default ∅ (heap w !! ref)) pages rs ∧
          r = items ++ rs.*2 ∧
          rendered w' = rendered w ++ (pair il <$> rs.*1))
     ∧
     (∀ rs,
        item_renders il (default ∅ (heap w !! ref)) pages rs →
        make_index_loop pages il ref items w =
        (Ok (items ++ rs.*2),
         World (heap w) (disk w) (console w)
               (rendered w ++ (pair il <$> rs.*1))))).
Proof.
  intros summary description. split; [|split; [|split]].
  - intros Hs. apply item_params_summary. unfold item_summary.
    fold summary. by rewrite Hs.
  - intros Hs Hd. apply item_params_summary. unfold item_summary.
    fold summary description. by rewrite Hs, Hd.
  - intros Hs Hd body Hbody. apply item_params_summary. unfold item_summary.
    fold summary description. by rewrite Hs, Hd, Hbody.
  - intros pages il ref items w. split.
    + intros r w' Hrun.
      apply make_index_loop_inv in Hrun as (rs & Hrs & -> & ->).
      by exists rs.
    + intros rs Hrs. by apply make_index_loop_run.
Qed.

End IndexTheorems.

(** C6, as stated, fails on a header that declares an empty summary: the
    field is there, and the item gets its description instead. *)
Lemma make_index_summary_counterexample :
  ∃ header e,
    read_header Sample.empty_summary = Ok (header, e) ∧
    header !! "summary" = Some EmptyString ∧
    ∃ p, item_params ∅ (<["content" := VStr "Body"]> (VStr <$> header)) = Ok p ∧
         p !! "summary" = Some (VStr "About").
Proof.
  exists {[ "summary" := EmptyString; "description" := "About" ]}, 36.
  split; [reflexivity|]. split; [reflexivity|].
  eexists. split; reflexivity.
Qed.

Lemma make_index_summary_witness :
  (∃ p, item_params ∅ {[ "summary" := VStr "Short"; "content" := VStr "Body" ]}
        = Ok p ∧
        p !! "summary" = Some (VStr "Short"))
  ∧
  (∃ p, item_params ∅ {[ "description" := VStr "About";
                         "content" := VStr "Body" ]} = Ok p ∧
        p !! "summary" = Some (VStr "About"))
  ∧
  (∃ p, item_params ∅ {[ "content" := VStr "<p>Some body</p>" ]} = Ok p ∧
        p !! "summary" = Some (VStr "Some body"))
  ∧
  (make_index_loop [Demo.page0] "item.html" 0 [] Demo.world_ref).1
  = Ok ["item.htmlnote"].
Proof.
  split; [|split; [|split]].
  - destruct (proj1 (make_index_summary (Template := string) (datetime := string)
                       (fs := list (string * string)) ∅
                       {[ "summary" := VStr "Short"; "content" := VStr "Body" ]}))
      as (p & Hp & Hs); [vm_compute; reflexivity|].
    exists p. split; [exact Hp|]. rewrite Hs. vm_compute. reflexivity.
  - destruct (proj1 (proj2 (make_index_summary (Template := string)
                       (datetime := string) (fs := list (string * string)) ∅
                       {[ "description" := VStr "About"; "content" := VStr "Body" ]})))
      as (p & Hp & Hs); [vm_compute; reflexivity..|].
    exists p. split; [exact Hp|]. rewrite Hs. vm_compute. reflexivity.
  - pose proof (proj1 (proj2 (proj2 (make_index_summary (Template := string)
                       (datetime := string) (fs := list (string * string)) ∅
                       ({[ "content" := VStr "<p>Some body</p>" ]}
                          : gmap string value)))))
      as Hthird.
    edestruct Hthird as (p & Hp & Hs); [vm_compute; reflexivity..|].
    exists p. split; [exact Hp|]. rewrite Hs. vm_compute. reflexivity.
  - rewrite (proj2 (proj2 (proj2 (proj2 (make_index_summary ∅ ∅)))
                      [Demo.page0] "item.html" 0 [] Demo.world_ref)
               [(<["summary" := VStr "Body"]> (Demo.page0 ∪ Demo.params0),
                 "item.htmlnote")]); [reflexivity|].
    constructor; [|constructor]. split; [reflexivity|]. split; reflexivity.
Defined.

(* ===================================================================== *)
(** ** Orchestrator: the shared directory parameters *)
(* ===================================================================== *)

Section SiteTheorems.
Context {Template datetime fs : Type} `{!Env Template datetime fs}.
#[local] Abbreviation world := (@world Template fs).
#[local] Abbreviation M := (@M Template fs).

Lemma new_dir_params_inv output_subdir title meta site_params (w : world) ref w' :
  new_dir_params output_subdir title meta site_params w = (Ok ref, w') →
  rendered w' = rendered w ∧ ∃ dp, heap w' = <[ref := dp]> (heap w).
Proof.
  unfold new_dir_params.
  destruct (_ || _); [done|]. unfold alloc. intros [= <- <-]. simpl.
  split; [done|]. by eexists.
Qed.

Lemma make_pages_inv pattern dest default_layout site_params jinja_env
    (w : world) r w' :
  make_pages pattern dest default_layout site_params jinja_env w = (Ok r, w') →
  heap w' = heap w.
Proof.
  unfold make_pages. intros Hrun.
  apply run_bind_inv in Hrun as (files & wa & ->%expand_files_inv & Hrun).
  apply run_bind_inv in Hrun as (items & wb & Hloop & Hrun).
  apply (make_pages_loop_inv (λ _, True)) in Hloop as [Hh _]; [|done].
  rewrite run_lift in Hrun. by injection Hrun as _ <-.
Qed.

Lemma index_params_content fc site_params items :
  index_params fc site_params items !! "content"
  = Some (VStr (Str.join EmptyString items)).
Proof. unfold index_params. by rewrite lookup_insert_eq. Qed.

Lemma index_params_front f site_params items :
  f ≠ ∅ →
  index_params (Some f) site_params items !! "front_content"
  = Some (default (VStr EmptyString) (f !! "content")).
Proof.
  intros Hf. unfold index_params. rewrite lookup_insert_ne by done.
  rewrite bool_decide_eq_false_2 by done. by rewrite lookup_insert_eq.
Qed.

Lemma index_params_other fc site_params items k :
  k ≠ "content" → k ≠ "front_content" →
  index_params fc site_params items !! k = site_params !! k.
Proof.
  intros Hc Hf. unfold index_params. rewrite lookup_insert_ne by done.
  destruct fc as [f|]; [|done]. case_bool_decide; [done|].
  by rewrite lookup_insert_ne.
Qed.

(** C10. [make_index] writes into the mapping behind the reference it is
    given: once the items are rendered, that is when the parameters of
    every page can be computed and every render of the item layout
    returns, the mapping holds afterwards, whatever becomes of the rest
    of the call, the joined items under [content], the content of the
    front block under [front_content] when a front block that is not
    empty is given, and what it held before under every other key; when
    the call returns, the list layout was rendered with that mapping.
    In the body of the directory loop of
    [make_site], with both the index and the feed turned on, the feed
    layout is rendered with the mapping the list layout was rendered
    with, [content] overwritten and nothing else: the [front_content] of
    the index pass is there in the feed pass. *)
Theorem make_index_shares_params :
  (∀ fc pages dest ll il ref (w : world) rs,
     item_renders il (default ∅ (heap w !! ref)) pages rs →
     ∃ o w' P,
       make_index fc pages dest ll il ref w = (o, w') ∧
       heap w' !! ref = Some P ∧
       P !! "content" = Some (VStr (Str.join EmptyString rs.*2)) ∧
       (∀ f, fc = Some f → f ≠ ∅ →
             P !! "front_content"
             = Some (default (VStr EmptyString) (f !! "content"))) ∧
       (∀ k, k ≠ "content" → k ≠ "front_content" →
             P !! k = default ∅ (heap w !! ref) !! k) ∧
       (o = Ok tt → (ll, P) ∈ rendered w'))
  ∧
  (∀ fc pages dest ll il ref (w w' : world),
     make_index fc pages dest ll il ref w = (Ok tt, w') →
     ∃ rs P,
       item_renders il (default ∅ (heap w !! ref)) pages rs ∧
       heap w' !! ref = Some P ∧
       P !! "content" = Some (VStr (Str.join EmptyString rs.*2)) ∧
       (∀ f, fc = Some f → f ≠ ∅ →
             P !! "front_content"
             = Some (default (VStr EmptyString) (f !! "content"))) ∧
       (ll, P) ∈ rendered w')
  ∧
  (∀ all layout content output ls site_params d fields (w w' : world),
     to_bool (assoc_get fields "generate_index" VNone) = true →
     to_bool (assoc_get fields "generate_rss" VNone) = true →
     make_site_dir all layout content output ls site_params d (VDict fields) w
       = (Ok tt, w') →
     ∃ ref fc (wa wb : world) P_index P_feed feed_items,
       render_page (content +:+ "/" +:+ d +:+ "/_index.{md,html}")
                   site_params wa = (Ok fc, wb) ∧
       (list_layout ls, P_index) ∈ rendered w' ∧
       (feed_xml ls, P_feed) ∈ rendered w' ∧
       heap w' !! ref = Some P_feed ∧
       P_feed = <["content" := VStr feed_items]> P_index ∧
       P_feed !! "front_content" = P_index !! "front_content" ∧
       (∀ f, fc = Some f → f ≠ ∅ →
             P_feed !! "front_content"
             = Some (default (VStr EmptyString) (f !! "content")))).
Proof.
  split; [|split].
  - intros fc pages dest ll il ref w rs Hrs.
    destruct (make_index_run fc pages dest ll il ref w rs Hrs)
      as (o & w' & Hrun & Hh & Hr).
    eexists o, w', _. split; [exact Hrun|]. split.
    { rewrite Hh. apply lookup_insert_eq. }
    split; [apply index_params_content|]. split.
    { intros f -> Hf. by apply index_params_front. }
    split; [intros k Hc Hf; by apply index_params_other|].
    intros Ho. destruct (Hr Ho) as (td & _ & ->).
    rewrite !elem_of_app, elem_of_cons. right. right. by left.
  - intros fc pages dest ll il ref w w' Hrun.
    apply make_index_inv in Hrun as (rs & td & Hrs & _ & Hh & Hr).
    eexists rs, _. split; [exact Hrs|]. split.
    { rewrite Hh. apply lookup_insert_eq. }
    split; [apply index_params_content|]. split.
    { intros f -> Hf. by apply index_params_front. }
    rewrite Hr, !elem_of_app, elem_of_cons. right. right. by left.
  - intros all layout content output ls site_params d fields w w' Hgi Hgr Hrun.
    unfold make_site_dir in Hrun.
    apply run_bind_inv in Hrun as (fields' & w0 & Hf & Hrun).
    rewrite run_ret in Hf. injection Hf as <- <-.
    cbv zeta in Hrun. rewrite Hgi, Hgr in Hrun.
    apply run_bind_inv in Hrun as (u1 & w1 & Hlog1 & Hrun).
    apply run_bind_inv in Hrun as (ref & w2 & Hnew & Hrun).
    apply run_bind_inv in Hrun as (dp & w3 & Hdp & Hrun).
    injection Hdp as _ <-.
    apply run_bind_inv in Hrun as (content_pages & w4 & Hpages & Hrun).
    apply run_bind_inv in Hrun as (u2 & w5 & Hindex & Hrss).
    apply run_bind_inv in Hindex as (u3 & w4a & Hlog2 & Hindex).
    apply run_bind_inv in Hindex as (fc & w4b & Hfront & Hindex).
    apply run_bind_inv in Hindex as (u4 & w4c & Hlog3 & Hindex).
    apply make_index_inv in Hindex as (rs1 & td1 & _ & _ & Hh5 & Hr5).
    apply run_bind_inv in Hrss as (u5 & w5a & Hlog4 & Hrss).
    apply log_info_inv in Hlog4 as (Hh5a & _ & Hr5a).
    apply make_index_inv in Hrss as (rs2 & td2 & _ & _ & Hh' & Hr').
    cbv zeta in Hh5, Hr5, Hh', Hr'.
    set (P_index := index_params fc (default ∅ (heap w4c !! ref)) rs1.*2) in *.
    assert (default ∅ (heap w5a !! ref) = P_index) as Hshared.
    { rewrite Hh5a, Hh5. by rewrite lookup_insert_eq. }
    rewrite Hshared in Hh', Hr'.
    set (feed_items := Str.join EmptyString rs2.*2).
    exists ref, fc, w4a, w4b, P_index,
      (<["content" := VStr feed_items]> P_index), feed_items.
    split; [exact Hfront|]. split.
    { rewrite Hr', Hr5a, Hr5, !elem_of_app, !elem_of_cons.
      left. right. right. by left. }
    split.
    { rewrite Hr', !elem_of_app, !elem_of_cons. right. right. by left. }
    split; [rewrite Hh'; apply lookup_insert_eq|].
    split; [done|]. split; [by rewrite lookup_insert_ne|].
    intros f -> Hf. rewrite lookup_insert_ne by done.
    by apply index_params_front.
Qed.

End SiteTheorems.

Lemma make_index_shares_params_witness :
  (∃ o w' P,
     make_index (Some {[ "content" := VStr "Front" ]}) [Demo.page0]
                "out/index.html" "list.html" "item.html" 0 Demo.world_ref
       = (o, w') ∧
     heap w' !! 0 = Some P ∧
     P !! "content" = Some (VStr "item.htmlnote") ∧
     P !! "front_content" = Some (VStr "Front") ∧
     P !! "author" = Some (VStr "Admin"))
  ∧
  ∃ w' ref P_index P_feed feed_items,
    make_site_dir false "layout" "content" "out" Demo.layouts0 Demo.params0
                  "blog" Demo.blog Demo.world0 = (Ok tt, w') ∧
    ("list.html", P_index) ∈ rendered w' ∧
    ("feed.xml", P_feed) ∈ rendered w' ∧
    heap w' !! ref = Some P_feed ∧
    P_feed = <["content" := VStr feed_items]> P_index ∧
    P_feed !! "front_content" = P_index !! "front_content".
Proof.
  split.
  { destruct (proj1 make_index_shares_params
                (Some {[ "content" := VStr "Front" ]}) [Demo.page0]
                "out/index.html" "list.html" "item.html" 0 Demo.world_ref
                [(<["summary" := VStr "Body"]> (Demo.page0 ∪ Demo.params0),
                  "item.htmlnote")])
      as (o & w' & P & Hrun & Hheap & Hcontent & Hfront & Hother & _).
    { constructor; [|constructor]. split; [reflexivity|]. split; reflexivity. }
    exists o, w', P. split; [exact Hrun|]. split; [exact Hheap|].
    split; [exact Hcontent|]. split.
    - apply (Hfront _ eq_refl). intros Hempty.
      apply (f_equal (λ m : gmap string value, m !! "content")) in Hempty.
      discriminate Hempty.
    - rewrite (Hother "author") by discriminate. reflexivity. }
  assert (match (make_site_dir false "layout" "content" "out" Demo.layouts0
                   Demo.params0 "blog" Demo.blog Demo.world0).1 with
          | Ok _ => true
          | _ => false
          end = true) as Hok by (vm_compute; reflexivity).
  destruct (make_site_dir false "layout" "content" "out" Demo.layouts0
              Demo.params0 "blog" Demo.blog Demo.world0)
    as [[[]|e|c] w'] eqn:Hrun; [|discriminate Hok..].
  destruct (proj2 (proj2 make_index_shares_params) false "layout" "content" "out"
              Demo.layouts0 Demo.params0 "blog"
              [("generate_index", VBool true); ("generate_rss", VStr "yes")]
              Demo.world0 w' eq_refl eq_refl Hrun)
    as (ref & fc & wa & wb & P_index & P_feed & feed_items
        & _ & Hlist & Hfeed & Hheap & Heq & Hfront & _).
  exists w', ref, P_index, P_feed, feed_items.
  split; [reflexivity|]. split; [exact Hlist|]. split; [exact Hfeed|].
  split; [exact Hheap|]. split; [exact Heq|exact Hfront].
Defined.

(** The run above, observed: the mapping of the directory holds the
    rendered front page under [front_content] when the feed pass is
    over. *)
Example make_site_dir_front_content :
  default ∅ (heap (make_site_dir false "layout" "content" "out" Demo.layouts0
                     Demo.params0 "blog" Demo.blog Demo.world0).2 !! 0)
    !! "front_content"
  = Some (VStr "Front_index").
Proof. vm_compute. reflexivity. Qed.

(* ===================================================================== *)
(** ** Further properties: the header parser *)
(* ===================================================================== *)

Module StripFacts.
Import Str StrFacts.

Lemma rstrip_idem s : rstrip (rstrip s) = rstrip s.
Proof.
  induction s as [|a s IH]; [done|]. simpl.
  destruct (isspace a && is_empty (rstrip s)) eqn:Hc; [done|].
  simpl. by rewrite IH, Hc.
Qed.

Lemma lstrip_head s :
  lstrip s = EmptyString ∨ ∃ a t, lstrip s = String a t ∧ isspace a = false.
Proof.
  induction s as [|a s IH]; simpl; [by left|].
  destruct (isspace a) eqn:Ha; [done|]. right. by exists a, s.
Qed.

Lemma lstrip_rstrip_head a t :
  isspace a = false → lstrip (rstrip (String a t)) = rstrip (String a t).
Proof. intros Ha. simpl. rewrite Ha. simpl. by rewrite Ha. Qed.

(** Trimming twice is trimming once. *)
Lemma strip_idem s : strip (strip s) = strip s.
Proof.
  unfold strip. destruct (lstrip_head s) as [->|(a & t & -> & Ha)]; [done|].
  by rewrite lstrip_rstrip_head, rstrip_idem.
Qed.

Lemma mem_lstrip c s : mem c s = false → mem c (lstrip s) = false.
Proof.
  induction s as [|a s IH]; simpl; [done|].
  intros [Ha Hs]%orb_false_iff. destruct (isspace a); [by apply IH|].
  simpl. by rewrite Ha, Hs.
Qed.

Lemma mem_rstrip c s : mem c s = false → mem c (rstrip s) = false.
Proof.
  induction s as [|a s IH]; simpl; [done|].
  intros [Ha Hs]%orb_false_iff.
  destruct (isspace a && is_empty (rstrip s)); [done|].
  simpl. by rewrite Ha, IH.
Qed.

Lemma mem_strip c s : mem c s = false → mem c (strip s) = false.
Proof. intros H. by apply mem_rstrip, mem_lstrip. Qed.

End StripFacts.

Section HeaderMore.
Import Str StrFacts HeaderFacts StripFacts.

Lemma entry_of_shape line k v :
  entry_of line = Some (k, v) →
  strip k = k ∧ strip v = v ∧ mem colon k = false.
Proof.
  unfold entry_of, header_match.
  destruct (cut colon line) as [[g1 after]|] eqn:Hcut; [|done].
  destruct (is_empty g1); [done|].
  destruct (span_not nl after) as [g2 tail].
  apply cut_Some in Hcut as [_ Hg1].
  assert (Some (strip g1, strip g2) = Some (k, v) →
          strip k = k ∧ strip v = v ∧ mem colon k = false) as Hgoal.
  { intros [= <- <-]. rewrite !strip_idem. by rewrite mem_strip. }
  destruct tail as [|? [|? ?]]; [exact Hgoal..|done].
Qed.

Lemma stored_from_entry body values k v :
  stored body values !! k = Some v →
  values !! k = Some v ∨ ∃ line, line ∈ body ∧ entry_of line = Some (k, v).
Proof.
  induction body as [|l body IH] using rev_ind; [by left|].
  rewrite stored_snoc, header_store_entry.
  destruct (entry_of l) as [[k' v']|] eqn:He.
  - destruct (decide (k' = k)) as [->|Hne].
    + rewrite lookup_insert_eq. intros [= ->]. right. exists l.
      split; [|done]. apply elem_of_app. right. by apply list_elem_of_singleton.
    + rewrite lookup_insert_ne by done. intros [?|(line & Hin & Hl)]%IH; [by left|].
      right. exists line. split; [|done]. apply elem_of_app. by left.
  - intros [?|(line & Hin & Hl)]%IH; [by left|].
    right. exists line. split; [|done]. apply elem_of_app. by left.
Qed.

(** A run of the loop that returns has met a closing line. *)
Lemma read_header_loop_inv rest values e values' e' :
  read_header_loop rest values e = Ok (values', e') →
  ∃ body closing after,
    rest = body ++ closing :: after ∧
    Forall (λ l, is_sentinel l = false) body ∧
    is_sentinel closing = true.
Proof.
  revert values e. induction rest as [|l rest IH]; intros values e; simpl; [done|].
  destruct (is_sentinel l) eqn:Hl.
  - intros _. by exists [], l, rest.
  - intros (body & c & after & -> & Hb & Hc)%IH.
    exists (l :: body), c, after. repeat split; [|done]. by constructor.
Qed.

(** X1. Whenever [read_header] returns, every key of the mapping is
    trimmed and free of colons, every value is trimmed, and the offset is
    at most the length of the text plus one; the offset is 0 only for a
    text without header, whose mapping is empty. *)
Theorem read_header_values_trimmed (text : string)
    (values : gmap string string) (e : nat) :
  read_header text = Ok (values, e) →
  (∀ k v, values !! k = Some v →
          strip k = k ∧ strip v = v ∧ mem colon k = false) ∧
  e ≤ String.length text + 1 ∧
  (e = 0 → values = ∅).
Proof.
  unfold read_header. intros Hrun.
  pose proof (join_split nl text) as Hjoin.
  destruct (split nl text) as [|line0 rest] eqn:Hsplit; [done|].
  destruct (is_sentinel line0) eqn:H0.
  2:{ injection Hrun as <- <-. split.
      - intros k v Hk. by rewrite lookup_empty in Hk.
      - split; [lia|done]. }
  pose proof (read_header_loop_inv _ _ _ _ _ Hrun)
    as (body & closing & after & -> & Hb & Hc).
  rewrite read_header_loop_closed in Hrun by done.
  injection Hrun as <- <-. split; [|split].
  - intros k v [Hk|(line & _ & Hl)]%stored_from_entry.
    + by rewrite lookup_empty in Hk.
    + by eapply entry_of_shape.
  - rewrite <- Hjoin at 1.
    change (line0 :: body ++ closing :: after)
      with ((line0 :: body) ++ closing :: after).
    rewrite join_app.
    assert (String.length (join (String nl EmptyString) ((line0 :: body) ++ [closing])) + 1
            = String.length line0 + 1 + lines_length (body ++ [closing])) as Hlen.
    { rewrite length_join_lines by (by destruct body). done. }
    destruct after as [|a after].
    + simpl in *. lia.
    + rewrite !length_sapp. simpl in *. lia.
  - simpl. lia.
Qed.

Lemma read_header_values_trimmed_witness :
  (∀ k v, ({[ "title" := "Ho" ]} : gmap string string) !! k = Some v →
          strip k = k ∧ strip v = v ∧ mem colon k = false) ∧
  35 ≤ String.length Sample.post + 1 ∧
  (35 = 0 → ({[ "title" := "Ho" ]} : gmap string string) = ∅).
Proof.
  apply (read_header_values_trimmed Sample.post {[ "title" := "Ho" ]} 35).
  reflexivity.
Defined.

End HeaderMore.

(* ===================================================================== *)
(** ** Further properties: file names, truncation, flags *)
(* ===================================================================== *)

Module NameFacts.
Import Str StrFacts HeaderFacts Path PathFacts.

Lemma basename_no_slash p : mem slash (basename p) = false.
Proof.
  induction p as [|c p IH]; [done|]. simpl.
  destruct (mem slash p) eqn:Hp; [done|].
  destruct (Ascii.eqb c slash) eqn:Hc; [done|]. simpl. by rewrite Hc, Hp.
Qed.

Lemma mem_split x sep s :
  mem x s = false → Forall (λ l, mem x l = false) (split sep s).
Proof.
  induction s as [|a s IH]; simpl.
  - by repeat constructor.
  - intros [Ha Hs]%orb_false_iff. specialize (IH Hs).
    destruct (Ascii.eqb a sep); [by constructor|].
    destruct (split sep s) as [|l ls].
    + repeat constructor. simpl. by rewrite Ha.
    + inversion IH; subst. constructor; [|done]. simpl. by rewrite Ha.
Qed.

Lemma span_not_spec c s l r :
  span_not c s = (l, r) → s = l +:+ r ∧ mem c l = false.
Proof.
  revert l r. induction s as [|a s IH]; intros l r; simpl.
  - by intros [= <- <-].
  - destruct (Ascii.eqb a c) eqn:Ha; [by intros [= <- <-]|].
    destruct (span_not c s) as [l' r']. intros [= <- <-].
    destruct (IH l' r' eq_refl) as [-> Hl]. split; [done|].
    simpl. by rewrite Ha.
Qed.

Lemma rest_of_line_spec s g :
  rest_of_line s = Some g →
  g ≠ EmptyString ∧ mem nl g = false ∧ ∃ r, s = g +:+ r.
Proof.
  unfold rest_of_line. destruct (span_not nl s) as [l r] eqn:Hspan.
  apply span_not_spec in Hspan as [-> Hl].
  destruct (is_empty l) eqn:He; [done|]. apply is_empty_false in He.
  intros Hg. assert (g = l) as ->.
  { destruct r as [|? [|? ?]]; by simplify_eq. }
  repeat split; [done..|]. by exists r.
Qed.

Lemma mem_app_false x s t :
  mem x (s +:+ t) = false → mem x s = false ∧ mem x t = false.
Proof. rewrite mem_app. by intros ?%orb_false_iff. Qed.

(** The groups of a match: the slug is not empty, holds no line feed and
    no character the stem does not hold; the date, when there is one, is
    of the shape of a date. *)
Lemma date_slug_match_spec s g1 g2 :
  date_slug_match s = Some (g1, g2) →
  g2 ≠ EmptyString ∧ mem nl g2 = false ∧
  (∀ x, mem x s = false → mem x g2 = false) ∧
  (∀ d, g1 = Some d → date_shaped d = true).
Proof.
  unfold date_slug_match.
  assert (∀ g, rest_of_line s = Some g →
            g ≠ EmptyString ∧ mem nl g = false ∧
            (∀ x, mem x s = false → mem x g = false)) as Hplain.
  { intros g (Hne & Hnl & r & ->)%rest_of_line_spec. repeat split; [done..|].
    intros x Hx. by apply mem_app_false in Hx as [? _]. }
  destruct (date_prefix s) as [[d rest]|] eqn:Hp.
  - apply date_prefix_inv in Hp as [Hs Hd].
    destruct (rest_of_line rest) as [g|] eqn:Hr.
    + intros [= <- <-].
      apply rest_of_line_spec in Hr as (Hne & Hnl & r & ->).
      repeat split; [done..| |by intros ? [= <-]].
      intros x Hx. rewrite Hs in Hx.
      apply mem_app_false in Hx as [_ Hx]. simpl in Hx.
      apply orb_false_iff in Hx as [_ Hx].
      by apply mem_app_false in Hx as [? _].
    + destruct (rest_of_line s) as [g|] eqn:Hr'; [|done].
      intros [= <- <-]. destruct (Hplain g eq_refl) as (? & ? & ?).
      repeat split; done.
  - destruct (rest_of_line s) as [g|] eqn:Hr'; [|done].
    intros [= <- <-]. destruct (Hplain g eq_refl) as (? & ? & ?).
    repeat split; done.
Qed.

Lemma stem_clean filename :
  mem dot (stem filename) = false ∧ mem slash (stem filename) = false.
Proof.
  unfold stem, name_parts.
  pose proof (split_no_sep dot (basename filename)) as Hdot.
  pose proof (mem_split slash dot _ (basename_no_slash filename)) as Hslash.
  destruct (split dot (basename filename)) as [|x rest]; [done|].
  apply Forall_cons in Hdot as [? _]. apply Forall_cons in Hslash as [? _].
  done.
Qed.

End NameFacts.

Section NameTheorems.
Import Str StrFacts Path PathFacts NameFacts.

(** X2. What [read_content] takes from a file name is nothing at all, or
    a [date] of the shape YYYY-MM-DD together with a [slug] that is not
    empty and holds no dot, no slash and no line feed. *)
Theorem filename_params_wellformed (filename : string) :
  ∃ from_name,
    filename_params filename = Ok from_name ∧
    (from_name = ∅ ∨
     ∃ d s,
       from_name = {[ "date" := VStr d; "slug" := VStr s ]} ∧
       date_shaped d = true ∧ s ≠ EmptyString ∧
       mem dot s = false ∧ mem slash s = false ∧ mem nl s = false).
Proof.
  rewrite filename_params_stem.
  destruct (date_slug_match (stem filename)) as [[g1 g2]|] eqn:Hm.
  2:{ exists ∅. split; [done|]. by left. }
  destruct (date_slug_match_spec _ _ _ Hm) as (Hne & Hnl & Hsub & Hdate).
  destruct (stem_clean filename) as [Hdot Hslash].
  eexists. split; [done|]. right. eexists _, g2. split; [done|].
  split; [|by auto].
  destruct g1 as [d|]; [|done]. specialize (Hdate d eq_refl).
  pose proof (date_shaped_nonempty _ Hdate) as Hd.
  apply is_empty_false in Hd. by rewrite Hd.
Qed.

End NameTheorems.

Module TruncateFacts.
Import Str StrFacts Text TextFacts.
#[local] Arguments Ascii.eqb : simpl never.

Lemma replace_absent a b s : mem a s = false → replace a b s = s.
Proof.
  induction s as [|c s IH]; [done|]. simpl.
  intros [Hc Hs]%orb_false_iff. by rewrite Hc, IH.
Qed.

Lemma sub_tags_tag_free s : tag_free s = true → sub_tags false s = s.
Proof.
  induction s as [|c s IH]; [done|]. simpl.
  intros [Hc Hs]%andb_true_iff. rewrite IH by done.
  destruct (Ascii.eqb c lt); [|done].
  apply negb_true_iff in Hc. by rewrite Hc.
Qed.

Lemma token_head t :
  is_token t → ∃ c t', t = String c t' ∧ isspace c = false.
Proof.
  intros [Hne Hsp]. destruct t as [|c t']; [done|].
  exists c, t'. split; [done|]. apply Hsp. simpl. by rewrite Ascii.eqb_refl.
Qed.

Lemma token_tail c c' t :
  is_token (String c (String c' t)) → is_token (String c' t).
Proof.
  intros [_ Hsp]. split; [done|]. intros x Hx. apply Hsp.
  simpl in *. by rewrite Hx, orb_true_r.
Qed.

(** A token in front of something that does not go on the word. *)
Lemma words_token_app t s :
  is_token t → starts_word s = false → words (t +:+ s) = t :: words s.
Proof.
  induction t as [|c t IH]; intros Ht Hs; [by destruct Ht|].
  destruct (token_head _ Ht) as (? & ? & [= <- <-] & Hc).
  rewrite sapp_cons. simpl. rewrite Hc.
  destruct t as [|c' t].
  - rewrite sapp_nil_l. by rewrite Hs.
  - pose proof (token_tail _ _ _ Ht) as Ht'.
    destruct (token_head _ Ht') as (? & ? & [= <- <-] & Hc').
    rewrite sapp_cons. simpl starts_word. rewrite Hc'. simpl negb.
    rewrite <- sapp_cons. by rewrite IH.
Qed.

(** Splitting a join of tokens gives the tokens back. *)
Lemma words_join tokens :
  Forall is_token tokens → words (join " " tokens) = tokens.
Proof.
  induction 1 as [|t ts Ht Hts IH]; [done|].
  destruct ts as [|t' ts].
  - simpl join. rewrite <- (sapp_nil_r t) at 1.
    by rewrite words_token_app.
  - rewrite join_cons. rewrite words_token_app; [|done|done].
    f_equal. rewrite sapp_cons, sapp_nil_l. simpl words at 1.
    replace (isspace " ") with true by done. exact IH.
Qed.

Lemma mem_join c (tokens : list string) :
  Ascii.eqb " " c = false →
  Forall (λ t, mem c t = false) tokens → mem c (join " " tokens) = false.
Proof.
  intros Hc. induction 1 as [|t ts Ht Hts IH]; [done|].
  destruct ts as [|t' ts]; [done|].
  rewrite join_cons, !mem_app, Ht, IH. simpl. by rewrite Hc.
Qed.

Lemma token_no_nl t : is_token t → mem nl t = false.
Proof.
  intros [_ H]. destruct (mem nl t) eqn:Hm; [|done].
  apply H in Hm. by vm_compute in Hm.
Qed.

(** [truncate] with a limit that is not negative. *)
Lemma truncate_nonneg text n :
  (0 ≤ n)%Z →
  truncate text (Some n)
  = join " " (take (Z.to_nat n)
                (words (sub_tags false
                          (replace nl space (replace dquote squote text))))).
Proof.
  intros Hn. unfold truncate, slice_to. simpl default.
  destruct (0 <=? n)%Z eqn:Hle; [done|]. apply Z.leb_gt in Hle. lia.
Qed.

Lemma join_take_no_dquote text k :
  mem dquote
    (join " " (take k (words (sub_tags false
                                (replace nl space (replace dquote squote text))))))
  = false.
Proof.
  destruct (join_take_prefix " " k
              (words (sub_tags false
                        (replace nl space (replace dquote squote text)))))
    as [rest Hrest].
  apply (mem_app_l _ _ rest). rewrite <- Hrest.
  apply (mem_spaced dquote); [by vm_compute|].
  apply mem_sub_tags; [by vm_compute|].
  apply mem_replace_other; [by vm_compute|].
  apply mem_replace_gone. by vm_compute.
Qed.

Lemma join_take_tag_free text k :
  tag_free
    (join " " (take k (words (sub_tags false
                                (replace nl space (replace dquote squote text))))))
  = true.
Proof.
  destruct (join_take_prefix " " k
              (words (sub_tags false
                        (replace nl space (replace dquote squote text)))))
    as [rest Hrest].
  apply (tag_free_app_l _ rest). rewrite <- Hrest.
  apply (tag_free_spaced (sub_tags false _)), tag_free_sub_tags.
Qed.

End TruncateFacts.

Section TruncateMore.
Import Str StrFacts Text TextFacts TruncateFacts.

(** X3. Truncating what was truncated picks the smaller limit: for
    limits [n, m >= 0], [truncate(truncate(text, n), m)] is
    [truncate(text, min(n, m))]; in particular truncating twice with the
    same limit changes nothing. *)
Theorem truncate_truncate (text : string) (n m : Z) :
  (0 ≤ n)%Z → (0 ≤ m)%Z →
  truncate (truncate text (Some n)) (Some m)
  = truncate text (Some (Z.min n m)) ∧
  truncate (truncate text (Some n)) (Some n) = truncate text (Some n).
Proof.
  intros Hn Hm.
  assert (∀ k, (0 ≤ k)%Z →
            truncate (truncate text (Some n)) (Some k)
            = truncate text (Some (Z.min n k))) as Hgen.
  { intros k Hk.
    rewrite (truncate_nonneg text n Hn).
    rewrite (truncate_nonneg text (Z.min n k)) by lia.
    set (plain := sub_tags false
                    (replace nl space (replace dquote squote text))).
    assert (Forall is_token (take (Z.to_nat n) (words plain))) as Hall
      by apply Forall_take, words_tokens.
    rewrite truncate_nonneg by done.
    rewrite (replace_absent dquote) by apply join_take_no_dquote.
    rewrite (replace_absent nl).
    2:{ apply mem_join; [done|].
        eapply Forall_impl; [exact Hall|]. apply token_no_nl. }
    rewrite sub_tags_tag_free by apply join_take_tag_free.
    rewrite words_join by done. rewrite take_take. do 2 f_equal.
    rewrite Z2Nat.inj_min. lia. }
  split; [by apply Hgen|].
  rewrite Hgen by done. by rewrite Z.min_id.
Qed.

Lemma truncate_truncate_witness :
  truncate (truncate "<p>one <b>two</b> three four</p>" (Some 3%Z)) (Some 2%Z)
  = truncate "<p>one <b>two</b> three four</p>" (Some (Z.min 3 2)) ∧
  truncate (truncate "<p>one <b>two</b> three four</p>" (Some 3%Z)) (Some 3%Z)
  = truncate "<p>one <b>two</b> three four</p>" (Some 3%Z).
Proof. apply truncate_truncate; lia. Defined.

End TruncateMore.

Section FlagTheorems.

Lemma lower_char_idem c : Lower.lower_char (Lower.lower_char c) = Lower.lower_char c.
Proof. destruct c as [[] [] [] [] [] [] [] []]; reflexivity. Qed.

Lemma lower_idem s : Lower.lower (Lower.lower s) = Lower.lower s.
Proof.
  induction s as [|c s IH]; [done|]. simpl. by rewrite lower_char_idem, IH.
Qed.

(** X4. [to_bool] does not look at the case of the letters of a text,
    and a flag that a directory entry does not mention is off. *)
Theorem to_bool_flags :
  (∀ s, to_bool (VStr (Lower.lower s)) = to_bool (VStr s)) ∧
  (∀ fields key,
     (∀ v, (key, v) ∉ fields) →
     to_bool (assoc_get fields key VNone) = false).
Proof.
  split.
  - intros s. simpl. by rewrite lower_idem.
  - intros fields key Hkey. induction fields as [|[k v] fields IH]; [done|].
    simpl. destruct (String.eqb k key) eqn:Hk.
    + apply String.eqb_eq in Hk as ->. exfalso. apply (Hkey v).
      apply list_elem_of_here.
    + apply IH. intros v' Hin. apply (Hkey v'). by apply list_elem_of_further.
Qed.

Lemma to_bool_flags_witness :
  to_bool (assoc_get [("slug", VStr "b"); ("generate_index", VStr "YES")]
                     "generate_rss" VNone) = false.
Proof.
  apply (proj2 to_bool_flags). intros v Hin.
  apply elem_of_cons in Hin as [[=]|Hin].
  apply elem_of_cons in Hin as [[=]|Hin].
  by apply elem_of_nil in Hin.
Defined.

End FlagTheorems.

(* ===================================================================== *)
(** ** Further properties: files and pages *)
(* ===================================================================== *)

Section FilesMore.
Context {Template datetime fs : Type} `{!Env Template datetime fs}.
#[local] Abbreviation world := (@world Template fs).
#[local] Abbreviation M := (@M Template fs).

Lemma slice_to_Forall {A} (P : A → Prop) n (l : list A) :
  Forall P l → Forall P (Text.slice_to n l).
Proof. intros Hl. unfold Text.slice_to. destruct (0 <=? n)%Z; by apply Forall_take. Qed.

Lemma expand_foldl_Forall (P : string → Prop) (d : fs) ps acc :
  Forall P acc →
  (∀ p f, p ∈ ps → f ∈ glob d p → os_isfile d f = true → P f) →
  Forall P (foldl (λ result p,
                     result ++ filter (λ f, os_isfile d f = true) (glob d p))
                  acc ps).
Proof.
  revert acc. induction ps as [|p ps IH]; intros acc Hacc HP; [done|].
  simpl. apply IH.
  - apply Forall_app. split; [done|]. apply Forall_forall.
    intros f [Hf Hin]%list_elem_of_filter. eapply HP; [|done..].
    apply list_elem_of_here.
  - intros p' f Hin. apply HP. by apply list_elem_of_further.
Qed.

Lemma filter_isfile_nil (d : fs) (l : list string) :
  (∀ f, f ∈ l → os_isfile d f = false) →
  filter (λ f, os_isfile d f = true) l = [].
Proof.
  induction l as [|f l IH]; intros Hno; [done|].
  rewrite filter_cons. destruct (decide (os_isfile d f = true)) as [Hf|_].
  - rewrite (Hno f) in Hf; [done|apply list_elem_of_here].
  - apply IH. intros f' Hin. apply Hno. by apply list_elem_of_further.
Qed.

Lemma expand_foldl_nil (d : fs) ps :
  (∀ p f, p ∈ ps → f ∈ glob d p → os_isfile d f = false) →
  foldl (λ result p, result ++ filter (λ f, os_isfile d f = true) (glob d p))
        [] ps = [].
Proof.
  induction ps as [|p ps IH]; intros Hno; [done|]. simpl.
  rewrite filter_isfile_nil.
  - apply IH. intros p' f Hin. apply Hno. by apply list_elem_of_further.
  - intros f Hin. eapply Hno; [|done]. apply list_elem_of_here.
Qed.

Lemma expand_files_run pattern n (w : world) :
  expand_files pattern n w =
  (Ok (let result :=
         foldl (λ result p,
                  result ++ filter (λ f, os_isfile (disk w) f = true)
                                   (glob (disk w) p))
               [] (braceexpand pattern) in
       if (n =? 0)%Z then result else Text.slice_to n result), w).
Proof. reflexivity. Qed.

(** X5. [expand_files] leaves the world as it is; every path it returns
    is a file that one of the expansions of the pattern matches; with a
    positive [max_results] it returns that many paths at most. *)
Theorem expand_files_files (pattern : string) (n : Z) (w : world) :
  ∃ files,
    expand_files pattern n w = (Ok files, w) ∧
    Forall (λ f, os_isfile (disk w) f = true ∧
                 ∃ p, p ∈ braceexpand pattern ∧ f ∈ glob (disk w) p) files ∧
    ((0 < n)%Z → length files ≤ Z.to_nat n).
Proof.
  rewrite expand_files_run. eexists. split; [done|].
  set (result := foldl _ _ _).
  assert (Forall (λ f, os_isfile (disk w) f = true ∧
                       ∃ p, p ∈ braceexpand pattern ∧ f ∈ glob (disk w) p)
                 result) as Hall.
  { apply expand_foldl_Forall; [done|]. intros p f Hp Hf Hfile.
    split; [done|]. by exists p. }
  simpl. split.
  - destruct (n =? 0)%Z; [done|]. by apply slice_to_Forall.
  - intros Hn. destruct (n =? 0)%Z eqn:H0; [apply Z.eqb_eq in H0; lia|].
    unfold Text.slice_to. destruct (0 <=? n)%Z eqn:Hle.
    + rewrite length_take. lia.
    + apply Z.leb_gt in Hle. lia.
Qed.

(** X6. When no expansion of the pattern matches a file, [make_pages]
    returns the empty list and leaves the world as it is: nothing is
    rendered, written or logged. *)
Theorem make_pages_nothing (pattern dest_path_pattern : string)
    (default_layout : Template) (site_params : gmap string value)
    (jinja_env : string) (w : world) :
  (∀ p f, p ∈ braceexpand pattern → f ∈ glob (disk w) p →
          os_isfile (disk w) f = false) →
  make_pages pattern dest_path_pattern default_layout site_params jinja_env w
  = (Ok [], w).
Proof.
  intros Hno. unfold make_pages.
  erewrite run_bind_ok; [|apply expand_files_run].
  rewrite expand_foldl_nil by done. simpl. done.
Qed.

End FilesMore.

Lemma expand_files_files_witness :
  ∃ files,
    expand_files "content/blog/[!_]*.{md,html}" 2 Demo.world0
      = (Ok files, Demo.world0) ∧
    length files ≤ 2.
Proof.
  destruct (expand_files_files "content/blog/[!_]*.{md,html}" 2 Demo.world0)
    as (files & Hrun & _ & Hlen).
  exists files. split; [exact Hrun|]. apply Hlen. lia.
Defined.

Lemma make_pages_nothing_witness :
  make_pages "drafts/*.{md,html}" "out/{{ slug }}/index.html" "post.html"
             Demo.params0 "layout" Demo.world0 = (Ok [], Demo.world0).
Proof.
  apply make_pages_nothing. intros p f Hp Hf.
  apply elem_of_cons in Hp as [->|Hp]; [|by apply elem_of_nil in Hp].
  vm_compute in Hf. by apply elem_of_nil in Hf.
Defined.

(* ===================================================================== *)
(** ** Further properties: the content reader *)
(* ===================================================================== *)

Section ContainedFacts.
Context {Template datetime fs : Type} `{!Env Template datetime fs}.
#[local] Abbreviation world := (@world Template fs).
#[local] Abbreviation M := (@M Template fs).

Lemma console_only_refl (w : world) : console_only w w.
Proof. by repeat split. Qed.

Lemma console_only_trans (w1 w2 w3 : world) :
  console_only w1 w2 → console_only w2 w3 → console_only w1 w3.
Proof. intros (? & ? & ?) (? & ? & ?). repeat split; congruence. Qed.

Lemma contained_ret {A} (Q : A → Prop) (a : A) : Q a → contained Q (mret a : M A).
Proof.
  intros Ha w. exists (Ok a), w. split; [done|].
  split; [apply console_only_refl|]. split; [done|]. by intros ? [= <-].
Qed.

Lemma contained_raise {A} (Q : A → Prop) e : contained Q (raise e : M A).
Proof.
  intros w. exists (Raise e), w. split; [done|].
  split; [apply console_only_refl|]. done.
Qed.

Lemma contained_lift {A} (Q : A → Prop) (o : outcome A) :
  (∀ c, o = Exit c → c = 1%Z) → (∀ a, o = Ok a → Q a) →
  contained Q (lift o : M A).
Proof.
  intros Hc Ha w. exists o, w. split; [done|].
  split; [apply console_only_refl|]. done.
Qed.

Lemma contained_bind {A B} (Q1 : A → Prop) (Q2 : B → Prop)
    (m : M A) (f : A → M B) :
  contained Q1 m → (∀ a, Q1 a → contained Q2 (f a)) → contained Q2 (m ≫= f).
Proof.
  intros Hm Hf w. destruct (Hm w) as (o & w1 & Hrun & Hframe & Hexit & Hok).
  rewrite run_bind, Hrun. destruct o as [a|e|c].
  - destruct (Hf a (Hok a eq_refl) w1) as (o2 & w2 & Hrun2 & Hframe2 & Hexit2 & Hok2).
    exists o2, w2. split; [done|]. split; [|done].
    by eapply console_only_trans.
  - exists (Raise e), w1. split; [done|]. split; [done|]. by split.
  - exists (Exit c), w1. split; [done|]. split; [done|]. split; [|done].
    intros ? [= <-]. by apply Hexit.
Qed.

Lemma contained_log lvl msg (Q : unit → Prop) :
  Q tt → contained Q (log lvl msg : M unit).
Proof.
  intros Hq w. eexists (Ok tt), _. split; [reflexivity|].
  split; [by repeat split|]. split; [done|]. by intros [] _.
Qed.

Lemma contained_log_critical {A} msg (Q : A → Prop) :
  contained Q (log_critical msg : M A).
Proof.
  intros w. eexists (Exit 1%Z), _. split; [reflexivity|].
  split; [by repeat split|]. split; [by intros ? [= <-]|done].
Qed.

Lemma contained_fread filename : contained (λ _, True) (fread filename).
Proof.
  intros w. unfold fread. rewrite run_bind. simpl.
  destruct (os_read (disk w) filename) as [text|ex].
  - exists (Ok text), w. split; [done|].
    split; [apply console_only_refl|]. done.
  - apply (contained_log_critical (A := string)).
Qed.

Lemma contained_getitem (d : gmap string value) key :
  contained (λ v, d !! key = Some v) (getitem d key : M value).
Proof.
  unfold getitem. destruct (d !! key) as [v|].
  - by apply contained_ret.
  - apply contained_raise.
Qed.

Lemma format_time_loop_no_exit pats date_str format c :
  format_time_loop pats date_str format ≠ Exit c.
Proof.
  induction pats as [|pat pats IH]; simpl; [done|].
  destruct (strptime date_str pat); [|done].
  destruct format; try done. by destruct (strftime _ _).
Qed.

Lemma contained_format_time date_str format :
  contained (λ _, True) (format_time date_str format).
Proof.
  intros w. rewrite format_time_run.
  pose proof (format_time_loop_no_exit PATTERNS date_str format) as Hne.
  destruct (format_time_loop PATTERNS date_str format) as [[s|]|e|c].
  - exists (Ok s), w. split; [done|]. split; [apply console_only_refl|]. done.
  - eexists (Ok EmptyString), _. split; [done|]. split; [by repeat split|]. done.
  - exists (Raise e), w. split; [done|]. split; [apply console_only_refl|]. done.
  - by destruct (Hne c).
Qed.

Lemma contained_call_format_time date format :
  contained (λ _, True) (call_format_time date format).
Proof.
  destruct date; try apply contained_raise. apply contained_format_time.
Qed.

Lemma contained_weaken {A} (Q Q' : A → Prop) (m : M A) :
  (∀ a, Q a → Q' a) → contained Q m → contained Q' m.
Proof.
  intros HQ Hm w. destruct (Hm w) as (o & w' & Hrun & Hframe & Hexit & Hok).
  exists o, w'. split; [done|]. split; [done|]. split; [done|].
  intros a Ha. by apply HQ, Hok.
Qed.

Lemma filename_params_contained filename :
  (∀ c, filename_params filename = Exit c → c = 1%Z).
Proof.
  unfold filename_params. destruct (Path.name_parts filename); [done|].
  by destruct (Path.date_slug_match s) as [[? ?]|].
Qed.

Lemma read_header_loop_no_exit rest values e c :
  read_header_loop rest values e ≠ Exit c.
Proof.
  revert values e. induction rest as [|l rest IH]; intros values e; simpl; [done|].
  by destruct (is_sentinel l).
Qed.

Lemma read_header_no_exit text c : read_header text ≠ Exit c.
Proof.
  unfold read_header. destruct (Str.split Str.nl text); [done|].
  destruct (is_sentinel s); [apply read_header_loop_no_exit|done].
Qed.

(** X7. [read_content] never returns [None] and never lets an exception
    out: from any world it either returns an item or ends the build with
    exit code 1, and it touches nothing but the console. *)
Theorem read_content_outcome (filename : string)
    (site_params : gmap string value) (w : world) :
  ∃ o w',
    read_content filename site_params w = (o, w') ∧
    console_only w w' ∧
    ((∃ item, o = Ok (Some item)) ∨ o = Exit 1%Z).
Proof.
  unfold read_content, try_except.
  match goal with
  | |- context [match ?body w with _ => _ end] =>
      assert (contained (λ r : option (gmap string value), is_Some r) body)
        as Hbody
  end.
  { eapply contained_bind; [apply contained_fread|]. intros text _.
    eapply contained_bind.
    { apply (contained_lift (λ _, True)); [apply filename_params_contained|done]. }
    intros from_name _.
    eapply contained_bind.
    { apply (contained_lift (λ _, True)); [|done].
      intros c Hc. by destruct (read_header_no_exit text c). }
    intros [header end_] _.
    eapply contained_bind; [apply contained_getitem|]. intros date _.
    eapply contained_bind; [apply contained_call_format_time|]. intros short _.
    eapply contained_bind; [apply contained_getitem|]. intros date2 _.
    eapply contained_bind; [apply contained_getitem|]. intros hf _.
    eapply contained_bind; [apply contained_call_format_time|]. intros human _.
    eapply contained_bind; [apply contained_getitem|]. intros date3 _.
    eapply contained_bind; [apply contained_call_format_time|]. intros rfc _.
    apply contained_ret. by eexists. }
  destruct (Hbody w) as (o & w1 & Hrun & Hframe & Hexit & Hok).
  rewrite Hrun. destruct o as [r|e|c].
  - destruct (Hok r eq_refl) as [item ->].
    exists (Ok (Some item)), w1. split; [done|]. split; [done|]. left. by eexists.
  - eexists (Exit 1%Z), _. split; [reflexivity|]. split; [|by right].
    destruct Hframe as (? & ? & ?). by repeat split.
  - rewrite (Hexit c eq_refl). exists (Exit 1%Z), w1. split; [done|].
    split; [done|]. by right.
Qed.

End ContainedFacts.

Section ReadContentMore.
Context {Template datetime fs : Type} `{!Env Template datetime fs}.
#[local] Abbreviation world := (@world Template fs).
#[local] Abbreviation M := (@M Template fs).

Lemma format_time_unparsed date_str format (w : world) :
  (∀ pat, pat ∈ PATTERNS → strptime date_str pat = None) →
  format_time date_str format w
  = (Ok EmptyString, warned w ("Can't parse date " +:+ date_str)).
Proof.
  intros Hnone. rewrite format_time_run. unfold PATTERNS in *. simpl.
  rewrite (Hnone "%Y-%m-%d"), (Hnone "%Y%m%d"); [done| |].
  - apply elem_of_cons. right. apply elem_of_cons. by left.
  - apply elem_of_cons. by left.
Qed.

(** X8. A date that [strptime] accepts under neither pattern does not
    stop [read_content]: whatever the format, the item comes back with
    its three formatted dates empty, and three warnings are logged. *)
Theorem read_content_unparsed_date (filename : string)
    (site_params from_name : gmap string value) (w : world)
    (text : string) (header : gmap string string) (e : nat)
    (ds : string) (hf : value) :
  os_read (disk w) filename = inl text →
  filename_params filename = Ok from_name →
  read_header text = Ok (header, e) →
  merged site_params from_name header !! "date" = Some (VStr ds) →
  merged site_params from_name header !! "date_human_format" = Some hf →
  (∀ pat, pat ∈ PATTERNS → strptime ds pat = None) →
  let msg := "Can't parse date " +:+ ds in
  read_content filename site_params w =
  (Ok (Some (with_dates (merged site_params from_name header) (Str.drop e text)
                        EmptyString EmptyString EmptyString)),
   warned (warned (warned w msg) msg) msg).
Proof.
  intros Hread Hname Hheader Hdate Hhf Hnone msg.
  unfold read_content, try_except.
  erewrite run_bind_ok; [|by apply fread_ok].
  erewrite run_bind_ok; [|by rewrite run_lift, Hname].
  erewrite run_bind_ok; [|by rewrite run_lift, Hheader].
  cbv beta iota. fold (merged site_params from_name header).
  erewrite run_bind_ok; [|by apply getitem_ok].
  erewrite run_bind_ok; [|by apply format_time_unparsed].
  erewrite run_bind_ok; [|by apply getitem_ok].
  erewrite run_bind_ok; [|by apply getitem_ok].
  erewrite run_bind_ok; [|by apply format_time_unparsed].
  erewrite run_bind_ok; [|by apply getitem_ok].
  erewrite run_bind_ok; [|by apply format_time_unparsed].
  reflexivity.
Qed.

(** X9. An item [read_content] returns holds the text of the file from
    the offset of [read_header] on under [content], a [date] and the
    three formatted dates as texts, and under every other key what the
    merge of header, file name and base parameters holds. *)
Theorem read_content_item (filename : string)
    (site_params : gmap string value) (w w' : world)
    (r : option (gmap string value)) :
  read_content filename site_params w = (Ok r, w') →
  ∃ item text from_name header e,
    r = Some item ∧
    os_read (disk w) filename = inl text ∧
    filename_params filename = Ok from_name ∧
    read_header text = Ok (header, e) ∧
    item !! "content" = Some (VStr (Str.drop e text)) ∧
    has_date item ∧
    (∃ s, item !! "short_date" = Some (VStr s)) ∧
    (∃ s, item !! "human_date" = Some (VStr s)) ∧
    (∃ s, item !! "rfc_2822_date" = Some (VStr s)) ∧
    (∀ k, k ∉ computed_keys →
          item !! k = merged site_params from_name header !! k).
Proof.
  intros Hrun.
  apply read_content_inv in Hrun
    as (text & fn & header & e & ds & short & human & rfc
        & Hread & Hname & Hheader & Hdate & -> & _).
  eexists _, text, fn, header, e. split; [done|].
  split; [done|]. split; [done|]. split; [done|].
  unfold with_dates. split; [by apply lookup_union_Some_l|]. split.
  { exists ds. rewrite <- Hdate. apply (with_dates_lookup _ _ short human rfc).
    apply date_not_computed. }
  split; [exists short; by apply lookup_union_Some_l|].
  split; [exists human; by apply lookup_union_Some_l|].
  split; [exists rfc; by apply lookup_union_Some_l|].
  intros k Hk. by apply (with_dates_lookup _ _ short human rfc).
Qed.

End ReadContentMore.

Lemma read_content_unparsed_date_witness :
  ∃ item w',
    read_content "notes/when.html" Demo.params0 More.world1
    = (Ok (Some item), w') ∧
    console w' = [(Warn, "[w] Can't parse date someday");
                  (Warn, "[w] Can't parse date someday");
                  (Warn, "[w] Can't parse date someday")].
Proof.
  eexists _, _. split.
  - apply (read_content_unparsed_date "notes/when.html" Demo.params0
             {[ "date" := VStr "1970-01-01"; "slug" := VStr "when" ]}
             More.world1 More.undated {[ "date" := "someday" ]}
             22 "someday" (VStr "%d %b, %Y")).
    all: try reflexivity.
    intros pat Hpat.
    apply elem_of_cons in Hpat as [->|Hpat]; [reflexivity|].
    apply elem_of_cons in Hpat as [->|Hpat]; [reflexivity|].
    by apply elem_of_nil in Hpat.
  - reflexivity.
Defined.

Lemma read_content_item_witness :
  ∃ item w',
    read_content "content/about.html" Demo.params0 Demo.world0
    = (Ok (Some item), w') ∧
    item !! "content" = Some (VStr "About").
Proof.
  assert (match (read_content "content/about.html" Demo.params0 Demo.world0).1 with
          | Ok _ => true
          | _ => false
          end = true) as Hok by (vm_compute; reflexivity).
  destruct (read_content "content/about.html" Demo.params0 Demo.world0)
    as [[r|?|?] w'] eqn:Hrun; [|discriminate Hok..].
  destruct (read_content_item _ _ _ _ _ Hrun)
    as (item & text & fn & header & e & -> & Hread & _ & Hheader & Hcontent & _).
  vm_compute in Hread. injection Hread as <-.
  vm_compute in Hheader. injection Hheader as _ <-.
  exists item, w'. split; [reflexivity|exact Hcontent].
Defined.

(* ===================================================================== *)
(** ** Further properties: pages, items and the site *)
(* ===================================================================== *)

Section PagesMore.
Context {Template datetime fs : Type} `{!Env Template datetime fs}.
#[local] Abbreviation world := (@world Template fs).
#[local] Abbreviation M := (@M Template fs).

(** A page that [render_page] returns is the item of the first file that
    matches, with its content rendered. *)
Lemma render_page_shape path site_params (w w' : world) item :
  render_page path site_params w = (Ok (Some item), w') →
  ∃ files filename page wb text,
    expand_files path 1 w = (Ok files, w) ∧
    head files = Some filename ∧
    read_content filename site_params w = (Ok (Some page), wb) ∧
    page !! "content" = Some (VStr text) ∧
    ∃ t rc,
      compile text = inl t ∧ renders t page rc ∧
      item = <["content" :=
                VStr (if existsb (Path.endswith filename) markdown_suffixes
                      then match markdown with Some md => md rc | None => rc end
                      else rc)]> page.
Proof.
  unfold render_page. intros Hrun.
  apply run_bind_inv in Hrun as (files & wa & Hfiles & Hrun).
  pose proof (expand_files_inv _ _ _ _ _ Hfiles) as ->.
  destruct (head files) as [filename|] eqn:Hhead.
  2:{ apply run_bind_inv in Hrun as (u & wb & _ & Hrun). by injection Hrun. }
  destruct (Str.is_empty filename).
  { apply run_bind_inv in Hrun as (u & wb & _ & Hrun). by injection Hrun. }
  apply run_bind_inv in Hrun as (pp & wb & Hread & Hrun).
  destruct pp as [page|]; [|by injection Hrun].
  case_bool_decide as Hempty; [by injection Hrun|].
  apply run_bind_inv in Hrun as (content & wc & [Hcontent ->]%getitem_inv & Hrun).
  apply run_bind_inv in Hrun as (rc & wd & Hrender & Hrun).
  destruct content as [| | |text| |]; try done.
  apply render_template_returns in Hrender as (t & Ht & Hrc & ->).
  simpl in Ht.
  exists files, filename, page, wb, text.
  split; [done|]. split; [done|]. split; [done|]. split; [done|].
  exists t, rc. split; [done|]. split; [done|].
  cbv zeta in Hrun.
  destruct (existsb (Path.endswith filename) markdown_suffixes).
  - destruct markdown as [md|].
    + injection Hrun as <- _. by rewrite insert_insert_eq.
    + by apply log_critical_inv in Hrun.
  - by injection Hrun as <- _.
Qed.

(** X10. A page that [render_page] returns is built from the first file
    that matches the path: it is the item [read_content] returns for that
    file, with [content] replaced by the body rendered as a template of
    the item itself, and converted from Markdown when the file name ends
    in a Markdown suffix; every other field is left as it is.  The body
    has compiled, no field of the item is named [self], and the engine
    has returned the rendered text. *)
Theorem render_page_fields (path : string) (site_params : gmap string value)
    (w w' : world) (item : gmap string value) :
  render_page path site_params w = (Ok (Some item), w') →
  ∃ files filename page wb text,
    expand_files path 1 w = (Ok files, w) ∧
    head files = Some filename ∧
    read_content filename site_params w = (Ok (Some page), wb) ∧
    page !! "content" = Some (VStr text) ∧
    (∀ k, k ≠ "content" → item !! k = page !! k) ∧
    ∃ t rc,
      compile text = inl t ∧
      page !! "self" = None ∧
      template_render t page = inl rc ∧
      item !! "content"
      = Some (VStr (if existsb (Path.endswith filename) markdown_suffixes
                    then match markdown with Some md => md rc | None => rc end
                    else rc)).
Proof.
  intros Hrun.
  destruct (render_page_shape _ _ _ _ _ Hrun)
    as (files & filename & page & wb & text & Hf & Hh & Hr & Hc
        & t & rc & Ht & [Hself Hrc] & Hitem).
  exists files, filename, page, wb, text.
  split; [done|]. split; [done|]. split; [done|]. split; [done|].
  rewrite Hitem. split.
  - intros k Hk. by rewrite lookup_insert_ne.
  - exists t, rc. split; [done|]. split; [done|]. split; [done|].
    by rewrite lookup_insert_eq.
Qed.

Lemma with_date_keys_inv items keyed :
  with_date_keys items = Ok keyed → keyed.*2 = items.
Proof.
  revert keyed. induction items as [|x items IH]; intros keyed; simpl.
  - by intros [= <-].
  - destruct (date_key x) as [k| |]; [|done..]. simpl.
    destruct (with_date_keys items) as [rest| |]; [|done..]. simpl.
    intros [= <-]. rewrite fmap_cons. simpl. by rewrite (IH rest).
Qed.

Lemma sorted_by_date_perm items result :
  sorted_by_date items = Ok result → result ≡ₚ items.
Proof.
  unfold sorted_by_date.
  destruct (with_date_keys items) as [keyed| |] eqn:Hk; [|done..].
  simpl. intros [= <-]. rewrite <- (with_date_keys_inv _ _ Hk).
  apply fmap_Permutation, SortFacts.sorted_reverse_perm.
Qed.

(** Every item [make_pages] returns is a page [render_page] returned. *)
Lemma make_pages_items (P : gmap string value → Prop)
    pattern dest default_layout site_params jinja_env (w w' : world) result :
  (∀ src x w1 w2, render_page src site_params w1 = (Ok (Some x), w2) → P x) →
  make_pages pattern dest default_layout site_params jinja_env w
    = (Ok result, w') →
  Forall P result.
Proof.
  intros HP Hrun. unfold make_pages in Hrun.
  apply run_bind_inv in Hrun as (files & wa & _ & Hrun).
  apply run_bind_inv in Hrun as (items & wb & Hloop & Hrun).
  rewrite run_lift in Hrun. injection Hrun as Hsort _.
  apply (make_pages_loop_inv P) in Hloop as [_ Hall].
  2:{ intros src x w1 w2 _. apply HP. }
  specialize (Hall (Forall_nil_2 _)).
  rewrite Forall_forall in Hall |- *. intros x Hx. apply Hall.
  by rewrite <- (sorted_by_date_perm _ _ Hsort).
Qed.

(** X11. The pages [make_pages] returns can always be summarised: each
    holds its [content] as a text, so that, whatever the parameters of
    the directory, the parameters of every item can be computed.  The
    loop of [make_index] over these pages can then fail in a render
    only: it returns the rendered items as soon as every render of the
    item layout returns. *)
Theorem make_pages_summarised (pattern dest_path_pattern : string)
    (default_layout : Template) (site_params : gmap string value)
    (jinja_env : string) (w w' : world) (pages : list (gmap string value)) :
  make_pages pattern dest_path_pattern default_layout site_params jinja_env w
    = (Ok pages, w') →
  Forall (λ page, ∃ c, page !! "content" = Some (VStr c)) pages ∧
  ∀ il ref items (w1 : world),
    ∃ ps,
      Forall2 (λ page p, item_params (default ∅ (heap w1 !! ref)) page = Ok p)
              pages ps ∧
      ∀ outs,
        Forall2 (renders il) ps outs →
        make_index_loop pages il ref items w1 =
        (Ok (items ++ outs),
         World (heap w1) (disk w1) (console w1)
               (rendered w1 ++ (pair il <$> ps))).
Proof.
  intros Hrun.
  assert (Forall (λ page, ∃ c, page !! "content" = Some (VStr c)) pages) as Hall.
  { eapply make_pages_items; [|exact Hrun].
    intros src x w1 w2 Hpage.
    destruct (render_page_shape _ _ _ _ _ Hpage)
      as (? & ? & page & ? & ? & _ & _ & _ & _ & ? & ? & _ & _ & Hitem).
    rewrite Hitem. eexists. apply lookup_insert_eq. }
  split; [done|]. intros il ref items w1.
  assert (∃ ps, Forall2 (λ page p,
            item_params (default ∅ (heap w1 !! ref)) page = Ok p) pages ps)
    as [ps Hps].
  { clear Hrun. induction Hall as [|page pages [c Hc] _ [ps IH]]; [by exists []|].
    assert (∃ p, item_params (default ∅ (heap w1 !! ref)) page = Ok p) as [p Hp].
    { unfold item_params, item_summary.
      destruct (truthy (dict_get page "summary")); [by eexists|].
      destruct (truthy (dict_get page "description")); [by eexists|].
      rewrite Hc. by eexists. }
    exists (p :: ps). by constructor. }
  exists ps. split; [done|]. intros outs Houts.
  assert (item_renders il (default ∅ (heap w1 !! ref)) pages (zip ps outs)) as Hrs.
  { clear Hrun Hall. unfold item_renders. revert outs Houts.
    induction Hps as [|page p pages ps Hp _ IH]; intros outs Houts.
    - apply Forall2_nil_inv_l in Houts as ->. constructor.
    - apply Forall2_cons_inv_l in Houts as (out & outs' & Hout & Houts & ->).
      simpl. constructor; [by split|]. by apply IH. }
  rewrite (make_index_loop_run _ _ _ _ _ _ Hrs).
  pose proof (Forall2_length _ _ _ Houts) as Hlen.
  rewrite fst_zip, snd_zip by lia. done.
Qed.

(** X12. In the parameters of an item, the item's own fields go before
    those of the directory, and [summary] is always set: every key other
    than [summary] maps to the page's value when the page has one and to
    the directory's value otherwise. *)
Theorem item_params_fields (site_params page_dict p : gmap string value) :
  item_params site_params page_dict = Ok p →
  is_Some (p !! "summary") ∧
  ∀ k, k ≠ "summary" →
       p !! k = match page_dict !! k with
                | Some v => Some v
                | None => site_params !! k
                end.
Proof.
  unfold item_params. destruct (item_summary page_dict) as [s| |]; [|done..].
  simpl. intros [= <-]. split.
  - rewrite lookup_insert_eq. by eexists.
  - intros k Hk. rewrite lookup_insert_ne by done. rewrite lookup_union.
    by destruct (page_dict !! k), (site_params !! k).
Qed.

End PagesMore.

(** A header that names a field [self] stops the build: the render of
    the body raises [TypeError], which nothing catches. *)
Example render_page_self_key :
  (render_page "notes/self.html" Demo.params0 More.world2).1 = Raise TypeError.
Proof. vm_compute. reflexivity. Qed.

Lemma render_page_fields_witness :
  ∃ (item : gmap string value) files filename page wb text,
    expand_files "notes/plain.md" 1 More.world1 = (Ok files, More.world1) ∧
    head files = Some filename ∧
    read_content filename Demo.params0 More.world1 = (Ok (Some page), wb) ∧
    page !! "content" = Some (VStr text) ∧
    (∀ k, k ≠ "content" → item !! k = page !! k).
Proof.
  assert (match (render_page "notes/plain.md" Demo.params0 More.world1).1 with
          | Ok (Some _) => true
          | _ => false
          end = true) as Hok by (vm_compute; reflexivity).
  destruct (render_page "notes/plain.md" Demo.params0 More.world1)
    as [[[item|]|?|?] w'] eqn:Hrun; [|discriminate Hok..].
  destruct (render_page_fields _ _ _ _ _ Hrun)
    as (files & filename & page & wb & text & Hf & Hh & Hr & Hc & Hk & _).
  exists item, files, filename, page, wb, text.
  split; [exact Hf|]. split; [exact Hh|]. split; [exact Hr|].
  split; [exact Hc|exact Hk].
Defined.

Lemma make_pages_summarised_witness :
  ∃ pages w',
    make_pages "content/blog/[!_]*.{md,html}" "out/{{ slug }}/index.html"
               "post.html" Demo.params0 "layout" Demo.world0 = (Ok pages, w') ∧
    Forall (λ page, ∃ c, page !! "content" = Some (VStr c)) pages.
Proof.
  assert (match (make_pages "content/blog/[!_]*.{md,html}"
                   "out/{{ slug }}/index.html" "post.html" Demo.params0
                   "layout" Demo.world0).1 with
          | Ok _ => true
          | _ => false
          end = true) as Hok by (vm_compute; reflexivity).
  destruct (make_pages "content/blog/[!_]*.{md,html}"
              "out/{{ slug }}/index.html" "post.html" Demo.params0
              "layout" Demo.world0)
    as [[pages|?|?] w'] eqn:Hrun; [|discriminate Hok..].
  exists pages, w'. split; [reflexivity|].
  exact (proj1 (make_pages_summarised _ _ _ _ _ _ _ _ Hrun)).
Defined.

Lemma item_params_fields_witness :
  ∃ p,
    item_params {[ "author" := VStr "Admin"; "title" := VStr "Blog" ]}
                {[ "title" := VStr "First"; "summary" := VStr "Short" ]} = Ok p ∧
    is_Some (p !! "summary") ∧
    p !! "title" = Some (VStr "First") ∧
    p !! "author" = Some (VStr "Admin").
Proof.
  eexists. split; [reflexivity|].
  edestruct (item_params_fields
               {[ "author" := VStr "Admin"; "title" := VStr "Blog" ]}
               {[ "title" := VStr "First"; "summary" := VStr "Short" ]})
    as [Hs Hk]; [reflexivity|].
  split; [exact Hs|]. split.
  - rewrite (Hk "title") by done. reflexivity.
  - rewrite (Hk "author") by done. reflexivity.
Defined.

Section SiteMore.
Context {Template datetime fs : Type} `{!Env Template datetime fs}.
#[local] Abbreviation world := (@world Template fs).
#[local] Abbreviation M := (@M Template fs).

Lemma new_dir_params_reserved output_subdir title meta
    (site_params : gmap string value) (w : world) :
  is_Some (site_params !! "dir") ∨ is_Some (site_params !! "title")
  ∨ is_Some (site_params !! "current_content_dir") →
  new_dir_params output_subdir title meta site_params w = (Raise TypeError, w).
Proof.
  intros Hkey. unfold new_dir_params.
  assert (bool_decide (is_Some (site_params !! "dir"))
          || bool_decide (is_Some (site_params !! "title"))
          || bool_decide (is_Some (site_params !! "current_content_dir")) = true)
    as ->; [|done].
  destruct Hkey as [Hk|[Hk|Hk]]; rewrite (bool_decide_eq_true_2 _ Hk);
    by rewrite ?orb_true_r.
Qed.

(** X13. Base parameters that define [dir], [title] or
    [current_content_dir] clash with the keywords the directory mapping is
    built from: the body of the directory loop raises [TypeError] right
    after its first log line, with nothing rendered or written, and so
    does the loop over the directories at its first directory. *)
Theorem make_site_dir_reserved_key (all : bool)
    (layout content output : string) (ls : layouts)
    (site_params : gmap string value) (d : string)
    (fields : list (string * value)) (w : world) :
  is_Some (site_params !! "dir") ∨ is_Some (site_params !! "title")
  ∨ is_Some (site_params !! "current_content_dir") →
  (∃ w', make_site_dir all layout content output ls site_params d
                       (VDict fields) w = (Raise TypeError, w') ∧
         console_only w w') ∧
  (∀ rest, ∃ w',
     make_site_dirs all layout content output ls site_params
                    ((d, VDict fields) :: rest) w = (Raise TypeError, w') ∧
     console_only w w').
Proof.
  intros Hkey.
  assert (∃ w', make_site_dir all layout content output ls site_params d
                  (VDict fields) w = (Raise TypeError, w') ∧
                console_only w w') as (w' & Hrun & Hframe).
  { unfold make_site_dir.
    erewrite run_bind_ok; [|apply run_ret]. cbv zeta.
    erewrite run_bind_ok; [|apply log_run].
    rewrite run_bind, new_dir_params_reserved by done.
    eexists. split; [done|]. by repeat split. }
  split; [by exists w'|]. intros rest. exists w'. split; [|done].
  simpl. by rewrite run_bind, Hrun.
Qed.


End SiteMore.

Lemma make_site_dir_reserved_key_witness :
  ∃ w',
    make_site_dir false "layout" "content" "out" Demo.layouts0
                  (<["title" := VStr "My site"]> Demo.params0)
                  "blog" Demo.blog Demo.world0 = (Raise TypeError, w').
Proof.
  destruct (make_site_dir_reserved_key false "layout" "content" "out"
              Demo.layouts0 (<["title" := VStr "My site"]> Demo.params0) "blog"
              [("generate_index", VBool true); ("generate_rss", VStr "yes")]
              Demo.world0) as [(w' & Hrun & _) _].
  - right. left. exists (VStr "My site"). reflexivity.
  - exists w'. exact Hrun.
Defined.

